(** * scanpy-scripts: the dot-matrix plot [dotplot2] and [plot_embedding]

    A shallow embedding of [src/scanpy_scripts/lib/_plot.py].

    Numbers.  The Python code computes on IEEE doubles held in NumPy
    arrays.  Here a finite number is an exact rational ([Q]) and the three
    special values that NumPy produces instead of raising (a division by
    zero gives [inf] or [nan]) are kept as constructors of [fnum], with
    the IEEE rules for them.  Rounding of finite results is not modelled.

    Tables.  The pandas frame [df] of [dotplot2] is a list of rows; each
    row holds the label of its group and one value per key, in the order
    of [keys] (keys are distinct identifiers, so selecting columns by
    label and by position coincide).  The categories of the [group]
    column are a separate ordered list, as in a pandas categorical:
    selecting rows never changes them.

    External collaborators (matplotlib, the colour map) are not modelled
    beyond the arguments they receive. *)

From Stdlib Require Import QArith Qround Qminmax Qabs ZArith List String Ascii Bool Lia Lqa.
From Stdlib Require Import DecimalString DecimalNat.
From Stdlib Require Import Permutation Sorted.
Import ListNotations.

Open Scope Q_scope.

(** ** NumPy numbers and arrays *)

Module Np.

Inductive fnum : Type :=
| Fin (q : Q)
| PInf
| NInf
| NaN.

Definition Qltb (a b : Q) : bool := negb (Qle_bool b a).

(** Comparisons: every comparison with [nan] is false, except [!=]. *)
Definition flt (a b : fnum) : bool :=
  match a, b with
  | Fin x, Fin y => Qltb x y
  | NInf, Fin _ | NInf, PInf | Fin _, PInf => true
  | _, _ => false
  end.

Definition fle (a b : fnum) : bool :=
  match a, b with
  | Fin x, Fin y => Qle_bool x y
  | NInf, Fin _ | NInf, PInf | NInf, NInf => true
  | Fin _, PInf | PInf, PInf => true
  | _, _ => false
  end.

Definition feqb (a b : fnum) : bool :=
  match a, b with
  | Fin x, Fin y => Qeq_bool x y
  | PInf, PInf | NInf, NInf => true
  | _, _ => false
  end.

Definition fneb (a b : fnum) : bool := negb (feqb a b).

Definition fopp (a : fnum) : fnum :=
  match a with
  | Fin x => Fin (- x)
  | PInf => NInf
  | NInf => PInf
  | NaN => NaN
  end.

Definition fadd (a b : fnum) : fnum :=
  match a, b with
  | NaN, _ | _, NaN => NaN
  | Fin x, Fin y => Fin (x + y)
  | PInf, NInf | NInf, PInf => NaN
  | PInf, _ | _, PInf => PInf
  | NInf, _ | _, NInf => NInf
  end.

Definition fsub (a b : fnum) : fnum := fadd a (fopp b).

(** Sign of a finite number, as a comparison with zero. *)
Definition Qsign (x : Q) : comparison := x ?= 0.

Definition inf_of (c : comparison) : fnum :=
  match c with
  | Gt => PInf
  | Lt => NInf
  | Eq => NaN
  end.

Definition sign_of (a : fnum) : comparison :=
  match a with
  | Fin x => Qsign x
  | PInf => Gt
  | NInf => Lt
  | NaN => Eq
  end.

Definition fmul (a b : fnum) : fnum :=
  match a, b with
  | NaN, _ | _, NaN => NaN
  | Fin x, Fin y => Fin (x * y)
  | _, _ =>
      match sign_of a, sign_of b with
      | Eq, _ | _, Eq => NaN           (* inf * 0 *)
      | Gt, Gt | Lt, Lt => PInf
      | _, _ => NInf
      end
  end.

(** Division of arrays never raises: [x / 0] is [inf], [-inf] or [nan]
    (the divisors of the source, a count and [dot_max - dot_min], are
    never a negative zero). *)
Definition fdiv (a b : fnum) : fnum :=
  match a, b with
  | NaN, _ | _, NaN => NaN
  | Fin x, Fin y =>
      if Qeq_bool y 0 then inf_of (Qsign x) else Fin (x / y)
  | Fin _, _ => Fin 0
  | _, Fin y =>
      match sign_of a, Qsign y with
      | Gt, Lt | Lt, Gt | Lt, Eq => NInf
      | _, _ => PInf
      end
  | _, _ => NaN
  end.

(** [x ** 2]. *)
Definition fsq (a : fnum) : fnum := fmul a a.

(** [np.maximum], [np.minimum]: a [nan] operand gives [nan]. *)
Definition maximum (a b : fnum) : fnum :=
  match a, b with
  | NaN, _ | _, NaN => NaN
  | _, _ => if fle a b then b else a
  end.

Definition minimum (a b : fnum) : fnum :=
  match a, b with
  | NaN, _ | _, NaN => NaN
  | _, _ => if fle a b then a else b
  end.

(** [np.clip(a, a_min, a_max)] is [minimum(maximum(a, a_min), a_max)]. *)
Definition clip (a lo hi : fnum) : fnum := minimum (maximum a lo) hi.

Definition ceil (a : fnum) : fnum :=
  match a with
  | Fin x => Fin (inject_Z (Qceiling x))
  | _ => a
  end.

(** [np.max] of a flattened array; [None] stands for the ValueError
    raised on an array without elements. *)
Definition max (l : list fnum) : option fnum :=
  match l with
  | [] => None
  | a :: l' => Some (fold_left maximum l' a)
  end.

(** [np.arange(start, stop, step)] on finite arguments, [step <> 0]:
    [ceil((stop - start) / step)] elements [start + i * step]. *)
Definition arange (start stop step : Q) : list Q :=
  map (fun i : nat => start + inject_Z (Z.of_nat i) * step)
      (seq 0 (Z.to_nat (Qceiling ((stop - start) / step)))).

(** [np.tile(range(n), reps)] and [np.repeat(a, n)]. *)
Fixpoint tile {A} (l : list A) (reps : nat) : list A :=
  match reps with
  | O => []
  | S r => l ++ tile l r
  end.

Definition repeat {A} (l : list A) (n : nat) : list A :=
  flat_map (fun a => List.repeat a n) l.

(** Equality of numbers up to the representation of the rational. *)
Definition feq (a b : fnum) : Prop :=
  match a, b with
  | Fin x, Fin y => x == y
  | PInf, PInf | NInf, NInf | NaN, NaN => True
  | _, _ => False
  end.

End Np.

Import Np.

(** ** Python results *)

Inductive exn : Type :=
| ValueError
| KeyError
| IndexError
| NameError
| ZeroDivisionError
| LibraryError.     (* an exception coming out of a plotting-library call *)

Inductive result (A : Type) : Type :=
| Ok (a : A)
| Raise (e : exn).

Arguments Ok {A} a.
Arguments Raise {A} e.

Definition bind {A B} (r : result A) (k : A -> result B) : result B :=
  match r with
  | Ok a => k a
  | Raise e => Raise e
  end.

Notation "x <- r ;; k" := (bind r (fun x => k))
  (at level 61, r at next level, right associativity).

(** ** The frame [df] and its groups (lines 200-206) *)

Record row : Type := { group : string; vals : list Q }.

Definition frame : Type := list row.

(** Rows of category [c], in frame order: the sub-frame that
    [df.groupby('group')] hands to the aggregation function.  The grouper
    is categorical, so there is one sub-frame per category, in category
    order, empty for a category without rows. *)
Definition rows_of (df : frame) (c : string) : frame :=
  filter (fun r => String.eqb (group r) c) df.

(** [df.groupby('group').agg('size')]. *)
Definition group_size (categories : list string) (df : frame) : list Z :=
  map (fun c => Z.of_nat (List.length (rows_of df c))) categories.

(** [group_size.index[group_size.values >= min_group_size]]. *)
Definition big_groups (categories : list string) (df : frame) (min_group_size : Z)
  : list string :=
  filter (fun c => (min_group_size <=? Z.of_nat (List.length (rows_of df c)))%Z) categories.

(** [isin]. *)
Definition isin (s : string) (l : list string) : bool := existsb (String.eqb s) l.

(** Lines 204-205: the row selection done when [min_group_size] is truthy. *)
Definition filter_min_group_size (categories : list string) (df : frame)
  (min_group_size : Z) : frame :=
  if (min_group_size =? 0)%Z then df
  else filter (fun r => isin (group r) (big_groups categories df min_group_size)) df.

(** Line 206: [df['group'].cat.categories.size].  Selecting rows leaves the
    categories of the column as they were set on line 202. *)
Definition n_group (categories : list string) (df : frame) : nat :=
  List.length categories.

(** ** Aggregation (lines 208-227) *)

Definition pos (v : Q) : bool := Qltb 0 v.

Definition column (j : nat) (g : frame) : list Q :=
  map (fun r => nth j (vals r) 0) g.

Definition Qsum (l : list Q) : Q := fold_right Qplus 0 l.

Definition count_pos (l : list Q) : nat := List.length (filter pos l).

Definition of_nat (n : nat) : fnum := Fin (inject_Z (Z.of_nat n)).

(** [fillna(0)]. *)
Definition fillna0 (a : fnum) : fnum :=
  match a with NaN => Fin 0 | _ => a end.

(** Independent mode, one cell: the statistics of column [j] of group [g]. *)
Definition exp_cnt_cell (g : frame) (j : nat) : nat := count_pos (column j g).

Definition frac_cell (g : frame) (j : nat) : fnum :=
  fdiv (of_nat (count_pos (column j g))) (of_nat (List.length g)).

Definition avg0_cell (g : frame) (j : nat) : fnum :=
  fdiv (Fin (Qsum (column j g))) (of_nat (List.length g)).

Definition avg1_cell (g : frame) (j : nat) : fnum :=
  fillna0 (fdiv (Fin (Qsum (column j g))) (of_nat (count_pos (column j g)))).

(** Joint mode: [(g > 0).sum(axis=1) == 2], row by row. *)
Definition row_npos (r : row) : nat := count_pos (vals r).

Definition joint_rows (g : frame) : frame :=
  filter (fun r => Nat.eqb (row_npos r) 2) g.

Definition exp_cnt_joint (g : frame) : nat := List.length (joint_rows g).

Definition frac_joint (g : frame) : fnum :=
  fdiv (of_nat (List.length (joint_rows g))) (of_nat (List.length g)).

Record stats : Type := {
  exp_cnt : list (list nat);      (* group-major: one list per category *)
  frac : list (list fnum);
  avg : list (list fnum);
  group_label : list string;
  n_key : nat
}.

(** Lines 208-224.  In joint mode the arrays have one column. *)
Definition aggregate (categories : list string) (keys : list string) (df : frame)
  (mean_only_expressed second_key_dependent_fraction : bool) : stats :=
  let groups := map (rows_of df) categories in
  let mean_cell := if mean_only_expressed then avg1_cell else avg0_cell in
  if second_key_dependent_fraction then
    {| exp_cnt := map (fun g => [exp_cnt_joint g]) groups;
       frac := map (fun g => [frac_joint g]) groups;
       avg := map (fun g => [mean_cell g 0%nat]) groups;
       group_label := categories;
       n_key := 1 |}
  else
    let js := seq 0 (List.length keys) in
    {| exp_cnt := map (fun g => map (exp_cnt_cell g) js) groups;
       frac := map (fun g => map (frac_cell g) js) groups;
       avg := map (fun g => map (mean_cell g) js) groups;
       group_label := categories;
       n_key := List.length keys |}.

(** Lines 226-227: [a[exp_cnt < min_presence] = 0]. *)
Definition zero_absent (min_presence : Z) (cnt : list (list nat))
  (a : list (list fnum)) : list (list fnum) :=
  map (fun '(cs, vs) =>
         map (fun '(c, v) => if (Z.of_nat c <? min_presence)%Z then Fin 0 else v)
             (combine cs vs))
      (combine cnt a).

(** [a.T.flatten()] of a group-major array with [k] columns: key by key,
    and within a key group by group. *)
Definition flatten_T {A} (d : A) (k : nat) (a : list (list A)) : list A :=
  flat_map (fun j => map (fun r => nth j r d) a) (seq 0 k).

(** ** Scaling (lines 229-251) *)

(** Lines 229-233.  An unset [dot_max] is derived from the largest
    fraction; a given one is only compared with 0 and with 1. *)
Definition resolve_dot_max (dot_max : option Q) (frac : list (list fnum))
  : result fnum :=
  match dot_max with
  | None =>
      match Np.max (List.concat frac) with
      | Some m => Ok (fdiv (ceil (fmul m (Fin 10))) (Fin 10))
      | None => Raise ValueError
      end
  | Some d => if Qltb d 0 || Qltb 1 d then Raise ValueError else Ok (Fin d)
  end.

(** Lines 234-238. *)
Definition resolve_dot_min (dot_min : option Q) : result fnum :=
  match dot_min with
  | None => Ok (Fin 0)
  | Some d => if Qltb d 0 || Qltb 1 d then Raise ValueError else Ok (Fin d)
  end.

(** Line 240: [dot_min != 0 or dot_max != 1]. *)
Definition rescaling (dot_min dot_max : fnum) : bool :=
  fneb dot_min (Fin 0) || fneb dot_max (Fin 1).

Definition old_range (dot_min dot_max : fnum) : fnum := fsub dot_max dot_min.

(** Lines 240-245, on one fraction. *)
Definition scale_frac (dot_min dot_max f : fnum) : fnum :=
  if rescaling dot_min dot_max
  then fdiv (fsub (clip f dot_min dot_max) dot_min) (old_range dot_min dot_max)
  else f.

(** Line 249: [(frac * 10) ** 2]. *)
Definition dot_size (f : fnum) : fnum := fsq (fmul f (Fin 10)).

(** ** Layout (lines 253-267) *)

Inductive legend_loc : Type :=
| LegendRight
| LegendBottom
| LegendNone.     (* 'none', and any string other than 'right' and 'bottom' *)

Definition is_right (l : legend_loc) : bool :=
  match l with LegendRight => true | _ => false end.

Definition is_bottom (l : legend_loc) : bool :=
  match l with LegendBottom => true | _ => false end.

(** An axis handle given by the caller; any handle is truthy. *)
Definition handle : Type := nat.

(** Line 253: ['none' if ax else legend_loc]. *)
Definition effective_legend_loc (ax : option handle) (l : legend_loc) : legend_loc :=
  match ax with
  | Some _ => LegendNone
  | None => l
  end.

Definition int_of_bool (b : bool) : Q := if b then 1 else 0.

Definition Qnat (n : nat) : Q := inject_Z (Z.of_nat n).

(** Lines 254-255. *)
Definition fig_width (n_key n_group : nat) (swap_axis : bool) (l : legend_loc) : Q :=
  0.5 + Qnat (if swap_axis then n_key else n_group) * 0.25 + 0.25 * int_of_bool (is_right l).

Definition fig_height (n_key n_group : nat) (swap_axis : bool) (l : legend_loc) : Q :=
  0.5 + Qnat (if swap_axis then n_group else n_key) * 0.2 + 0.25 * int_of_bool (is_bottom l).

(** The panels of the figure: what [plt.subplots] is asked for, or the
    axis of the caller. *)
Inductive panels : Type :=
| TwoColumns (width_ratios : Q * Q) (wspace : Q)
| TwoRows (height_ratios : Q * Q) (hspace : Q)
| OnePanel
| CallerAxis (ax : handle).

(** A new figure is created exactly when [plt.subplots] is called. *)
Definition creates_figure (p : panels) : bool :=
  match p with CallerAxis _ => false | _ => true end.

Definition has_legend_panel (p : panels) : bool :=
  match p with TwoColumns _ _ | TwoRows _ _ => true | _ => false end.

(** Python's [0.25 / n] on an int [n]. *)
Definition quarter_over (n : nat) : result Q :=
  match n with
  | O => Raise ZeroDivisionError
  | _ => Ok (0.25 / Qnat n)
  end.

(** Lines 258-266. *)
Definition make_panels (n_key n_group : nat) (swap_axis : bool)
  (l : legend_loc) (ax : option handle) : result panels :=
  match l with
  | LegendRight =>
      w <- quarter_over (if swap_axis then n_key else n_group) ;;
      Ok (TwoColumns (fig_width n_key n_group swap_axis l - 0.25, 0.25) w)
  | LegendBottom =>
      h <- quarter_over (if swap_axis then n_group else n_key) ;;
      Ok (TwoRows (fig_height n_key n_group swap_axis l - 0.25, 0.25) h)
  | LegendNone =>
      match ax with
      | None => Ok OnePanel
      | Some a => Ok (CallerAxis a)
      end
  end.

(** ** The dot grid (lines 271-286) *)

(** The arguments of [main.scatter]; the colour of a dot is
    [cmap(normalize(avg))], a function of its mean alone, so the colour
    array is represented by the array of means. *)
Record scatter (C S : Type) : Type := {
  sc_x : list nat;
  sc_y : list nat;
  sc_color : list C;
  sc_s : list S
}.

Arguments sc_x {C S} _.
Arguments sc_y {C S} _.
Arguments sc_color {C S} _.
Arguments sc_s {C S} _.

Record ticks : Type := { tk_pos : list nat; tk_labels : list string }.

Record grid (C S : Type) : Type := {
  g_scatter : scatter C S;
  g_xticks : ticks;
  g_yticks : ticks
}.

Arguments g_scatter {C S} _.
Arguments g_xticks {C S} _.
Arguments g_yticks {C S} _.

Definition draw_grid {C S} (swap_axis : bool) (n_key n_group : nat)
  (keys group_label : list string) (dot_colors : list C) (dot_sizes : list S)
  : grid C S :=
  if swap_axis then
    {| g_scatter :=
         {| sc_y := tile (seq 0 n_group) n_key;
            sc_x := Np.repeat (rev (seq 0 n_key)) n_group;
            sc_color := rev dot_colors;
            sc_s := rev dot_sizes |};
       g_xticks := {| tk_pos := seq 0 n_key; tk_labels := keys |};
       g_yticks := {| tk_pos := seq 0 n_group; tk_labels := rev group_label |} |}
  else
    {| g_scatter :=
         {| sc_x := tile (seq 0 n_group) n_key;
            sc_y := Np.repeat (seq 0 n_key) n_group;
            sc_color := dot_colors;
            sc_s := dot_sizes |};
       g_yticks := {| tk_pos := seq 0 n_key; tk_labels := keys |};
       g_xticks := {| tk_pos := seq 0 n_group; tk_labels := group_label |} |}.

(** A drawn dot: the entries of the four arrays at one index. *)
Record dot (C S : Type) : Type := { d_x : nat; d_y : nat; d_color : C; d_s : S }.

Arguments d_x {C S} _.
Arguments d_y {C S} _.
Arguments d_color {C S} _.
Arguments d_s {C S} _.

Fixpoint zip_dots {C S} (xs ys : list nat) (cs : list C) (ss : list S)
  : list (dot C S) :=
  match xs, ys, cs, ss with
  | x :: xs', y :: ys', c :: cs', s :: ss' =>
      {| d_x := x; d_y := y; d_color := c; d_s := s |} :: zip_dots xs' ys' cs' ss'
  | _, _, _, _ => []
  end.

Definition dots {C S} (sc : scatter C S) : list (dot C S) :=
  zip_dots (sc_x sc) (sc_y sc) (sc_color sc) (sc_s sc).

(** ** The size legend (lines 302-328) *)

(** Lines 303-313: the tick spacing, by the chain of comparisons. *)
Definition legend_step (diff : fnum) : Q :=
  if flt (Fin 0.2) diff && fle diff (Fin 0.6) then 0.1
  else if flt (Fin 0.06) diff && fle diff (Fin 0.2) then 0.05
  else if flt (Fin 0.03) diff && fle diff (Fin 0.06) then 0.02
  else if fle diff (Fin 0.03) then 0.01
  else 0.2.

(** Line 316 on finite bounds:
    [np.arange(dot_max, dot_min, step * -1)[::-1]]. *)
Definition fracs_legends (dot_min dot_max : Q) : list Q :=
  rev (arange dot_max dot_min
         (legend_step (fsub (Fin dot_max) (Fin dot_min)) * (-1))).

(** ["{:.0%}".format(x)]: [100 * x] in fixed notation without decimals,
    ties to even, followed by the percent sign. *)
Definition round_half_even (x : Q) : Z :=
  let f := Qfloor x in
  match Qcompare (x - inject_Z f) (1 # 2) with
  | Lt => f
  | Gt => (f + 1)%Z
  | Eq => if Z.even f then f else (f + 1)%Z
  end.

Definition percent (x : Q) : string :=
  ((if Qltb x 0 then "-" else EmptyString)
   ++ NilZero.string_of_uint (N.to_uint (Z.to_N (round_half_even (Qabs (x * 100)))))
   ++ "%")%string.

(** Lines 327-328: [labels[-1] = ">=" + labels[-1]]. *)
Definition mark_last (labels : list string) : result (list string) :=
  match rev labels with
  | [] => Raise IndexError
  | l :: before => Ok (rev ((">=" ++ l)%string :: before))
  end.

Record legend : Type := {
  lg_fracs : list Q;           (* fracs_legends *)
  lg_size : list fnum;         (* size: the [s] of the legend's scatter *)
  lg_pos : list nat;           (* range(len(size)): dot and tick positions *)
  lg_labels : list string;     (* the variable [labels] *)
  lg_ticklabels : list string  (* the argument of set_x/yticklabels *)
}.

(** Lines 303-349.  [labels] is built and its last entry marked, but the
    tick labels handed to the axis are formatted afresh from
    [fracs_legends] (lines 334 and 344); [np.arange] refuses bounds that
    are not finite. *)
Definition build_legend (dot_min dot_max : fnum) : result legend :=
  match dot_min, dot_max with
  | Fin lo, Fin hi =>
      let fl := fracs_legends lo hi in
      let fracs_values :=
        if rescaling dot_min dot_max
        then map (fun x => fdiv (fsub (Fin x) dot_min) (old_range dot_min dot_max)) fl
        else map Fin fl in
      let size := map dot_size fracs_values in
      let labels := map percent fl in
      labels' <- (if flt dot_max (Fin 1) then mark_last labels else Ok labels) ;;
      Ok {| lg_fracs := fl;
            lg_size := size;
            lg_pos := seq 0 (List.length size);
            lg_labels := labels';
            lg_ticklabels := map percent fl |}
  | _, _ => Raise ValueError
  end.

(** ** [dotplot2] *)

(** The arguments, from the point where [df] has been assembled
    (line 202): [categories] is [grouping], the ordered categories of the
    group column. *)
Record args : Type := {
  keys : list string;
  categories : list string;
  df : frame;
  min_group_size : Z;
  min_presence : Z;
  mean_only_expressed : bool;
  second_key_dependent_fraction : bool;
  dot_min : option Q;
  dot_max : option Q;
  swap_axis : bool;
  legend_location : legend_loc;
  ax : option handle;
  save : bool
}.

Inductive returned : Type :=
| Main                       (* the axis that was drawn on *)
| FigSize (w h : Q).         (* [(fig_width, fig_height)] *)

Record plot : Type := {
  p_stats : stats;                 (* after lines 226-227 *)
  p_n_group : nat;
  p_dot_min : fnum;                (* after lines 229-238 *)
  p_dot_max : fnum;
  p_figsize : Q * Q;               (* rcParams['figure.figsize'] *)
  p_panels : panels;
  p_grid : grid fnum fnum;
  p_legend : option legend;
  p_return : returned
}.

Definition dotplot2 (a : args) : result plot :=
  if second_key_dependent_fraction a && negb (Nat.eqb (List.length (keys a)) 2)
  then Raise ValueError
  else
    let df' := filter_min_group_size (categories a) (df a) (min_group_size a) in
    let ng := n_group (categories a) df' in
    let st := aggregate (categories a) (keys a) df'
                (mean_only_expressed a) (second_key_dependent_fraction a) in
    let frac' := zero_absent (min_presence a) (exp_cnt st) (frac st) in
    let avg' := zero_absent (min_presence a) (exp_cnt st) (avg st) in
    hi <- resolve_dot_max (dot_max a) frac' ;;
    lo <- resolve_dot_min (dot_min a) ;;
    let scaled := map (map (scale_frac lo hi)) frac' in
    let dot_sizes := map dot_size (flatten_T NaN (n_key st) scaled) in
    let dot_colors := flatten_T NaN (n_key st) avg' in
    let loc := effective_legend_loc (ax a) (legend_location a) in
    let w := fig_width (n_key st) ng (swap_axis a) loc in
    let h := fig_height (n_key st) ng (swap_axis a) loc in
    pn <- make_panels (n_key st) ng (swap_axis a) loc (ax a) ;;
    let g := draw_grid (swap_axis a) (n_key st) ng (keys a) (group_label st)
               dot_colors dot_sizes in
    lg <- (match loc with
           | LegendRight | LegendBottom => l <- build_legend lo hi ;; Ok (Some l)
           | LegendNone => Ok None
           end) ;;
    (* line 359: [fig] is bound only by a call of plt.subplots *)
    if save a && negb (creates_figure pn) then Raise NameError
    else
      Ok {| p_stats := {| exp_cnt := exp_cnt st; frac := frac'; avg := avg';
                          group_label := group_label st; n_key := n_key st |};
            p_n_group := ng;
            p_dot_min := lo;
            p_dot_max := hi;
            p_figsize := (w, h);
            p_panels := pn;
            p_grid := g;
            p_legend := lg;
            p_return := match ax a with
                        | Some _ => FigSize w h
                        | None => Main
                        end |}.

(** ** [plot_embedding] (lines 516-587) *)

Module Embedding.

(** A Python dict as its items in insertion order; a later item for a
    key replaces an earlier one. *)
Definition dict : Type := list (string * string).

Fixpoint dict_get (d : dict) (k : string) : option string :=
  match d with
  | [] => None
  | (k', v) :: d' =>
      match dict_get d' k with
      | Some v' => Some v'
      | None => if String.eqb k k' then Some v else None
      end
  end.

(** [cat.rename_categories(d, inplace=True)]: a category that is a key
    of [d] gets its value, the others stay. *)
Definition rename_categories (d : dict) (cats : list string) : list string :=
  map (fun c => match dict_get d c with Some c' => c' | None => c end) cats.

(** The part of [adata] that [plot_embedding] reads and writes: the
    column [adata.obs[groupby]], a categorical given by its ordered
    category labels and the category index of every observation. *)
Record adata : Type := {
  has_basis : bool;            (* f'X_{basis}' in adata.obsm.keys() *)
  has_groupby : bool;          (* groupby in adata.obs.columns *)
  is_category : bool;          (* dtype.name == 'category' *)
  cat_labels : list string;    (* adata.obs[groupby].cat.categories *)
  codes : list nat
}.

Definition set_labels (ad : adata) (l : list string) : adata :=
  {| has_basis := has_basis ad; has_groupby := has_groupby ad;
     is_category := is_category ad; cat_labels := l; codes := codes ad |}.

Inductive annot_t : Type :=
| AnnotOff       (* None, False or 'none' *)
| AnnotFull      (* 'full' *)
| AnnotOther.    (* any other value *)

Definition annot_on (a : annot_t) : bool :=
  match a with AnnotOff => false | _ => true end.

Record args : Type := {
  annot : annot_t;
  highlight : bool;            (* highlight is truthy *)
  components : bool;           (* 'components' in kwargs *)
  figsize_valid : bool;        (* set_figsize accepts figsize *)
  save : bool
}.

(** Which of the calls into the plotting libraries raise. *)
Record externals : Type := {
  view_rename_raises : bool;   (* line 557 *)
  subplots_raises : bool;      (* line 563 *)
  plot_scatter_raises : bool;  (* line 565 *)
  highlight_raises : bool;     (* lines 568-577 *)
  annotate_raises : bool;      (* lines 582-585 *)
  savefig_raises : bool        (* line 587 *)
}.

Definition str_nat (n : nat) : string :=
  NilEmpty.string_of_uint (Nat.to_uint n).

(** [(adata.obs[groupby] == ct).sum()] for the category of index [i]. *)
Definition count_of (ad : adata) (i : nat) : nat :=
  List.length (filter (Nat.eqb i) (codes ad)).

(** [f'{i}: {ct} (n={...})']. *)
Definition display_label (ad : adata) (i : nat) (ct : string) : string :=
  (str_nat i ++ ": " ++ ct ++ " (n=" ++ str_nat (count_of ad i) ++ ")")%string.

Definition enumerate {A} (l : list A) : list (nat * A) :=
  combine (seq 0 (List.length l)) l.

(** Lines 530-531. *)
Definition rename_dict (ad : adata) : dict :=
  map (fun '(i, ct) => (ct, display_label ad i ct)) (enumerate (cat_labels ad)).

Definition restore_dict (ad : adata) : dict :=
  map (fun '(i, ct) => (display_label ad i ct, ct)) (enumerate (cat_labels ad)).

(** The body of the [try] block (lines 565-577). *)
Definition try_body (env : externals) (a : args) : result unit :=
  if plot_scatter_raises env then Raise LibraryError
  else if highlight a && highlight_raises env then Raise LibraryError
  else Ok tt.

(** The state of [adata] when the call ends, and how it ends. *)
Definition plot_embedding (env : externals) (a : args) (ad : adata)
  : adata * result unit :=
  if negb (figsize_valid a) then (ad, Raise ValueError)
  else if negb (has_basis ad) then (ad, Raise KeyError)
  else if negb (has_groupby ad) then (ad, Raise KeyError)
  else if negb (is_category ad) then (ad, Raise ValueError)
  else
    let rename := rename_dict ad in
    let restore := restore_dict ad in
    if components a then (ad, Raise NameError)
    else
      (* lines 554-557 *)
      let ad1 :=
        if annot_on (annot a)
        then set_labels ad (rename_categories rename (cat_labels ad))
        else ad in
      if annot_on (annot a) && highlight a && view_rename_raises env
      then (ad1, Raise LibraryError)
      (* line 563 *)
      else if subplots_raises env then (ad1, Raise LibraryError)
      else
        (* lines 564-580 *)
        let r := try_body env a in
        let ad2 :=
          if annot_on (annot a)
          then set_labels ad1 (rename_categories restore (cat_labels ad1))
          else ad1 in
        match r with
        | Raise e => (ad2, Raise e)
        | Ok _ =>
            if match annot a with AnnotFull => annotate_raises env | _ => false end
            then (ad2, Raise LibraryError)
            else if save a && savefig_raises env then (ad2, Raise LibraryError)
            else (ad2, Ok tt)
        end.

(** A string without a colon, as every decimal numeral is. *)
Fixpoint no_colon (s : string) : Prop :=
  match s with
  | EmptyString => True
  | String c s' => c <> ":"%char /\ no_colon s'
  end.

(** The call renames the categories: control reaches line 555. *)
Definition renames (a : args) (ad : adata) : bool :=
  figsize_valid a && has_basis ad && has_groupby ad && is_category ad
  && negb (components a) && annot_on (annot a).

End Embedding.

(** ** Reading a drawn grid *)

(** The dot that stands for the cell of group [i] and key [j] of the
    group-major arrays [colors] and [sizes]. *)
Definition cell_dot {C S} (dc : C) (ds : S) (colors : list (list C))
  (sizes : list (list S)) (x y i j : nat) : dot C S :=
  {| d_x := x; d_y := y;
     d_color := nth j (nth i colors []) dc;
     d_s := nth j (nth i sizes []) ds |}.

(** Transposition of a dot, and transposition followed by the reversal
    of the group axis of [n_group] positions. *)
Definition transposed {C S} (d : dot C S) : dot C S :=
  {| d_x := d_y d; d_y := d_x d; d_color := d_color d; d_s := d_s d |}.

Definition mirrored {C S} (n_group : nat) (d : dot C S) : dot C S :=
  {| d_x := d_y d; d_y := n_group - 1 - d_x d; d_color := d_color d; d_s := d_s d |}.

(** Two groups of one observation each and one key, which is positive in
    group A only. *)
Definition swap_example (swap : bool) : args :=
  {| keys := ["k"%string];
     categories := ["A"%string; "B"%string];
     df := [ {| group := "A"; vals := [1] |}; {| group := "B"; vals := [0] |} ];
     min_group_size := 0;
     min_presence := 0;
     mean_only_expressed := false;
     second_key_dependent_fraction := false;
     dot_min := None;
     dot_max := Some 1;
     swap_axis := swap;
     legend_location := LegendNone;
     ax := None;
     save := false |}.

(** Position of a dot, and whether it has the full size 100. *)
Definition dot_view (d : dot fnum fnum) : nat * nat * bool :=
  (d_x d, d_y d, feqb (d_s d) (Fin 100)).

(** Three groups of 50, 3 and 100 observations, two keys, and
    [min_group_size = 10]. *)
Definition size_example : args :=
  {| keys := ["k1"%string; "k2"%string];
     categories := ["g50"%string; "g3"%string; "g100"%string];
     df := List.repeat {| group := "g50"; vals := [1; 0] |} 50
           ++ List.repeat {| group := "g3"; vals := [1; 1] |} 3
           ++ List.repeat {| group := "g100"; vals := [0; 2] |} 100;
     min_group_size := 10;
     min_presence := 0;
     mean_only_expressed := false;
     second_key_dependent_fraction := false;
     dot_min := None;
     dot_max := Some 1;
     swap_axis := false;
     legend_location := LegendRight;
     ax := None;
     save := false |}.

(** ** The statistics in the words of the specification *)

(** Number of observations of a group in which both features are
    positive. *)
Definition count_both (g : frame) : nat :=
  List.length
    (filter (fun r => pos (nth 0 (vals r) 0) && pos (nth 1 (vals r) 0)) g).

(** Mean of a feature over all observations of a group, and over the
    observations in which it is positive (0 when the result is not a
    number), as functions of the values of that feature alone. *)
Definition mean_all (col : list Q) : fnum :=
  fdiv (Fin (Qsum col)) (of_nat (List.length col)).

Definition mean_expressed (col : list Q) : fnum :=
  fillna0 (fdiv (Fin (Qsum col)) (of_nat (count_pos col))).

(** One group of ten observations, four of which have both keys
    positive; joint-fraction mode. *)
Definition joint_example : args :=
  {| keys := ["k1"%string; "k2"%string];
     categories := ["A"%string];
     df := List.repeat {| group := "A"; vals := [1; 2] |} 4
           ++ List.repeat {| group := "A"; vals := [3; 0] |} 3
           ++ List.repeat {| group := "A"; vals := [0; 5] |} 3;
     min_group_size := 0;
     min_presence := 0;
     mean_only_expressed := false;
     second_key_dependent_fraction := true;
     dot_min := None;
     dot_max := Some 1;
     swap_axis := false;
     legend_location := LegendNone;
     ax := None;
     save := false |}.

(** Fractions clipped at [dot_max = 0.5], legend on the right. *)
Definition clip_example : args :=
  {| keys := ["k"%string];
     categories := ["A"%string; "B"%string];
     df := [ {| group := "A"; vals := [1] |}; {| group := "B"; vals := [0] |} ];
     min_group_size := 0;
     min_presence := 0;
     mean_only_expressed := false;
     second_key_dependent_fraction := false;
     dot_min := None;
     dot_max := Some 0.5;
     swap_axis := false;
     legend_location := LegendRight;
     ax := None;
     save := false |}.

(** The same plot drawn on an axis of the caller. *)
Definition embedded_example : args :=
  {| keys := ["k"%string];
     categories := ["A"%string; "B"%string];
     df := [ {| group := "A"; vals := [1] |}; {| group := "B"; vals := [0] |} ];
     min_group_size := 0;
     min_presence := 0;
     mean_only_expressed := false;
     second_key_dependent_fraction := false;
     dot_min := None;
     dot_max := Some 0.5;
     swap_axis := false;
     legend_location := LegendRight;
     ax := Some 7%nat;
     save := false |}.

(** Equal bounds [dot_min = dot_max = 0.5], and bounds left unset on
    data whose fractions are all 0. *)
Definition equal_bounds_example (loc : legend_loc) : args :=
  {| keys := ["k"%string];
     categories := ["A"%string; "B"%string];
     df := [ {| group := "A"; vals := [1] |}; {| group := "B"; vals := [0] |} ];
     min_group_size := 0;
     min_presence := 0;
     mean_only_expressed := false;
     second_key_dependent_fraction := false;
     dot_min := Some 0.5;
     dot_max := Some 0.5;
     swap_axis := false;
     legend_location := loc;
     ax := None;
     save := false |}.

Definition all_zero_example (loc : legend_loc) : args :=
  {| keys := ["k"%string];
     categories := ["A"%string; "B"%string];
     df := [ {| group := "A"; vals := [0] |}; {| group := "B"; vals := [0] |} ];
     min_group_size := 0;
     min_presence := 0;
     mean_only_expressed := false;
     second_key_dependent_fraction := false;
     dot_min := None;
     dot_max := None;
     swap_axis := false;
     legend_location := loc;
     ax := None;
     save := false |}.

(** ** A run of [plot_embedding] in which the figure cannot be created *)

Definition embedding_adata : Embedding.adata :=
  {| Embedding.has_basis := true;
     Embedding.has_groupby := true;
     Embedding.is_category := true;
     Embedding.cat_labels := ["A"%string; "B"%string];
     Embedding.codes := [0; 0; 1]%nat |}.

Definition embedding_args : Embedding.args :=
  {| Embedding.annot := Embedding.AnnotFull;
     Embedding.highlight := false;
     Embedding.components := false;
     Embedding.figsize_valid := true;
     Embedding.save := false |}.

Definition subplots_fails : Embedding.externals :=
  {| Embedding.view_rename_raises := false;
     Embedding.subplots_raises := true;
     Embedding.plot_scatter_raises := false;
     Embedding.highlight_raises := false;
     Embedding.annotate_raises := false;
     Embedding.savefig_raises := false |}.

Definition scatter_fails : Embedding.externals :=
  {| Embedding.view_rename_raises := false;
     Embedding.subplots_raises := false;
     Embedding.plot_scatter_raises := true;
     Embedding.highlight_raises := false;
     Embedding.annotate_raises := false;
     Embedding.savefig_raises := false |}.

(** ** Reading the statistics and the legend *)

(** A fraction that is a number of the unit interval. *)
Definition in_unit (f : fnum) : Prop :=
  exists q, f = Fin q /\ 0 <= q <= 1.

(** A fraction of the unit interval, or [nan]. *)
Definition unit_or_nan (f : fnum) : Prop :=
  f = NaN \/ in_unit f.

(** Lines 226-227 on one cell. *)
Definition zero_if (min_presence : Z) (cnt : nat) (v : fnum) : fnum :=
  if (Z.of_nat cnt <? min_presence)%Z then Fin 0 else v.

(** The rows that reach the aggregation. *)
Definition kept_rows (a : args) (c : string) : frame :=
  rows_of (filter_min_group_size (categories a) (df a) (min_group_size a)) c.

(** The aggregated statistics of a call, before lines 226-227. *)
Definition aggregated (a : args) : stats :=
  aggregate (categories a) (keys a)
    (filter_min_group_size (categories a) (df a) (min_group_size a))
    (mean_only_expressed a) (second_key_dependent_fraction a).

(** Consecutive elements differ by [step]. *)
Fixpoint evenly_spaced (step : Q) (l : list Q) : Prop :=
  match l with
  | a :: (b :: _) as l' => b == a + step /\ evenly_spaced step l'
  | _ => True
  end.

(** The dot that [dotplot2] draws for the category of index [i] and the
    key of index [j]: its position in the grid, the mean that gives its
    colour and the size computed from its fraction. *)
Definition drawn_cell (swap : bool) (p : plot) (i j : nat) : dot fnum fnum :=
  {| d_x := if swap then j else i;
     d_y := if swap then (p_n_group p - 1 - i)%nat else j;
     d_color := nth j (nth i (avg (p_stats p)) []) NaN;
     d_s := dot_size (scale_frac (p_dot_min p) (p_dot_max p)
                        (nth j (nth i (frac (p_stats p)) []) NaN)) |}.


(** [dot_max] above 1. *)
Definition bad_bounds_example : args :=
  {| keys := ["k"%string];
     categories := ["A"%string];
     df := [ {| group := "A"; vals := [1] |} ];
     min_group_size := 0;
     min_presence := 0;
     mean_only_expressed := false;
     second_key_dependent_fraction := false;
     dot_min := None;
     dot_max := Some 1.5;
     swap_axis := false;
     legend_location := LegendRight;
     ax := None;
     save := false |}.

(** A cell below [min_presence = 2]. *)
Definition presence_example : args :=
  {| keys := ["k"%string];
     categories := ["A"%string; "B"%string];
     df := [ {| group := "A"; vals := [1] |}; {| group := "B"; vals := [0] |} ];
     min_group_size := 0;
     min_presence := 2;
     mean_only_expressed := false;
     second_key_dependent_fraction := false;
     dot_min := None;
     dot_max := Some 1;
     swap_axis := false;
     legend_location := LegendNone;
     ax := None;
     save := false |}.

(** Both bounds unset and category B without any row. *)
Definition empty_group_example (loc : legend_loc) : args :=
  {| keys := ["k"%string];
     categories := ["A"%string; "B"%string];
     df := [ {| group := "A"; vals := [1] |} ];
     min_group_size := 0;
     min_presence := 0;
     mean_only_expressed := false;
     second_key_dependent_fraction := false;
     dot_min := None;
     dot_max := None;
     swap_axis := false;
     legend_location := loc;
     ax := None;
     save := false |}.

(** ** [make_palette] (lines 30-45) *)

Module Palette.

(** The three default palettes, which come from matplotlib and scanpy
    (lines 16-18). *)
Record defaults : Type := {
  sc_default_10 : list string;
  sc_default_26 : list string;
  sc_default_64 : list string
}.


(** The slice [l[0:stop]]: a negative [stop] counts from the end. *)
Definition slice_to {A} (l : list A) (stop : Z) : list A :=
  if (stop <? 0)%Z
  then firstn (Z.to_nat (Z.of_nat (List.length l) + stop)) l
  else firstn (Z.to_nat stop) l.

(** [range(n)]. *)
Definition range (n : Z) : list nat := seq 0 (Z.to_nat n).

(** [hex_of j] stands for [to_hex(color_map(j))] of the colour map that
    [cmap] names. *)
Definition make_palette (d : defaults) (hex_of : string -> nat -> string)
  (n : Z) (cmap : option string) (hide_last : bool) : list string :=
  let i := if hide_last then 1%Z else 0%Z in
  let palette :=
    match cmap with
    | None =>
        if (n <=? 10 + i)%Z then slice_to (sc_default_10 d) (n - i)
        else if (n <=? 26 + i)%Z then slice_to (sc_default_26 d) (n - i)
        else if (n <=? 64 + i)%Z then slice_to (sc_default_64 d) (n - i)
        else List.repeat "grey"%string (Z.to_nat n)
    | Some c => map (hex_of c) (range (n - i))
    end in
  if hide_last then palette ++ ["#E9E9E9"%string] else palette.

End Palette.

(** ** [clear_colors] (lines 48-57) *)

Module Colors.

(** [s.endswith(suffix)]. *)
Fixpoint endswith (s suffix : string) : bool :=
  String.eqb s suffix
  || match s with
     | EmptyString => false
     | String _ s' => endswith s' suffix
     end.

(** [s.replace(old, new)] for a non-empty [old]: the occurrences of
    [old] are replaced from left to right, without overlap.  [skip]
    counts the characters of an occurrence that are still to be passed. *)
Fixpoint replace_from (old new : string) (skip : nat) (s : string) : string :=
  match s with
  | EmptyString => EmptyString
  | String c s' =>
      match skip with
      | S k => replace_from old new k s'
      | O =>
          if prefix old s
          then (new ++ replace_from old new (String.length old - 1) s')%string
          else String c (replace_from old new 0 s')
      end
  end.

Definition replace (old new s : string) : string := replace_from old new 0 s.

(** [ad.uns] as its items in order; the keys of a dict are distinct. *)
Definition uns_t (V : Type) : Type := list (string * V).

Definition has_key {V} (uns : uns_t V) (k : string) : bool :=
  existsb (fun kv => String.eqb (fst kv) k) uns.

Definition del_key {V} (uns : uns_t V) (k : string) : uns_t V :=
  filter (fun kv => negb (String.eqb (fst kv) k)) uns.

(** The argument [slots]. *)
Inductive slots_t : Type :=
| SlotsNone
| SlotsStr (s : string)
| SlotsSeq (l : list string)        (* a list or a tuple *)
| SlotsOther (l : list string).     (* another iterable of strings *)

Definition colors_key (s : string) : string := (s ++ "_colors")%string.

(** Line 49. *)
Definition color_slots {V} (uns : uns_t V) : list string :=
  filter (fun k => endswith k "_colors") (map fst uns).

(** Lines 56-57: [del ad.uns[...]] slot by slot; a missing key raises
    KeyError and leaves the earlier deletions done. *)
Fixpoint del_slots {V} (uns : uns_t V) (slots : list string)
  : uns_t V * result unit :=
  match slots with
  | [] => (uns, Ok tt)
  | s :: rest =>
      if has_key uns (colors_key s)
      then del_slots (del_key uns (colors_key s)) rest
      else (uns, Raise KeyError)
  end.

(** Lines 50-55: what [slots] is when the loop starts. *)
Definition resolve_slots {V} (uns : uns_t V) (slots : slots_t) : list string :=
  let cs := color_slots uns in
  let slots1 :=
    match slots with
    | SlotsStr s => SlotsSeq [s]
    | SlotsNone => SlotsSeq (map (replace "_colors" EmptyString) cs)
    | other => other
    end in
  match slots1 with
  | SlotsSeq l => filter (fun s => isin (colors_key s) cs) l
  | SlotsOther l => l
  | SlotsStr s => [s]
  | SlotsNone => []
  end.

Definition clear_colors {V} (uns : uns_t V) (slots : slots_t)
  : uns_t V * result unit :=
  del_slots uns (resolve_slots uns slots).

(** ['_colors'] does not occur in [stem ++ "_colors"] before its end. *)
Fixpoint no_early (stem : string) : bool :=
  match stem with
  | EmptyString => true
  | String _ s' => negb (prefix "_colors" (colors_key stem)) && no_early s'
  end.

(** ['_colors'] occurs in [key] at its end and nowhere before. *)
Definition colors_only_at_end (key : string) : Prop :=
  exists stem, key = colors_key stem /\ no_early stem = true.

(** The items of [uns] without the keys of the slots [l]. *)
Definition without_slots {V} (uns : uns_t V) (l : list string) : uns_t V :=
  filter (fun kv => negb (isin (fst kv) (map colors_key l))) uns.

End Colors.

(** ** [highlight] (lines 590-617) *)

Module Highlight.

Import Colors.

(** Which frame [adata.obs] is: the one of the caller, or the one built
    for the plot. *)
Inductive obs_t : Type :=
| ObsOfCaller
| ObsForPlot.

Record state : Type := { obs : obs_t; uns : uns_t (list string) }.

(** The argument [groups]. *)
Inductive groups_t : Type :=
| GroupsSeq (l : list string)                        (* a list or a tuple *)
| GroupsDict (items : list (string * list string))   (* name -> list of groups *)
| GroupsOther.

Record externals : Type := {
  figsize_valid : bool;                     (* set_figsize accepts figsize *)
  get_dummies_raises : bool;                (* line 594 *)
  plot_scatter_raises : bool;               (* lines 598, 614 *)
  plot_scatter_uns : uns_t (list string) -> uns_t (list string)
                                            (* what plot_scatter leaves in uns *)
}.

(** [adata.uns[k] = v]. *)
Fixpoint set_key {V} (uns : uns_t V) (k : string) (v : V) : uns_t V :=
  match uns with
  | [] => [(k, v)]
  | (k', v') :: rest =>
      if String.eqb k' k then (k, v) :: rest else (k', v') :: set_key rest k v
  end.

(** Lines 605-606: the column of a group list, cell by cell. *)
Definition relabel (cells grp : list string) : list string :=
  map (fun v => if isin v grp then v else "others"%string) cells.

Fixpoint distinct (l : list string) : bool :=
  match l with
  | [] => true
  | x :: l' => negb (isin x l') && distinct l'
  end.

(** Line 607: [astype('category').cat.reorder_categories(grp + ['others'])]
    accepts the new categories when they are distinct and are exactly
    the values of the column (which are all among them). *)
Definition reorder_ok (cells grp : list string) : bool :=
  distinct (grp ++ ["others"%string])
  && forallb (fun g => isin g (relabel cells grp)) (grp ++ ["others"%string]).

(** Lines 604-608: the loop over the items of the dict. *)
Fixpoint prepare (d : Palette.defaults) (hex_of : string -> nat -> string)
  (palette : option string) (cells : list string)
  (items : list (string * list string)) (uns : uns_t (list string))
  : uns_t (list string) * result unit :=
  match items with
  | [] => (uns, Ok tt)
  | (grp_name, grp) :: rest =>
      if reorder_ok cells grp
      then prepare d hex_of palette cells rest
             (set_key uns (colors_key grp_name)
                (Palette.make_palette d hex_of
                   (Z.of_nat (List.length grp) + 1) palette true))
      else (uns, Raise ValueError)
  end.

(** The [try ... finally] of lines 596-601 and 610-617: [adata.obs] holds
    the frame for the plot while [plot_scatter] runs; the [finally]
    clause puts the caller's frame back and clears the colours, and an
    exception of [clear_colors] replaces the one of [plot_scatter]. *)
Definition plot_and_restore (env : externals) (old_obs : obs_t)
  (u : uns_t (list string)) : state * result unit :=
  let st1 := {| obs := ObsForPlot; uns := u |} in
  let st2 := {| obs := obs st1; uns := plot_scatter_uns env (uns st1) |} in
  let body := if plot_scatter_raises env then Raise LibraryError else Ok tt in
  let (u3, cleared) := clear_colors (uns st2) SlotsNone in
  ({| obs := old_obs; uns := u3 |},
   match cleared with
   | Raise e => Raise e
   | Ok _ => body
   end).

Definition highlight (d : Palette.defaults) (hex_of : string -> nat -> string)
  (env : externals) (palette : option string) (cells : list string)
  (groups : groups_t) (st : state) : state * result unit :=
  if negb (figsize_valid env) then (st, Raise ValueError)
  else
    match groups with
    | GroupsSeq _ =>
        if get_dummies_raises env then (st, Raise KeyError)
        else plot_and_restore env (obs st) (uns st)
    | GroupsDict items =>
        match prepare d hex_of palette cells items (uns st) with
        | (u, Raise e) => ({| obs := obs st; uns := u |}, Raise e)
        | (u, Ok _) => plot_and_restore env (obs st) u
        end
    | GroupsOther => (st, Ok tt)
    end.

(** Line 608 for one item of the dict. *)
Definition store_palette (d : Palette.defaults) (hex_of : string -> nat -> string)
  (palette : option string) (u : uns_t (list string))
  (item : string * list string) : uns_t (list string) :=
  set_key u (colors_key (fst item))
    (Palette.make_palette d hex_of (Z.of_nat (List.length (snd item)) + 1)
       palette true).

(** The items of [uns] that are not colour slots. *)
Definition other_slots {V} (u : uns_t V) : uns_t V :=
  filter (fun kv => negb (endswith (fst kv) "_colors")) u.

End Highlight.

Definition palette_defaults_example : Palette.defaults :=
  {| Palette.sc_default_10 := List.repeat "#1f77b4"%string 10;
     Palette.sc_default_26 := List.repeat "#023fa5"%string 26;
     Palette.sc_default_64 := List.repeat "#FFFF00"%string 64 |}.

(** [plot_scatter] stores the colours of the group ['a'] and returns. *)
Definition highlight_env_example : Highlight.externals :=
  {| Highlight.figsize_valid := true;
     Highlight.get_dummies_raises := false;
     Highlight.plot_scatter_raises := false;
     Highlight.plot_scatter_uns := fun u =>
       Highlight.set_key u "a_colors"%string ["lightgrey"%string; "red"%string] |}.

Definition highlight_state_example : Highlight.state :=
  {| Highlight.obs := Highlight.ObsOfCaller;
     Highlight.uns := [("leiden_colors"%string, ["#000000"%string]);
                       ("neighbors"%string, [])] |}.

(** ** [plot_metric_by_rank] (lines 387-513) *)

Module Rank.

Import Colors.

(** The columns of [adata.obs] and of [adata.var]. *)
Definition columns : Type := uns_t (list fnum).

(** [adata]: the matrix [X] has one row per cell and one column per
    gene; a column of [obs] has one value per cell and a column of [var]
    one value per gene. *)
Record adata : Type := {
  X : list (list Q);
  var_names : list string;
  obs : columns;
  var : columns
}.

Definition n_obs (a : adata) : nat := List.length (X a).
Definition n_vars (a : adata) : nat := List.length (var_names a).

(** [frame[name]]. *)
Fixpoint get_col (c : columns) (name : string) : result (list fnum) :=
  match c with
  | [] => Raise KeyError
  | (k, v) :: rest => if String.eqb k name then Ok v else get_col rest name
  end.

Definition set_obs (a : adata) (name : string) (v : list fnum) : adata :=
  {| X := X a; var_names := var_names a;
     obs := Highlight.set_key (obs a) name v; var := var a |}.

Definition set_var (a : adata) (name : string) (v : list fnum) : adata :=
  {| X := X a; var_names := var_names a;
     obs := obs a; var := Highlight.set_key (var a) name v |}.

Inductive kind_t : Type :=
| KindRank
| KindHist
| KindOther.

(** The argument [order]: [True], [False], or an array of indices. *)
Inductive order_t : Type :=
| OrderTrue
| OrderFalse
| OrderIdx (k : list Z).

(** The value of [kwargs['c']]. *)
Inductive color_t : Type :=
| ColorNone
| ColorStr (s : string)
| ColorArr (cs : list string).     (* an array with one colour per point *)

Record args : Type := {
  subject : string;
  metric : string;
  kind : kind_t;
  order : order_t;
  decreasing : bool;
  ax : bool;                   (* an axes object is given *)
  title : option string;
  hpos : option fnum;
  vpos : option fnum;
  logx : bool;
  logy : bool;
  swap_axis : bool;
  c : option color_t;          (* [None]: no ['c'] in [kwargs] *)
  marker : option string;      (* [None]: no ['marker'] in [kwargs] *)
  label : bool                 (* ['label'] is in [kwargs] *)
}.

(** NumPy and Matplotlib functions whose result is not computed here. *)
Record externals : Type := {
  argsort : list fnum -> list nat;
  (* lines 487-491 and 493-497: [(h[0], h[1])] of the histogram of the
     positive values on logarithmic bins *)
  hist : list fnum -> result (list fnum * list fnum)
}.

(** What [np.argsort] returns: the indices of the array, each once, in
    an order that makes the values ascend; [nan] sorts last. *)
Definition np_le (a b : fnum) : bool :=
  match a, b with
  | _, NaN => true
  | NaN, _ => false
  | _, _ => fle a b
  end.

Fixpoint ascending (l : list fnum) : bool :=
  match l with
  | [] => true
  | a :: rest =>
      match rest with
      | [] => true
      | b :: _ => np_le a b && ascending rest
      end
  end.

Definition is_argsort (keys : list fnum) (k : list nat) : bool :=
  (List.length k =? List.length keys)%nat
  && forallb (fun i => existsb (Nat.eqb i) k) (seq 0 (List.length keys))
  && ascending (map (fun i => nth i keys NaN) k).

(** [arr[i]] for an integer [i]: a negative index counts from the end. *)
Definition index1 {A} (arr : list A) (i : Z) : result A :=
  let n := Z.of_nat (List.length arr) in
  let j := if (i <? 0)%Z then (i + n)%Z else i in
  if ((0 <=? j) && (j <? n))%Z
  then match nth_error arr (Z.to_nat j) with
       | Some x => Ok x
       | None => Raise IndexError
       end
  else Raise IndexError.

(** [arr[k]] for an array of indices [k]. *)
Fixpoint index_array {A} (arr : list A) (k : list Z) : result (list A) :=
  match k with
  | [] => Ok []
  | i :: rest =>
      x <- index1 arr i ;;
      xs <- index_array arr rest ;;
      Ok (x :: xs)
  end.

(** [arr.min()], [arr.max()]: an empty array raises, a [nan] spreads. *)
Definition amin (l : list fnum) : result fnum :=
  match l with
  | [] => Raise ValueError
  | a :: rest => Ok (fold_left minimum rest a)
  end.

Definition amax (l : list fnum) : result fnum :=
  match l with
  | [] => Raise ValueError
  | a :: rest => Ok (fold_left maximum rest a)
  end.

(** Line 406. *)
Definition metric_names (m : string) : option string :=
  if String.eqb m "n_counts" then Some "nUMI"%string
  else if String.eqb m "n_genes" then Some "nGene"%string
  else if String.eqb m "n_cells" then Some "nCell"%string
  else if String.eqb m "mt_prop" then Some "fracMT"%string
  else None.

(** Lines 415-422. *)
Definition truthy (v : fnum) : bool := fneb v (Fin 0).

Definition k_mt (a : adata) : result (list bool) :=
  if has_key (var a) "mito"
  then col <- get_col (var a) "mito" ;; Ok (map truthy col)
  else Ok (map (prefix "MT-") (var_names a)).

Definition masked_sum (mask : list bool) (row : list Q) : Q :=
  Qsum (map snd (filter fst (combine mask row))).

Definition add_mt_prop (ar : args) (a : adata) : result adata :=
  if String.eqb (metric ar) "mt_prop" && negb (has_key (obs a) "mt_prop")
  then
    mask <- k_mt a ;;
    if existsb (fun b => b) mask
    then
      n_counts <- get_col (obs a) "n_counts" ;;
      Ok (set_obs a "mt_prop"
            (map (fun p => fmul (fdiv (Fin (fst p)) (snd p)) (Fin 100))
               (combine (map (masked_sum mask) (X a)) n_counts)))
    else Ok a
  else Ok a.

Definition is_cell (ar : args) : bool := String.eqb (subject ar) "cell".

(** Lines 431-436 and 450-453: a missing column is computed from [X]. *)
Definition col_sums (a : adata) : list fnum :=
  map (fun j => Fin (Qsum (map (fun row => nth j row 0) (X a))))
      (seq 0 (n_vars a)).

Definition add_metric (ar : args) (a : adata) : adata :=
  if is_cell ar
  then
    if has_key (obs a) (metric ar) then a
    else if String.eqb (metric ar) "n_counts"
    then set_obs a "n_counts" (map (fun row => Fin (Qsum row)) (X a))
    else if String.eqb (metric ar) "n_genes"
    then set_obs a "n_genes" (map (fun row => of_nat (count_pos row)) (X a))
    else a
  else
    if has_key (var a) (metric ar) then a
    else if String.eqb (metric ar) "n_counts"
    then set_var a "n_counts" (col_sums a)
    else a.

Definition frame_of (ar : args) (a : adata) : columns :=
  if is_cell ar then obs a else var a.

Definition size_of (ar : args) (a : adata) : nat :=
  if is_cell ar then n_obs a else n_vars a.

(** [1 + np.arange(n)]. *)
Definition ranks (n : nat) : list fnum := map of_nat (seq 1 n).

Definition order_modifier (ar : args) : fnum :=
  if decreasing ar then Fin (-1) else Fin 1.

(** The indices [k] of lines 440-441 (and 446, 458, 464) when they are
    bound. *)
Definition resolve_order (env : externals) (ar : args) (values : list fnum)
  : option (list Z) :=
  match order ar with
  | OrderFalse => None
  | OrderTrue =>
      Some (map Z.of_nat (argsort env (map (fmul (order_modifier ar)) values)))
  | OrderIdx k => Some k
  end.

(** What is drawn on the axes. *)
Inductive artist : Type :=
| Line (x y : list fnum) (fmt : string) (col : color_t)   (* [ax.plot] *)
| Scatter (x y : list fnum) (cols : list string)          (* [ax.scatter] *)
| Hist (counts edges : list fnum).                        (* [ax.hist] *)

Record drawing : Type := {
  d_new_axes : bool;                       (* [plt.subplots()] was called *)
  d_artist : option artist;
  d_hline : option (fnum * fnum * fnum);   (* position, xmin, xmax *)
  d_vline : option (fnum * fnum * fnum);   (* position, ymin, ymax *)
  d_xlog : bool;
  d_ylog : bool;
  d_xlabel : option string;
  d_ylabel : option string;
  d_title : option string;
  d_legend : option string
}.

Definition c_of (ar : args) : color_t :=
  match c ar with
  | Some v => v
  | None => ColorStr "black"
  end.

Definition same_length {A B} (x : list A) (y : list B) : bool :=
  (List.length x =? List.length y)%nat.

(** Lines 430-469: the rank plot; [x] and [y] come back with the artist. *)
Definition draw_rank (env : externals) (ar : args) (a : adata)
  : result (artist * list fnum * list fnum) :=
  values <- get_col (frame_of ar a) (metric ar) ;;
  let k := resolve_order env ar values in
  sorted <- match k with
            | None => Ok values
            | Some k => index_array values k
            end ;;
  let x := if swap_axis ar then ranks (size_of ar a) else sorted in
  let y := if swap_axis ar then sorted else ranks (size_of ar a) in
  match c_of ar with
  | ColorArr cs =>
      match k with
      | None => Raise NameError
      | Some k =>
          kwargs_c <- index_array cs k ;;
          if same_length x y && same_length kwargs_c x
          then Ok (Scatter x y kwargs_c, x, y)
          else Raise ValueError
      end
  | col =>
      if same_length x y
      then Ok (Line x y (match marker ar with Some m => m | None => "-"%string end)
                 col, x, y)
      else Raise ValueError
  end.

(** Lines 486-498. *)
Definition draw_hist (env : externals) (ar : args) (a : adata)
  : result (artist * list fnum * list fnum) :=
  value <- get_col (frame_of ar a) (metric ar) ;;
  h <- hist env value ;;
  Ok (Hist (fst h) (snd h), snd h, fst h).

(** Lines 500-513. *)
Definition finish (ar : args) (name : string)
  (drawn : option (artist * list fnum * list fnum)) : result (option drawing) :=
  hl <- match hpos ar with
        | None => Ok None
        | Some h =>
            match drawn with
            | None => Raise NameError
            | Some (_, x, _) =>
                lo <- amin x ;; hi <- amax x ;; Ok (Some (h, lo, hi))
            end
        end ;;
  vl <- match vpos ar with
        | None => Ok None
        | Some v =>
            match drawn with
            | None => Raise NameError
            | Some (_, _, y) =>
                lo <- amin y ;; hi <- amax y ;; Ok (Some (v, lo, hi))
            end
        end ;;
  Ok (Some {|
    d_new_axes := negb (ax ar);
    d_artist := option_map (fun d => fst (fst d)) drawn;
    d_hline := hl;
    d_vline := vl;
    d_xlog := logx ar;
    d_ylog := match kind ar with KindRank => logy ar | _ => false end;
    d_xlabel :=
      if swap_axis ar
      then match kind ar with KindRank => Some "Rank"%string | _ => None end
      else Some name;
    d_ylabel :=
      if swap_axis ar then Some name
      else match kind ar with
           | KindRank => Some "Rank"%string
           | KindHist => Some "Count"%string
           | KindOther => None
           end;
    d_title := match title ar with
               | Some EmptyString => None
               | t => t
               end;
    d_legend := if label ar
                then Some (if decreasing ar then "upper right" else "upper left")%string
                else None
  |}).

(** The result is [None] where the function returns without a value, and
    the axes otherwise; [adata] comes back as the call leaves it. *)
Definition plot_metric_by_rank (env : externals) (ar : args) (a : adata)
  : adata * result (option drawing) :=
  if negb (isin (subject ar) ["cell"; "gene"]%string) then (a, Ok None)
  else
    match metric_names (metric ar) with
    | None => (a, Ok None)
    | Some name =>
        match add_mt_prop ar a with
        | Raise e => (a, Raise e)
        | Ok a1 =>
            match kind ar with
            | KindRank =>
                let a2 := add_metric ar a1 in
                (a2, drawn <- draw_rank env ar a2 ;; finish ar name (Some drawn))
            | KindHist =>
                (a1, drawn <- draw_hist env ar a1 ;; finish ar name (Some drawn))
            | KindOther => (a1, finish ar name None)
            end
        end
    end.

(** The values of the metric and the ranks, as an artist holds them. *)
Definition metric_axis (swap : bool) (art : artist) : list fnum :=
  match art with
  | Line x y _ _ | Scatter x y _ => if swap then y else x
  | Hist _ _ => []
  end.

Definition rank_axis (swap : bool) (art : artist) : list fnum :=
  match art with
  | Line x y _ _ | Scatter x y _ => if swap then x else y
  | Hist _ _ => []
  end.

Definition colors_of (art : artist) : list string :=
  match art with
  | Scatter _ _ cols => cols
  | _ => []
  end.

(** The order of the values that the modifier turns into ascending keys. *)
Definition ordered (decr : bool) (a b : Q) : Prop :=
  if decr then b <= a else a <= b.

(** The artist of the rank plot for the indices [k]. *)
Definition rank_artist (ar : args) (n : nat) (qs : list Q) (k : list nat) : artist :=
  let sorted := map Fin (map (fun i => nth i qs 0) k) in
  let x := if swap_axis ar then ranks n else sorted in
  let y := if swap_axis ar then sorted else ranks n in
  match c_of ar with
  | ColorArr cs => Scatter x y (map (fun i => nth i cs EmptyString) k)
  | col => Line x y (match marker ar with Some m => m | None => "-"%string end) col
  end.

End Rank.

(** A stable sort of the indices by insertion, for the examples. *)
Fixpoint insert_index (keys : list fnum) (i : nat) (l : list nat) : list nat :=
  match l with
  | [] => [i]
  | j :: rest =>
      if Rank.np_le (nth i keys NaN) (nth j keys NaN)
      then i :: l
      else j :: insert_index keys i rest
  end.

Definition rank_env_example : Rank.externals :=
  {| Rank.argsort := fun keys =>
       fold_right (insert_index keys) [] (seq 0 (List.length keys));
     Rank.hist := fun _ => Raise LibraryError |}.

(** Three cells and two genes. *)
Definition rank_adata_example (obs : Rank.columns) : Rank.adata :=
  {| Rank.X := [[1; 0]; [0; 5]; [2; 2]];
     Rank.var_names := ["A"; "B"]%string;
     Rank.obs := obs;
     Rank.var := [] |}.

Definition rank_args_example (metric : string) (kind : Rank.kind_t)
  (order : Rank.order_t) (c : option Rank.color_t) : Rank.args :=
  {| Rank.subject := "cell"; Rank.metric := metric; Rank.kind := kind;
     Rank.order := order; Rank.decreasing := true; Rank.ax := false;
     Rank.title := None; Rank.hpos := Some (Fin 2); Rank.vpos := None;
     Rank.logx := true; Rank.logy := true; Rank.swap_axis := false;
     Rank.c := c; Rank.marker := None; Rank.label := false |}.

(** * Properties *)

(** ** Facts about the numbers *)

Lemma Qltb_true (a b : Q) : Qltb a b = true <-> a < b.
Proof.
  unfold Qltb. rewrite negb_true_iff.
  split; intro H.
  - apply Qnot_le_lt. intro L. apply Qle_bool_iff in L. congruence.
  - destruct (Qle_bool b a) eqn:E; auto.
    apply Qle_bool_iff in E. exfalso. eapply Qlt_not_le; eauto.
Qed.

Lemma Qltb_false (a b : Q) : Qltb a b = false <-> b <= a.
Proof.
  unfold Qltb. rewrite negb_false_iff. apply Qle_bool_iff.
Qed.

Lemma Qle_bool_false (a b : Q) : Qle_bool a b = false <-> b < a.
Proof.
  rewrite <- Qltb_true. unfold Qltb. rewrite negb_true_iff. tauto.
Qed.

Lemma legend_step_pos (diff : fnum) : 0 < legend_step diff.
Proof.
  unfold legend_step.
  repeat match goal with |- context [if ?c then _ else _] => destruct c end;
    reflexivity.
Qed.

Lemma Qceiling_pos (x : Q) : 0 < x -> (1 <= Qceiling x)%Z.
Proof.
  intro H.
  assert (L : 0 < inject_Z (Qceiling x)).
  { eapply Qlt_le_trans; [exact H | apply Qle_ceiling]. }
  assert ((0 < Qceiling x)%Z) by (rewrite Zlt_Qlt; exact L).
  lia.
Qed.

Lemma arange_descending (start stop step : Q) :
  step < 0 -> stop < start ->
  exists n,
    arange start stop step
    = (start + inject_Z 0 * step)
        :: map (fun i : nat => start + inject_Z (Z.of_nat i) * step) (seq 1 n).
Proof.
  intros Hs Hlt. unfold arange.
  assert (P : 0 < (stop - start) / step).
  { setoid_replace ((stop - start) / step) with ((start - stop) / (- step)).
    - apply Qlt_shift_div_l; lra.
    - field. lra. }
  apply Qceiling_pos in P.
  destruct (Z.to_nat (Qceiling ((stop - start) / step))) as [|n] eqn:E; [lia|].
  exists n. reflexivity.
Qed.

Lemma arange_tail_below (start step : Q) (n : nat) :
  step < 0 ->
  Forall (fun t => t < start)
    (map (fun i : nat => start + inject_Z (Z.of_nat i) * step) (seq 1 n)).
Proof.
  intro Hs. apply Forall_forall. intros t Ht.
  apply in_map_iff in Ht. destruct Ht as [i [<- Hi]].
  apply in_seq in Hi.
  assert (1 <= inject_Z (Z.of_nat i)).
  { change 1 with (inject_Z 1). rewrite <- Zle_Qle. lia. }
  nra.
Qed.

Lemma Forall_rev {A} (P : A -> Prop) (l : list A) :
  Forall P l -> Forall P (rev l).
Proof.
  intro H. apply Forall_forall. intros x Hx.
  apply in_rev in Hx. rewrite Forall_forall in H. auto.
Qed.

(** C1.  For [0 <= dot_min < dot_max <= 1] the legend is built, its
    ticks end with a tick equal to [dot_max], and every tick before the
    last one is strictly below [dot_max]: [dot_max] is a tick and the
    largest one, whether or not [dot_max - dot_min] is a multiple of the
    step. *)
Theorem legend_ticks_end_with_dot_max (dot_min dot_max : Q) :
  0 <= dot_min -> dot_min < dot_max -> dot_max <= 1 ->
  exists lg before top,
    build_legend (Fin dot_min) (Fin dot_max) = Ok lg /\
    lg_fracs lg = fracs_legends dot_min dot_max /\
    lg_fracs lg = before ++ [top] /\
    top == dot_max /\
    Forall (fun t => t < dot_max) before /\
    Forall (fun t => t <= dot_max) (lg_fracs lg).
Proof.
  intros H0 Hlt H1.
  pose proof (legend_step_pos (fsub (Fin dot_max) (Fin dot_min))) as Hstep.
  set (step := legend_step (fsub (Fin dot_max) (Fin dot_min))) in *.
  assert (Hneg : step * (-1) < 0) by lra.
  destruct (arange_descending dot_max dot_min (step * (-1)) Hneg Hlt) as [n Hn].
  pose proof (arange_tail_below dot_max (step * (-1)) n Hneg) as Htail.
  set (tl := map (fun i : nat => dot_max + inject_Z (Z.of_nat i) * (step * (-1)))
                 (seq 1 n)) in *.
  assert (Hfl : fracs_legends dot_min dot_max
                = rev tl ++ [dot_max + inject_Z 0 * (step * (-1))]).
  { unfold fracs_legends. fold step. rewrite Hn. reflexivity. }
  assert (Hlab : exists ls, 
     (if flt (Fin dot_max) (Fin 1)
      then mark_last (map percent (fracs_legends dot_min dot_max))
      else Ok (map percent (fracs_legends dot_min dot_max))) = Ok ls).
  { destruct (flt (Fin dot_max) (Fin 1)); [|eauto].
    unfold mark_last. rewrite Hfl, map_app, rev_app_distr. simpl. eauto. }
  destruct Hlab as [ls Hls].
  eexists. exists (rev tl), (dot_max + inject_Z 0 * (step * (-1))).
  split.
  { unfold build_legend. rewrite Hls. simpl. reflexivity. }
  simpl. repeat split.
  - exact Hfl.
  - change (inject_Z 0) with 0. ring.
  - apply Forall_rev. exact Htail.
  - rewrite Hfl. apply Forall_app. split.
    + apply Forall_rev. eapply Forall_impl; [|exact Htail].
      intros; simpl in *; lra.
    + constructor; [|constructor]. change (inject_Z 0) with 0. lra.
Qed.

Lemma legend_ticks_end_with_dot_max_witness :
  exists lg before top,
    build_legend (Fin 0.1) (Fin 0.55) = Ok lg /\
    lg_fracs lg = fracs_legends 0.1 0.55 /\
    lg_fracs lg = before ++ [top] /\
    top == 0.55 /\
    Forall (fun t => t < 0.55) before /\
    Forall (fun t => t <= 0.55) (lg_fracs lg).
Proof.
  apply (legend_ticks_end_with_dot_max 0.1 0.55); [lra | lra | lra].
Defined.

Ltac qbool :=
  repeat match goal with
    | H : Qltb _ _ = true |- _ => apply Qltb_true in H
    | H : Qltb _ _ = false |- _ => apply Qltb_false in H
    | H : Qle_bool _ _ = true |- _ => apply Qle_bool_iff in H
    | H : Qle_bool _ _ = false |- _ => apply Qle_bool_false in H
    | H : Qeq_bool _ _ = true |- _ => apply Qeq_bool_iff in H
    | H : Qeq_bool _ _ = false |- _ => apply Qeq_bool_neq in H
    end.

Lemma fsub_Fin (a b : Q) : fsub (Fin a) (Fin b) = Fin (a + - b).
Proof. reflexivity. Qed.



(** ** Clipping and rescaling *)

Lemma clip_Fin (f lo hi : Q) :
  exists c, clip (Fin f) (Fin lo) (Fin hi) = Fin c /\ c == Qmin (Qmax f lo) hi.
Proof.
  unfold clip, maximum, minimum, fle.
  destruct (Qle_bool f lo) eqn:A.
  - destruct (Qle_bool lo hi) eqn:B; qbool; eexists; split; try reflexivity.
    + rewrite (Q.max_r f lo A), (Q.min_l lo hi B). reflexivity.
    + rewrite (Q.max_r f lo A), Q.min_r by lra. reflexivity.
  - destruct (Qle_bool f hi) eqn:B; qbool; eexists; split; try reflexivity.
    + rewrite Q.max_l by lra. rewrite Q.min_l by lra. reflexivity.
    + rewrite Q.max_l by lra. rewrite Q.min_r by lra. reflexivity.
Qed.

Lemma rescaling_false (lo hi : Q) :
  rescaling (Fin lo) (Fin hi) = false <-> lo == 0 /\ hi == 1.
Proof.
  unfold rescaling, fneb, feqb. rewrite orb_false_iff, !negb_false_iff.
  rewrite !Qeq_bool_iff. tauto.
Qed.

Lemma rescaling_true (lo hi : Q) :
  rescaling (Fin lo) (Fin hi) = true <-> ~ (lo == 0 /\ hi == 1).
Proof.
  rewrite <- rescaling_false. destruct (rescaling (Fin lo) (Fin hi)); split; congruence.
Qed.

Lemma clipped_in_range (f lo hi : Q) :
  lo <= hi -> lo <= Qmin (Qmax f lo) hi <= hi.
Proof.
  intro H. split.
  - apply Q.min_glb; [apply Q.le_max_r | exact H].
  - apply Q.le_min_r.
Qed.

Lemma dot_size_Fin (r : Q) : dot_size (Fin r) = Fin (r * 10 * (r * 10)).
Proof. reflexivity. Qed.

(** C5.  Unless [(dot_min, dot_max)] is [(0, 1)], a fraction is clipped
    to [[dot_min, dot_max]] and the clipped value rescaled to
    [(clipped - dot_min) / (dot_max - dot_min)]; for [(0, 1)] it is left
    as it is.  The size of a dot is the square of ten times the rescaled
    fraction: it is never negative, and at most 100 when the rescaled
    fraction lies in [[0, 1]], which it does whenever
    [dot_min < dot_max]. *)
Theorem dot_size_of_fraction (dot_min dot_max f : Q) :
  let clipped := Qmin (Qmax f dot_min) dot_max in
  (rescaling (Fin dot_min) (Fin dot_max) = true <-> ~ (dot_min == 0 /\ dot_max == 1)) /\
  (~ (dot_min == 0 /\ dot_max == 1) ->
     scale_frac (Fin dot_min) (Fin dot_max) (Fin f)
     = fdiv (fsub (clip (Fin f) (Fin dot_min) (Fin dot_max)) (Fin dot_min))
            (fsub (Fin dot_max) (Fin dot_min))) /\
  (~ (dot_min == 0 /\ dot_max == 1) -> ~ dot_min == dot_max ->
     exists r,
       scale_frac (Fin dot_min) (Fin dot_max) (Fin f) = Fin r /\
       r == (clipped - dot_min) / (dot_max - dot_min)) /\
  (dot_min == 0 /\ dot_max == 1 ->
     scale_frac (Fin dot_min) (Fin dot_max) (Fin f) = Fin f) /\
  (dot_min < dot_max ->
     dot_min <= clipped <= dot_max /\
     0 <= (clipped - dot_min) / (dot_max - dot_min) <= 1) /\
  (forall r : Q,
     exists s,
       dot_size (Fin r) = Fin s /\ s == (r * 10) ^ 2 /\ 0 <= s /\
       (0 <= r <= 1 -> s <= 100)).
Proof.
  cbv zeta. split; [apply rescaling_true|].
  split.
  { intro H. apply rescaling_true in H. unfold scale_frac, old_range.
    rewrite H. reflexivity. }
  split.
  { intros H Hne. apply rescaling_true in H. unfold scale_frac, old_range.
    rewrite H.
    destruct (clip_Fin f dot_min dot_max) as [c [-> Hc]].
    rewrite !fsub_Fin. unfold fdiv.
    destruct (Qeq_bool (dot_max + - dot_min) 0) eqn:E; qbool.
    - exfalso. apply Hne. lra.
    - eexists. split; [reflexivity|]. rewrite <- Hc. field.
      intro Z. apply E. lra. }
  split.
  { intro H. apply rescaling_false in H. unfold scale_frac. rewrite H. reflexivity. }
  split.
  { intro Hlt.
    pose proof (clipped_in_range f dot_min dot_max (Qlt_le_weak _ _ Hlt)) as [A B].
    split; [split; assumption|].
    set (c := Qmin (Qmax f dot_min) dot_max) in *.
    split.
    - apply Qle_shift_div_l; lra.
    - apply Qle_shift_div_r; lra. }
  intro r. exists (r * 10 * (r * 10)).
  split; [apply dot_size_Fin|].
  split; [simpl; ring|].
  split; [nra|]. intros [A B]. nra.
Qed.

Lemma dot_size_of_fraction_witness :
  exists r,
    scale_frac (Fin 0.2) (Fin 0.7) (Fin 0.9) = Fin r /\
    r == (Qmin (Qmax 0.9 0.2) 0.7 - 0.2) / (0.7 - 0.2).
Proof.
  apply (proj1 (proj2 (proj2 (dot_size_of_fraction 0.2 0.7 0.9)))).
  - intros [A _]. discriminate A.
  - intro A. discriminate A.
Defined.

(** ** The dot grid *)

Section Grid.

Context {C S : Type}.

Lemma zip_dots_app (xs1 xs2 ys1 ys2 : list nat) (cs1 cs2 : list C) (ss1 ss2 : list S) :
  List.length ys1 = List.length xs1 ->
  List.length cs1 = List.length xs1 ->
  List.length ss1 = List.length xs1 ->
  zip_dots (xs1 ++ xs2) (ys1 ++ ys2) (cs1 ++ cs2) (ss1 ++ ss2)
  = zip_dots xs1 ys1 cs1 ss1 ++ zip_dots xs2 ys2 cs2 ss2.
Proof.
  revert ys1 cs1 ss1.
  induction xs1 as [|x xs1 IH]; intros [|y ys1] [|c cs1] [|s ss1]; simpl;
    intros; try discriminate; auto.
  f_equal. apply IH; lia.
Qed.

Lemma zip_dots_length (xs ys : list nat) (cs : list C) (ss : list S) :
  List.length ys = List.length xs ->
  List.length cs = List.length xs ->
  List.length ss = List.length xs ->
  List.length (zip_dots xs ys cs ss) = List.length xs.
Proof.
  revert ys cs ss.
  induction xs as [|x xs IH]; intros [|y ys] [|c cs] [|s ss]; simpl;
    intros; try discriminate; auto.
Qed.

Lemma zip_dots_rev (xs ys : list nat) (cs : list C) (ss : list S) :
  List.length ys = List.length xs ->
  List.length cs = List.length xs ->
  List.length ss = List.length xs ->
  zip_dots (rev xs) (rev ys) (rev cs) (rev ss) = rev (zip_dots xs ys cs ss).
Proof.
  revert ys cs ss.
  induction xs as [|x xs IH]; intros [|y ys] [|c cs] [|s ss]; simpl;
    intros; try discriminate; auto.
  rewrite zip_dots_app by (rewrite !length_rev; lia).
  rewrite IH by lia. reflexivity.
Qed.

Lemma zip_dots_mirrored (g : nat) (xs ys : list nat) (cs : list C) (ss : list S) :
  map (mirrored g) (zip_dots xs ys cs ss)
  = zip_dots ys (map (fun x => (g - 1 - x)%nat) xs) cs ss.
Proof.
  revert ys cs ss.
  induction xs as [|x xs IH]; intros [|y ys] [|c cs] [|s ss]; simpl; auto.
  unfold mirrored at 1. simpl. f_equal. apply IH.
Qed.

End Grid.

Lemma tile_length {A} (l : list A) (k : nat) :
  List.length (tile l k) = (k * List.length l)%nat.
Proof. induction k; simpl; auto. rewrite length_app, IHk. reflexivity. Qed.

Lemma repeat_length {A} (l : list A) (n : nat) :
  List.length (Np.repeat l n) = (List.length l * n)%nat.
Proof.
  unfold Np.repeat. induction l; simpl; auto.
  rewrite length_app, List.repeat_length, IHl. reflexivity.
Qed.

Lemma tile_snoc {A} (l : list A) (k : nat) : tile l (Datatypes.S k) = tile l k ++ l.
Proof.
  induction k; simpl in *.
  - rewrite app_nil_r. reflexivity.
  - rewrite IHk at 1. rewrite app_assoc. reflexivity.
Qed.

Lemma rev_tile {A} (l : list A) (k : nat) : rev (tile l k) = tile (rev l) k.
Proof.
  induction k.
  - reflexivity.
  - rewrite tile_snoc. simpl. rewrite rev_app_distr, IHk. reflexivity.
Qed.

Lemma map_tile {A B} (f : A -> B) (l : list A) (k : nat) :
  map f (tile l k) = tile (map f l) k.
Proof. induction k; simpl; auto. rewrite map_app, IHk. reflexivity. Qed.

Lemma rev_list_repeat {A} (a : A) (n : nat) : rev (List.repeat a n) = List.repeat a n.
Proof.
  induction n; simpl; auto.
  rewrite IHn. symmetry. apply repeat_cons.
Qed.

Lemma rev_repeat {A} (l : list A) (n : nat) :
  rev (Np.repeat l n) = Np.repeat (rev l) n.
Proof.
  unfold Np.repeat. induction l; simpl; auto.
  rewrite rev_app_distr, IHl, flat_map_app. simpl.
  rewrite app_nil_r, rev_list_repeat. reflexivity.
Qed.

Lemma mirror_rev_seq (g : nat) :
  map (fun x => (g - 1 - x)%nat) (rev (seq 0 g)) = seq 0 g.
Proof.
  apply nth_ext with (d := 0%nat) (d' := 0%nat).
  - rewrite length_map, length_rev. reflexivity.
  - intros n Hn. rewrite length_map, length_rev, length_seq in Hn.
    rewrite (nth_indep _ 0%nat ((fun x => (g - 1 - x)%nat) 0%nat))
      by (rewrite length_map, length_rev, length_seq; exact Hn).
    rewrite map_nth. rewrite rev_nth by (rewrite length_seq; exact Hn).
    rewrite length_seq. rewrite !seq_nth by lia. lia.
Qed.

(** Under [swap_axis] the drawn dots are those of the plain grid, each
    transposed and with the group axis reversed, in reverse order. *)
Lemma swap_axis_dots {C S} (n_key n_group : nat) (keys labels : list string)
  (dot_colors : list C) (dot_sizes : list S) :
  List.length dot_colors = (n_key * n_group)%nat ->
  List.length dot_sizes = (n_key * n_group)%nat ->
  dots (g_scatter (draw_grid true n_key n_group keys labels dot_colors dot_sizes))
  = rev (map (mirrored n_group)
           (dots (g_scatter
                    (draw_grid false n_key n_group keys labels dot_colors dot_sizes)))).
Proof.
  intros Hc Hs. unfold dots, draw_grid. simpl.
  rewrite zip_dots_mirrored.
  rewrite <- zip_dots_rev.
  - rewrite rev_repeat, <- map_rev, rev_tile, map_tile, mirror_rev_seq.
    reflexivity.
  - rewrite length_map, tile_length, repeat_length, !length_seq. reflexivity.
  - rewrite repeat_length, length_seq. lia.
  - rewrite repeat_length, length_seq. lia.
Qed.

Lemma map_nth_seq {A B} (f : A -> B) (d : A) (l : list A) :
  map f l = map (fun i => f (nth i l d)) (seq 0 (List.length l)).
Proof.
  induction l as [|a l IH]; simpl; auto.
  f_equal. rewrite <- seq_shift, map_map. exact IH.
Qed.

Lemma zip_dots_column {C S} (j : nat) (f : nat -> C) (h : nat -> S) (l : list nat) :
  zip_dots l (List.repeat j (List.length l)) (map f l) (map h l)
  = map (fun i => {| d_x := i; d_y := j; d_color := f i; d_s := h i |}) l.
Proof. induction l; simpl; auto. f_equal. exact IHl. Qed.

Lemma plain_grid_columns {C S} (dc : C) (ds : S) (n_group : nat)
  (colors : list (list C)) (sizes : list (list S)) (js : list nat) :
  List.length colors = n_group ->
  List.length sizes = n_group ->
  zip_dots (tile (seq 0 n_group) (List.length js))
           (flat_map (fun j => List.repeat j n_group) js)
           (flat_map (fun j => map (fun r => nth j r dc) colors) js)
           (flat_map (fun j => map (fun r => nth j r ds) sizes) js)
  = flat_map (fun j => map (fun i => cell_dot dc ds colors sizes i j i j)
                           (seq 0 n_group)) js.
Proof.
  intros Hc Hs.
  induction js as [|j js IH]; simpl; auto.
  rewrite zip_dots_app.
  - rewrite IH. f_equal.
    rewrite (map_nth_seq _ [] colors), (map_nth_seq _ [] sizes), Hc, Hs.
    replace (List.repeat j n_group)
      with (List.repeat j (List.length (seq 0 n_group)))
      by (rewrite length_seq; reflexivity).
    rewrite (zip_dots_column j
               (fun i => nth j (nth i colors []) dc)
               (fun i => nth j (nth i sizes []) ds)).
    reflexivity.
  - rewrite List.repeat_length, length_seq. reflexivity.
  - rewrite length_map, length_seq. exact Hc.
  - rewrite length_map, length_seq. exact Hs.
Qed.

(** Without [swap_axis] the dots are drawn key by key and, within a key,
    group by group: the cell of group [i] and key [j] at [x = i],
    [y = j]. *)
Lemma plain_grid_dots {C S} (dc : C) (ds : S) (n_key n_group : nat)
  (keys labels : list string) (colors : list (list C)) (sizes : list (list S)) :
  List.length colors = n_group ->
  List.length sizes = n_group ->
  dots (g_scatter (draw_grid false n_key n_group keys labels
                     (flatten_T dc n_key colors) (flatten_T ds n_key sizes)))
  = flat_map (fun j => map (fun i => cell_dot dc ds colors sizes i j i j)
                           (seq 0 n_group))
             (seq 0 n_key).
Proof.
  intros Hc Hs. unfold dots, draw_grid, flatten_T, Np.repeat. simpl.
  rewrite <- (plain_grid_columns dc ds n_group colors sizes (seq 0 n_key) Hc Hs).
  rewrite length_seq. reflexivity.
Qed.

Lemma flatten_T_length {A} (d : A) (k : nat) (a : list (list A)) :
  List.length (flatten_T d k a) = (k * List.length a)%nat.
Proof.
  unfold flatten_T.
  assert (G : forall js : list nat,
             List.length (flat_map (fun j => map (fun r => nth j r d) a) js)
             = (List.length js * List.length a)%nat).
  { induction js; simpl; auto. rewrite length_app, length_map, IHjs. reflexivity. }
  rewrite G, length_seq. reflexivity.
Qed.

(** C3, amended.  With [swap_axis] the grid is the transpose of the plain
    grid with the group axis reversed: the dot of group [i] and key [j],
    drawn at [(x, y) = (i, j)] without [swap_axis], is drawn at
    [(j, n_group - 1 - i)] with it, with the same colour and size; the
    key ticks move from the y to the x axis and the group ticks from the
    x to the y axis with their labels reversed. *)
Theorem swap_axis_mirrors_grid {C S} (dc : C) (ds : S) (n_key n_group : nat)
  (keys labels : list string) (colors : list (list C)) (sizes : list (list S)) :
  List.length colors = n_group ->
  List.length sizes = n_group ->
  let plain := draw_grid false n_key n_group keys labels
                 (flatten_T dc n_key colors) (flatten_T ds n_key sizes) in
  let swapped := draw_grid true n_key n_group keys labels
                   (flatten_T dc n_key colors) (flatten_T ds n_key sizes) in
  dots (g_scatter swapped) = rev (map (mirrored n_group) (dots (g_scatter plain))) /\
  (forall i j, (i < n_group)%nat -> (j < n_key)%nat ->
     In (cell_dot dc ds colors sizes i j i j) (dots (g_scatter plain)) /\
     In (cell_dot dc ds colors sizes j (n_group - 1 - i) i j)
        (dots (g_scatter swapped))) /\
  g_xticks swapped = g_yticks plain /\
  tk_pos (g_yticks swapped) = tk_pos (g_xticks plain) /\
  tk_labels (g_yticks swapped) = rev (tk_labels (g_xticks plain)).
Proof.
  intros Hc Hs plain swapped.
  assert (Hsw : dots (g_scatter swapped)
                = rev (map (mirrored n_group) (dots (g_scatter plain)))).
  { apply swap_axis_dots; rewrite flatten_T_length; congruence. }
  assert (Hpl : forall i j, (i < n_group)%nat -> (j < n_key)%nat ->
            In (cell_dot dc ds colors sizes i j i j) (dots (g_scatter plain))).
  { intros i j Hi Hj. unfold plain. rewrite plain_grid_dots by assumption.
    apply in_flat_map. exists j. split; [apply in_seq; lia|].
    apply in_map_iff. exists i. split; [reflexivity | apply in_seq; lia]. }
  split; [exact Hsw|]. split; [|repeat split].
  intros i j Hi Hj. split; [auto|].
  rewrite Hsw. apply in_rev. rewrite rev_involutive.
  apply in_map_iff. exists (cell_dot dc ds colors sizes i j i j).
  split; [reflexivity | auto].
Qed.

Lemma swap_axis_mirrors_grid_witness :
  In (cell_dot NaN NaN [[Fin 1]; [Fin 2]] [[Fin 0]; [Fin 100]] 0 1 0 0)
     (dots (g_scatter (draw_grid true 1 2 ["k"%string] ["A"%string; "B"%string]
                         (flatten_T NaN 1 [[Fin 1]; [Fin 2]])
                         (flatten_T NaN 1 [[Fin 0]; [Fin 100]])))).
Proof.
  apply (proj2 (proj1 (proj2
           (swap_axis_mirrors_grid NaN NaN 1 2 ["k"%string] ["A"%string; "B"%string]
              [[Fin 1]; [Fin 2]] [[Fin 0]; [Fin 100]] eq_refl eq_refl))
           0%nat 0%nat ltac:(lia) ltac:(lia))).
Defined.

(** C3 as stated fails: with two groups the dot of group A, at
    [(0, 0)] in the plain grid, is drawn at [(0, 1)] under [swap_axis],
    and the transposed position [(0, 0)] holds the dot of group B. *)
Lemma swap_axis_not_transpose :
  exists p0 p1,
    dotplot2 (swap_example false) = Ok p0 /\
    dotplot2 (swap_example true) = Ok p1 /\
    map dot_view (dots (g_scatter (p_grid p0)))
    = [(0, 0, true); (1, 0, false)]%nat /\
    map dot_view (dots (g_scatter (p_grid p1)))
    = [(0, 0, false); (0, 1, true)]%nat /\
    ~ (forall d, In d (dots (g_scatter (p_grid p0))) ->
                 In (transposed d) (dots (g_scatter (p_grid p1)))).
Proof.
  eexists. eexists.
  split; [vm_compute; reflexivity|].
  split; [vm_compute; reflexivity|].
  split; [vm_compute; reflexivity|].
  split; [vm_compute; reflexivity|].
  intro H.
  match type of H with
  | forall d, In d ?l -> _ => specialize (H (hd (transposed
        {| d_x := 0; d_y := 0; d_color := NaN; d_s := NaN |}) l))
  end.
  vm_compute in H.
  destruct H as [H | [H | []]]; [left; reflexivity | discriminate H | discriminate H].
Qed.

(** ** Groups below [min_group_size] *)

Lemma isin_In (s : string) (l : list string) : isin s l = true <-> In s l.
Proof.
  unfold isin. rewrite existsb_exists. split.
  - intros [x [Hx E]]. apply String.eqb_eq in E. subst. exact Hx.
  - intro H. exists s. split; [exact H | apply String.eqb_refl].
Qed.

Lemma big_groups_In (cats : list string) (df : frame) (m : Z) (c : string) :
  In c (big_groups cats df m)
  <-> In c cats /\ (m <= Z.of_nat (List.length (rows_of df c)))%Z.
Proof.
  unfold big_groups. rewrite filter_In, Z.leb_le. tauto.
Qed.

Lemma rows_of_filter (df : frame) (c : string) (keep : row -> bool) :
  rows_of (filter keep df) c
  = filter (fun r => String.eqb (group r) c && keep r) df.
Proof.
  unfold rows_of. induction df as [|r df IH]; simpl; auto.
  destruct (keep r) eqn:K; simpl.
  - rewrite IH, andb_true_r. reflexivity.
  - rewrite IH, andb_false_r. reflexivity.
Qed.

Lemma rows_of_kept (cats : list string) (df : frame) (m : Z) (c : string) :
  m <> 0%Z ->
  rows_of (filter_min_group_size cats df m) c
  = if isin c (big_groups cats df m) then rows_of df c else [].
Proof.
  intro Hm. unfold filter_min_group_size.
  destruct (Z.eqb_spec m 0); [contradiction|].
  rewrite rows_of_filter.
  generalize (big_groups cats df m) as big. intro big.
  destruct (isin c big) eqn:E.
  - unfold rows_of. apply filter_ext_in. intros r _.
    destruct (String.eqb_spec (group r) c) as [->|]; simpl; auto.
  - induction df as [|r df' IH]; simpl; auto.
    destruct (String.eqb_spec (group r) c) as [G|]; simpl; auto.
    rewrite G, E. exact IH.
Qed.

Ltac invert_dotplot2 H :=
  unfold dotplot2, bind in H;
  repeat match type of H with
    | (if ?c then _ else _) = _ => destruct c eqn:?; try discriminate H
    | match ?r with Ok _ => _ | Raise _ => _ end = _ =>
        destruct r eqn:?; try discriminate H
    end;
  injection H as H.

Lemma aggregate_labels (cats keys : list string) (df : frame) (b1 b2 : bool) :
  group_label (aggregate cats keys df b1 b2) = cats.
Proof. unfold aggregate. destruct b2; reflexivity. Qed.

Lemma aggregate_rows (cats keys : list string) (df : frame) (b1 b2 : bool) :
  List.length (frac (aggregate cats keys df b1 b2)) = List.length cats.
Proof. unfold aggregate. destruct b2; simpl; rewrite !length_map; reflexivity. Qed.

Lemma frac_cell_empty (j : nat) : frac_cell [] j = NaN.
Proof. reflexivity. Qed.

(** With a non-zero [min_group_size] the rows of every group that has
    fewer rows are removed and the rows of the other groups are kept as
    they were.  The group axis is not shortened: [n_group], the group
    labels and the group ticks still range over all categories, and the
    fractions of a group without rows are [nan]. *)
Lemma min_group_size_empties_groups (a : args) (p : plot) :
  min_group_size a <> 0%Z ->
  dotplot2 a = Ok p ->
  let df' := filter_min_group_size (categories a) (df a) (min_group_size a) in
  let size c := Z.of_nat (List.length (rows_of (df a) c)) in
  (forall c, In c (categories a) -> (size c < min_group_size a)%Z ->
             rows_of df' c = [] /\
             forall j, frac_cell (rows_of df' c) j = NaN) /\
  (forall c, In c (categories a) -> (min_group_size a <= size c)%Z ->
             rows_of df' c = rows_of (df a) c) /\
  p_n_group p = List.length (categories a) /\
  group_label (p_stats p) = categories a /\
  List.length (frac (p_stats p)) = List.length (categories a) /\
  (swap_axis a = false ->
     tk_pos (g_xticks (p_grid p)) = seq 0 (List.length (categories a)) /\
     tk_labels (g_xticks (p_grid p)) = categories a).
Proof.
  intros Hm H df' size.
  split.
  { intros c Hc Hlt. unfold df'. rewrite rows_of_kept by assumption.
    destruct (isin c _) eqn:E.
    - apply isin_In, big_groups_In in E. unfold size in Hlt. lia.
    - split; [reflexivity | intro j; reflexivity]. }
  split.
  { intros c Hc Hle. unfold df'. rewrite rows_of_kept by assumption.
    destruct (isin c _) eqn:E; [reflexivity|].
    exfalso. apply not_true_iff_false in E. apply E.
    apply isin_In, big_groups_In. split; assumption. }
  invert_dotplot2 H; subst p; simpl;
    rewrite ?aggregate_labels;
    (split; [reflexivity|]); (split; [reflexivity|]);
    (split; [unfold zero_absent; rewrite length_map, length_combine;
             rewrite aggregate_rows;
             unfold aggregate; destruct (second_key_dependent_fraction a);
             simpl; rewrite !length_map; apply Nat.min_id|]);
    intros ->; simpl; rewrite ?aggregate_labels; split; reflexivity.
Qed.

(** C2 fails on the code.  For groups of 50, 3 and 100 observations, two
    keys and [min_group_size = 10], the rows of the group of 3 are
    removed, but the group stays on the group axis: [n_group] is 3, the
    labels and ticks of the axis are those of all three groups, and the
    statistics have three rows, the middle one without a fraction
    ([nan]) -- not the two groups that the claim announces. *)
Theorem small_group_stays_on_axis :
  group_size (categories size_example) (df size_example) = [50; 3; 100]%Z /\
  group_size (categories size_example)
    (filter_min_group_size (categories size_example) (df size_example) 10)
  = [50; 0; 100]%Z /\
  exists q,
    dotplot2 size_example = Ok q /\
    p_n_group q = 3%nat /\
    p_n_group q <> 2%nat /\
    group_label (p_stats q) = ["g50"; "g3"; "g100"]%string /\
    g_xticks (p_grid q)
    = {| tk_pos := [0; 1; 2]%nat; tk_labels := ["g50"; "g3"; "g100"]%string |} /\
    List.length (frac (p_stats q)) = 3%nat /\
    nth 0 (exp_cnt (p_stats q)) [] = [50; 0]%nat /\
    nth 1 (frac (p_stats q)) [] = [NaN; NaN] /\
    nth 2 (exp_cnt (p_stats q)) [] = [0; 100]%nat.
Proof.
  split; [vm_compute; reflexivity|].
  split; [vm_compute; reflexivity|].
  eexists. split; [vm_compute; reflexivity|].
  simpl. repeat split. discriminate.
Qed.


(** ** Joint-fraction mode *)

Lemma joint_rows_both (g : frame) :
  Forall (fun r => List.length (vals r) = 2%nat) g ->
  exp_cnt_joint g = count_both g.
Proof.
  unfold exp_cnt_joint, joint_rows, count_both. intro H. f_equal.
  apply filter_ext_in. intros r Hr.
  rewrite Forall_forall in H. specialize (H r Hr).
  unfold row_npos, count_pos.
  destruct (vals r) as [|v0 [|v1 [|]]]; try discriminate H. simpl.
  destruct (pos v0), (pos v1); reflexivity.
Qed.

Lemma rows_of_Forall (P : row -> Prop) (df : frame) (c : string) :
  Forall P df -> Forall P (rows_of df c).
Proof.
  intro H. apply Forall_forall. intros r Hr.
  apply filter_In in Hr. rewrite Forall_forall in H. apply H. tauto.
Qed.

Lemma filter_min_group_size_Forall (P : row -> Prop) (cats : list string)
  (df : frame) (m : Z) :
  Forall P df -> Forall P (filter_min_group_size cats df m).
Proof.
  intro H. unfold filter_min_group_size. destruct (m =? 0)%Z; auto.
  apply Forall_forall. intros r Hr.
  apply filter_In in Hr. rewrite Forall_forall in H. apply H. tauto.
Qed.

Lemma avg0_cell_mean_all (g : frame) (j : nat) :
  avg0_cell g j = mean_all (column j g).
Proof. unfold avg0_cell, mean_all, column. rewrite length_map. reflexivity. Qed.

Lemma avg1_cell_mean_expressed (g : frame) (j : nat) :
  avg1_cell g j = mean_expressed (column j g).
Proof. reflexivity. Qed.

Lemma of_nat_div (n m : nat) :
  m <> 0%nat ->
  exists q, fdiv (of_nat n) (of_nat m) = Fin q /\ q == Qnat n / Qnat m.
Proof.
  intro Hm. unfold fdiv, of_nat.
  destruct (Qeq_bool (inject_Z (Z.of_nat m)) 0) eqn:E.
  - apply Qeq_bool_iff in E. exfalso.
    unfold Qeq in E. simpl in E. lia.
  - eexists. split; reflexivity.
Qed.

Lemma zero_absent_none (m : Z) (cnt : list (list nat)) (a : list (list fnum)) :
  (m <= 0)%Z ->
  Forall2 (fun cs vs => List.length cs = List.length vs) cnt a ->
  zero_absent m cnt a = a.
Proof.
  intros Hm H. unfold zero_absent.
  induction H as [|cs vs cnt a Hlen _ IH]; simpl; auto.
  rewrite IH. f_equal.
  clear IH. revert vs Hlen.
  induction cs as [|c cs IHc]; intros [|v vs] Hlen; simpl in *;
    try discriminate; auto.
  destruct (Z.ltb_spec (Z.of_nat c) m); [lia|].
  f_equal. apply IHc. lia.
Qed.

Lemma Forall2_map_same {A B C} (R : B -> C -> Prop) (f : A -> B) (h : A -> C)
  (l : list A) :
  (forall x, R (f x) (h x)) -> Forall2 R (map f l) (map h l).
Proof. intro H. induction l; simpl; constructor; auto. Qed.

(** C4.  In joint-fraction mode the statistics of every group are: as
    count, the number of its observations in which both features are
    positive; as fraction, that count divided by the size of the group;
    as mean, the mean over all observations or over the expressed ones
    (by [mean_only_expressed]) of the first feature alone.  [dotplot2]
    accepts the mode only with two keys and carries these statistics on
    (the fractions and means unchanged when [min_presence] is not
    positive).  A group of 10 observations, 4 of them with both features
    positive, has fraction 0.4. *)
Theorem joint_fraction_statistics (a : args) :
  second_key_dependent_fraction a = true ->
  Forall (fun r => List.length (vals r) = 2%nat) (df a) ->
  let df' := filter_min_group_size (categories a) (df a) (min_group_size a) in
  let st := aggregate (categories a) (keys a) df' (mean_only_expressed a) true in
  let mean := if mean_only_expressed a then mean_expressed else mean_all in
  n_key st = 1%nat /\
  exp_cnt st = map (fun c => [count_both (rows_of df' c)]) (categories a) /\
  frac st = map (fun c => [fdiv (of_nat (count_both (rows_of df' c)))
                                (of_nat (List.length (rows_of df' c)))])
                (categories a) /\
  (forall c, rows_of df' c <> [] ->
     exists q,
       fdiv (of_nat (count_both (rows_of df' c)))
            (of_nat (List.length (rows_of df' c))) = Fin q /\
       q == Qnat (count_both (rows_of df' c)) / Qnat (List.length (rows_of df' c))) /\
  avg st = map (fun c => [mean (column 0 (rows_of df' c))]) (categories a) /\
  (forall p, dotplot2 a = Ok p ->
     List.length (keys a) = 2%nat /\
     exp_cnt (p_stats p) = exp_cnt st /\
     ((min_presence a <= 0)%Z ->
        frac (p_stats p) = frac st /\ avg (p_stats p) = avg st)) /\
  (forall g, Forall (fun r => List.length (vals r) = 2%nat) g ->
     List.length g = 10%nat -> count_both g = 4%nat ->
     exists q, frac_joint g = Fin q /\ q == 0.4).
Proof.
  intros Hj Hw df' st mean.
  assert (Hw' : forall c, Forall (fun r => List.length (vals r) = 2%nat) (rows_of df' c)).
  { intro c. apply rows_of_Forall, filter_min_group_size_Forall, Hw. }
  split; [reflexivity|].
  split.
  { unfold st, aggregate. simpl. rewrite map_map. apply map_ext.
    intro c. rewrite joint_rows_both by apply Hw'. reflexivity. }
  split.
  { unfold st, aggregate. simpl. rewrite map_map. apply map_ext.
    intro c. unfold frac_joint. fold (exp_cnt_joint (rows_of df' c)).
    rewrite joint_rows_both by apply Hw'. reflexivity. }
  split.
  { intros c Hne. apply of_nat_div. destruct (rows_of df' c); [congruence | discriminate]. }
  split.
  { unfold st, aggregate, mean. simpl. rewrite map_map. apply map_ext.
    intro c. destruct (mean_only_expressed a).
    - rewrite avg1_cell_mean_expressed. reflexivity.
    - rewrite avg0_cell_mean_all. reflexivity. }
  split.
  { intros p H.
    assert (Hk : List.length (keys a) = 2%nat).
    { unfold dotplot2 in H. rewrite Hj in H. simpl in H.
      destruct (Nat.eqb_spec (List.length (keys a)) 2); [assumption | discriminate H]. }
    split; [exact Hk|].
    invert_dotplot2 H; subst p; simpl; rewrite Hj; fold df'; fold st;
      (split; [reflexivity|]); intro Hm;
      (split; apply zero_absent_none; try assumption;
       unfold st, aggregate; simpl; rewrite !map_map;
       apply Forall2_map_same; reflexivity). }
  intros g Hg Hlen Hcnt.
  unfold frac_joint. fold (exp_cnt_joint g).
  rewrite joint_rows_both, Hcnt, Hlen by assumption.
  eexists. split; reflexivity.
Qed.

Lemma joint_fraction_statistics_witness :
  exists q,
    frac_joint (rows_of (df joint_example) "A") = Fin q /\ q == 0.4.
Proof.
  apply (proj2 (proj2 (proj2 (proj2 (proj2 (proj2
           (joint_fraction_statistics joint_example eq_refl
              ltac:(vm_compute; repeat constructor)))))))).
  - vm_compute; repeat constructor.
  - reflexivity.
  - reflexivity.
Defined.

(** ** The labels of the legend *)

Lemma percent_plain (x : Q) : prefix ">=" (percent x) = false.
Proof.
  unfold percent.
  destruct (Qltb x 0); [reflexivity|].
  destruct (N.to_uint (Z.to_N (round_half_even (Qabs (x * 100)))));
    reflexivity.
Qed.

Lemma build_legend_labels (lo hi : fnum) (lg : legend) :
  build_legend lo hi = Ok lg ->
  lg_ticklabels lg = map percent (lg_fracs lg) /\
  (flt hi (Fin 1) = true ->
     exists before top,
       lg_ticklabels lg = before ++ [top] /\
       lg_labels lg = before ++ [(">=" ++ top)%string]) /\
  (flt hi (Fin 1) = false -> lg_labels lg = lg_ticklabels lg).
Proof.
  unfold build_legend.
  destruct lo as [lo| | |], hi as [hi| | |]; try discriminate.
  unfold bind.
  destruct (flt (Fin hi) (Fin 1)) eqn:E.
  - unfold mark_last.
    destruct (rev (map percent (fracs_legends lo hi))) as [|l before] eqn:R;
      [discriminate|].
    intro H. injection H as <-. simpl.
    split; [reflexivity|]. split; [|discriminate].
    intros _. exists (rev before), l. split; [|reflexivity].
    rewrite <- (rev_involutive (map percent (fracs_legends lo hi))), R.
    reflexivity.
  - intro H. injection H as <-. simpl.
    split; [reflexivity|]. split; [discriminate | reflexivity].
Qed.

Lemma dotplot2_legend (a : args) (p : plot) (lg : legend) :
  dotplot2 a = Ok p -> p_legend p = Some lg ->
  build_legend (p_dot_min p) (p_dot_max p) = Ok lg /\
  ax a = None /\ legend_location a <> LegendNone.
Proof.
  intros H L. unfold dotplot2, bind in H.
  destruct (_ && _); [discriminate|].
  destruct (resolve_dot_max _ _) as [hi|]; [|discriminate].
  destruct (resolve_dot_min _) as [lo|]; [|discriminate].
  destruct (make_panels _ _ _ _ _) as [pn|]; [|discriminate].
  destruct (ax a) as [h|] eqn:A, (legend_location a) eqn:LL; simpl in H.
  all: try (destruct (build_legend lo hi) as [l|] eqn:B; [|discriminate]).
  all: destruct (save a && negb (creates_figure pn)); try discriminate.
  all: injection H as <-; simpl in *; try discriminate L.
  all: injection L as <-; repeat split; auto; discriminate.
Qed.

(** C7, amended.  When a legend is drawn, the tick labels handed to the
    legend axis are the plain percentages of all ticks, the top one
    included, and none of them starts with [">="]; the label list whose
    last entry is prefixed with [">="] when [dot_max < 1] is built but
    is not the one rendered. *)
Theorem legend_ticklabels_plain (a : args) (p : plot) (lg : legend) :
  dotplot2 a = Ok p ->
  p_legend p = Some lg ->
  lg_ticklabels lg = map percent (lg_fracs lg) /\
  Forall (fun l => prefix ">=" l = false) (lg_ticklabels lg) /\
  (flt (p_dot_max p) (Fin 1) = true ->
     exists before top,
       lg_ticklabels lg = before ++ [top] /\
       lg_labels lg = before ++ [(">=" ++ top)%string]) /\
  (flt (p_dot_max p) (Fin 1) = false -> lg_labels lg = lg_ticklabels lg).
Proof.
  intros H L.
  destruct (dotplot2_legend a p lg H L) as [B _].
  destruct (build_legend_labels _ _ _ B) as (T & M & N).
  split; [exact T|]. split; [|split; assumption].
  rewrite T. apply Forall_forall. intros l Hl.
  apply in_map_iff in Hl. destruct Hl as [x [<- _]]. apply percent_plain.
Qed.

Lemma legend_ticklabels_plain_witness :
  exists lg,
    build_legend (Fin 0) (Fin 0.5) = Ok lg /\
    Forall (fun l => prefix ">=" l = false) (lg_ticklabels lg).
Proof.
  assert (E : exists p, dotplot2 clip_example = Ok p)
    by (eexists; vm_compute; reflexivity).
  destruct E as [p E].
  assert (L : exists lg, p_legend p = Some lg /\
                         build_legend (Fin 0) (Fin 0.5) = Ok lg).
  { vm_compute in E. injection E as <-. eexists. split; [reflexivity|].
    vm_compute. reflexivity. }
  destruct L as [lg [L B]].
  exists lg. split; [exact B|].
  exact (proj1 (proj2 (legend_ticklabels_plain clip_example p lg E L))).
Defined.

(** C7 as stated fails: with [dot_max = 0.5] and the legend on the right
    the label rendered for the top tick is ["50%"], without [">="]; the
    marked label [">=50%"] only exists in the list that is not
    rendered. *)
Lemma top_label_not_open_ended :
  exists p lg,
    dotplot2 clip_example = Ok p /\
    p_legend p = Some lg /\
    flt (p_dot_max p) (Fin 1) = true /\
    lg_ticklabels lg = ["10%"; "20%"; "30%"; "40%"; "50%"]%string /\
    last (lg_labels lg) EmptyString = ">=50%"%string /\
    prefix ">=" (last (lg_ticklabels lg) EmptyString) = false.
Proof.
  eexists. eexists.
  split; [vm_compute; reflexivity|].
  split; [vm_compute; reflexivity|].
  repeat split.
Qed.

(** ** Drawing on an axis of the caller *)

Lemma fig_width_no_legend (n_key n_group : nat) (swap : bool) :
  fig_width n_key n_group swap LegendNone
  == 0.5 + Qnat (if swap then n_key else n_group) * 0.25.
Proof. unfold fig_width. simpl. ring. Qed.

Lemma fig_height_no_legend (n_key n_group : nat) (swap : bool) :
  fig_height n_key n_group swap LegendNone
  == 0.5 + Qnat (if swap then n_group else n_key) * 0.2.
Proof. unfold fig_height. simpl. ring. Qed.

(** With a caller's axis and [save] set, line 359 reads [fig], which no
    branch has bound. *)
Lemma embedded_save_raises (a : args) (h : handle) (p : plot) :
  ax a = Some h -> save a = true -> dotplot2 a <> Ok p.
Proof.
  intros A Sv H. unfold dotplot2, bind in H. rewrite A, Sv in H. simpl in H.
  destruct (_ && _); [discriminate|].
  destruct (resolve_dot_max _ _); [|discriminate].
  destruct (resolve_dot_min _); [|discriminate].
  simpl in H. discriminate.
Qed.

(** In embedded mode a call can only fail in the validation of its
    arguments (ValueError) or, with [save] set, on the unbound [fig]. *)
Lemma embedded_mode_failures (a : args) (h : handle) (e : exn) :
  ax a = Some h ->
  dotplot2 a = Raise e ->
  e = ValueError \/ (e = NameError /\ save a = true).
Proof.
  intros A H. unfold dotplot2, bind in H. rewrite A in H. simpl in H.
  destruct (_ && _); [injection H as <-; auto|].
  destruct (resolve_dot_max (dot_max a) _) as [hi|e1] eqn:R1.
  2:{ injection H as <-. left. unfold resolve_dot_max in R1.
      destruct (dot_max a);
        [destruct (_ || _) | destruct (Np.max _)]; congruence. }
  destruct (resolve_dot_min (dot_min a)) as [lo|e2] eqn:R2.
  2:{ injection H as <-. left. unfold resolve_dot_min in R2.
      destruct (dot_min a); [destruct (_ || _)|]; congruence. }
  simpl in H. destruct (save a); simpl in H; [|discriminate].
  injection H as <-. auto.
Qed.

(** C10.  When the caller supplies an axis, the legend location is
    replaced by 'none' before the layout is computed: whatever location
    was asked for, no legend is built and no legend panel laid out, no
    figure is created (the caller's axis is the only panel), and the
    call returns [(fig_width, fig_height)] whose legend terms are 0. *)
Theorem embedded_mode_has_no_legend (a : args) (h : handle) (p : plot) :
  ax a = Some h ->
  dotplot2 a = Ok p ->
  effective_legend_loc (ax a) (legend_location a) = LegendNone /\
  p_legend p = None /\
  p_panels p = CallerAxis h /\
  has_legend_panel (p_panels p) = false /\
  creates_figure (p_panels p) = false /\
  exists w h',
    p_return p = FigSize w h' /\
    p_figsize p = (w, h') /\
    w == 0.5 + Qnat (if swap_axis a then n_key (p_stats p) else p_n_group p) * 0.25 /\
    h' == 0.5 + Qnat (if swap_axis a then p_n_group p else n_key (p_stats p)) * 0.2 /\
    w == fig_width (n_key (p_stats p)) (p_n_group p) (swap_axis a)
           (legend_location a)
         - 0.25 * int_of_bool (is_right (legend_location a)) /\
    h' == fig_height (n_key (p_stats p)) (p_n_group p) (swap_axis a)
            (legend_location a)
          - 0.25 * int_of_bool (is_bottom (legend_location a)).
Proof.
  intros A H. rewrite A. split; [reflexivity|].
  unfold dotplot2, bind in H. rewrite A in H. simpl in H.
  destruct (_ && _); [discriminate|].
  destruct (resolve_dot_max _ _); [|discriminate].
  destruct (resolve_dot_min _); [|discriminate].
  simpl in H.
  destruct (save a); simpl in H; [discriminate|].
  injection H as <-. simpl.
  repeat (split; [reflexivity|]).
  eexists. eexists.
  split; [reflexivity|]. split; [reflexivity|].
  split; [apply fig_width_no_legend|].
  split; [apply fig_height_no_legend|].
  unfold fig_width, fig_height. simpl. split; ring.
Qed.

Lemma embedded_mode_has_no_legend_witness :
  exists p, dotplot2 embedded_example = Ok p /\ p_legend p = None.
Proof.
  assert (E : exists p, dotplot2 embedded_example = Ok p)
    by (eexists; vm_compute; reflexivity).
  destruct E as [p E]. exists p. split; [exact E|].
  exact (proj1 (proj2 (embedded_mode_has_no_legend embedded_example 7%nat p
                         eq_refl E))).
Defined.

(** ** Equal bounds *)

Lemma rescaling_equal (lo hi : Q) : lo == hi -> rescaling (Fin lo) (Fin hi) = true.
Proof.
  intro E. apply rescaling_true. intros [A B]. rewrite A, B in E. discriminate E.
Qed.

Lemma clip_equal (lo hi : Q) (f : fnum) :
  lo == hi -> f <> NaN ->
  exists c, clip f (Fin lo) (Fin hi) = Fin c /\ c == lo.
Proof.
  intros E Hf. destruct f as [x| | |]; try congruence.
  - destruct (clip_Fin x lo hi) as [c [Hc Hq]]. exists c. split; [exact Hc|].
    assert (L : lo <= hi) by lra.
    pose proof (clipped_in_range x lo hi L). lra.
  - exists hi. split; [reflexivity | lra].
  - unfold clip, maximum, minimum, fle.
    destruct (Qle_bool lo hi); eexists; split; try reflexivity; lra.
Qed.

Lemma scale_frac_equal (lo hi : Q) (f : fnum) :
  lo == hi -> scale_frac (Fin lo) (Fin hi) f = NaN.
Proof.
  intro E. unfold scale_frac, old_range. rewrite (rescaling_equal lo hi E).
  destruct f as [x| | |] eqn:F.
  4: reflexivity.
  all: destruct (clip_equal lo hi f E) as [c [Hc Hq]]; [subst f; discriminate|];
    subst f; rewrite Hc, !fsub_Fin; unfold fdiv.
  all: assert (Z1 : Qeq_bool (hi + - lo) 0 = true) by (apply Qeq_bool_iff; lra);
    rewrite Z1; unfold Qsign;
    assert (Z2 : (c + - lo ?= 0) = Eq) by (apply Qeq_alt; lra);
    rewrite Z2; reflexivity.
Qed.

Lemma fracs_legends_equal (lo hi : Q) : lo == hi -> fracs_legends lo hi = [].
Proof.
  intro E. unfold fracs_legends, arange.
  set (step := legend_step _ * -1).
  assert (Z0 : (lo - hi) / step == inject_Z 0).
  { unfold Qdiv. setoid_replace (lo - hi) with 0 by lra. simpl. ring. }
  rewrite (Qceiling_comp _ _ Z0), Qceiling_Z. reflexivity.
Qed.

Lemma build_legend_equal (lo hi : Q) :
  lo == hi -> hi < 1 -> build_legend (Fin lo) (Fin hi) = Raise IndexError.
Proof.
  intros E H. unfold build_legend. rewrite (fracs_legends_equal lo hi E).
  unfold flt. apply Qltb_true in H. rewrite H. reflexivity.
Qed.

Lemma maximum_zero (a b : fnum) :
  feq (Fin 0) a -> feq (Fin 0) b -> feq (Fin 0) (maximum a b).
Proof.
  destruct a, b; simpl; try tauto. intros A B.
  destruct (Qle_bool q q0); simpl; assumption.
Qed.

Lemma max_zero (l : list fnum) :
  l <> [] -> Forall (feq (Fin 0)) l ->
  exists m, Np.max l = Some (Fin m) /\ m == 0.
Proof.
  destruct l as [|a l]; [congruence|]. intros _ H.
  inversion H as [|? ? Ha Hl]; subst. simpl.
  assert (G : feq (Fin 0) (fold_left maximum l a)).
  { clear H. revert a Ha. induction Hl as [|b l Hb _ IH]; intros a Ha; simpl; auto.
    apply IH. apply maximum_zero; assumption. }
  destruct (fold_left maximum l a); simpl in G; try tauto.
  eexists. split; [reflexivity|]. symmetry. exact G.
Qed.

Lemma derived_dot_max_zero (frac : list (list fnum)) :
  List.concat frac <> [] ->
  Forall (Forall (feq (Fin 0))) frac ->
  exists z, resolve_dot_max None frac = Ok (Fin z) /\ z == 0.
Proof.
  intros Hne H.
  assert (F : Forall (feq (Fin 0)) (List.concat frac)).
  { apply Forall_concat. exact H. }
  destruct (max_zero _ Hne F) as [m [Hm Em]].
  unfold resolve_dot_max. rewrite Hm. simpl.
  eexists. split; [reflexivity|].
  assert (Z0 : m * 10 == inject_Z 0) by (rewrite Em; reflexivity).
  rewrite (Qceiling_comp _ _ Z0), Qceiling_Z. reflexivity.
Qed.

Lemma validate_in_range (d : Q) :
  0 <= d <= 1 -> Qltb d 0 || Qltb 1 d = false.
Proof.
  intros [A B]. apply orb_false_iff. split; apply Qltb_false; assumption.
Qed.

Lemma flatten_T_Forall {A} (P : A -> Prop) (d : A) (k : nat) (a : list (list A)) :
  P d -> Forall (Forall P) a -> Forall P (flatten_T d k a).
Proof.
  intros Hd H. unfold flatten_T. apply Forall_flat_map.
  apply Forall_forall. intros j _. apply Forall_map.
  eapply Forall_impl; [|exact H].
  intros r Hr. simpl.
  destruct (nth_in_or_default j r d) as [I | ->]; [|exact Hd].
  rewrite Forall_forall in Hr. auto.
Qed.

Lemma sizes_all_nan (lo hi : Q) (k : nat) (frac : list (list fnum)) :
  lo == hi ->
  Forall (eq NaN)
    (map dot_size (flatten_T NaN k (map (map (scale_frac (Fin lo) (Fin hi))) frac))).
Proof.
  intro E. apply Forall_map.
  eapply Forall_impl;
    [| apply (flatten_T_Forall (eq NaN)); [reflexivity|] ].
  - intros ? <-. reflexivity.
  - apply Forall_map. apply Forall_forall. intros r _.
    apply Forall_map. apply Forall_forall. intros f _.
    symmetry. apply scale_frac_equal. exact E.
Qed.

(** C9.  A pair [dot_min = dot_max = d] with [d] in [[0, 1]] passes the
    validation, which looks at each bound alone.  Every fraction is then
    rescaled by a division of 0 by 0, so every dot size is [nan]; the
    descending tick range is empty, and for [d < 1] marking the last
    label raises IndexError.  The same happens when [dot_max] is unset
    and all fractions are 0, since the derived [dot_max] is 0 like the
    default [dot_min].  In [dotplot2]: a call with equal bounds that
    returns has only [nan] sizes, and a call that asks for a legend with
    [d < 1] ends in IndexError. *)
Theorem equal_bounds_divide_by_zero (d : Q) :
  0 <= d <= 1 ->
  (forall frac, resolve_dot_max (Some d) frac = Ok (Fin d)) /\
  resolve_dot_min (Some d) = Ok (Fin d) /\
  old_range (Fin d) (Fin d) = Fin (d + - d) /\
  (forall f, scale_frac (Fin d) (Fin d) f = NaN /\
             dot_size (scale_frac (Fin d) (Fin d) f) = NaN) /\
  fracs_legends d d = [] /\
  (d < 1 -> build_legend (Fin d) (Fin d) = Raise IndexError) /\
  (forall frac,
     List.concat frac <> [] -> Forall (Forall (feq (Fin 0))) frac ->
     exists z,
       resolve_dot_max None frac = Ok (Fin z) /\ z == 0 /\
       resolve_dot_min None = Ok (Fin 0) /\
       (forall f, dot_size (scale_frac (Fin 0) (Fin z) f) = NaN) /\
       build_legend (Fin 0) (Fin z) = Raise IndexError) /\
  (forall a, dot_min a = Some d -> dot_max a = Some d ->
     (forall p, dotplot2 a = Ok p ->
                Forall (eq NaN) (sc_s (g_scatter (p_grid p)))) /\
     (d < 1 -> ax a = None -> legend_location a <> LegendNone ->
      second_key_dependent_fraction a = false ->
      keys a <> [] -> categories a <> [] ->
      dotplot2 a = Raise IndexError)).
Proof.
  intro Hd.
  pose proof (validate_in_range d Hd) as V.
  assert (E : d == d) by reflexivity.
  split; [intro frac; unfold resolve_dot_max; rewrite V; reflexivity|].
  split; [unfold resolve_dot_min; rewrite V; reflexivity|].
  split; [reflexivity|].
  split; [intro f; rewrite (scale_frac_equal d d f E); split; reflexivity|].
  split; [apply fracs_legends_equal; exact E|].
  split; [intro H1; apply build_legend_equal; assumption|].
  split.
  { intros frac Hne H0.
    destruct (derived_dot_max_zero frac Hne H0) as [z [Hz Ez]].
    exists z. split; [exact Hz|]. split; [exact Ez|]. split; [reflexivity|].
    assert (E0 : 0 == z) by (symmetry; exact Ez).
    split.
    - intro f. rewrite (scale_frac_equal 0 z f E0). reflexivity.
    - apply build_legend_equal; [exact E0 | lra]. }
  intros a Hmin Hmax. split.
  - intros p H. unfold dotplot2, bind in H.
    rewrite Hmin, Hmax in H. unfold resolve_dot_max, resolve_dot_min in H.
    rewrite V in H.
    destruct (_ && _); [discriminate|].
    destruct (make_panels _ _ _ _ _); [|discriminate].
    destruct (match effective_legend_loc _ _ with
              | LegendNone => _ | _ => _ end); [|discriminate].
    destruct (_ && _); [discriminate|].
    injection H as <-. simpl.
    unfold draw_grid. destruct (swap_axis a); simpl.
    + apply Forall_rev. apply sizes_all_nan. exact E.
    + apply sizes_all_nan. exact E.
  - intros H1 Hax Hloc Hj Hk Hc.
    unfold dotplot2, bind. rewrite Hmin, Hmax, Hj, Hax.
    unfold resolve_dot_max, resolve_dot_min. rewrite V.
    cbn [andb effective_legend_loc].
    assert (Hq : forall n, n <> 0%nat -> quarter_over n = Ok (0.25 / Qnat n)).
    { intros [|n] Hn; [congruence | reflexivity]. }
    assert (Hnk : n_key (aggregate (categories a) (keys a)
                           (filter_min_group_size (categories a) (df a)
                              (min_group_size a))
                           (mean_only_expressed a) false) <> 0%nat).
    { simpl. destruct (keys a); [congruence | discriminate]. }
    assert (Hng : n_group (categories a)
                    (filter_min_group_size (categories a) (df a)
                       (min_group_size a)) <> 0%nat).
    { unfold n_group. destruct (categories a); [congruence | discriminate]. }
    destruct (legend_location a); [| |congruence];
      unfold make_panels, bind;
      destruct (swap_axis a);
      rewrite ?(Hq _ Hnk), ?(Hq _ Hng), (build_legend_equal d d E H1);
      reflexivity.
Qed.

Lemma equal_bounds_divide_by_zero_witness :
  dotplot2 (equal_bounds_example LegendRight) = Raise IndexError.
Proof.
  assert (Hd : 0 <= 0.5 <= 1) by (split; discriminate).
  destruct (equal_bounds_divide_by_zero 0.5 Hd) as (_ & _ & _ & _ & _ & _ & _ & T).
  destruct (T (equal_bounds_example LegendRight) eq_refl eq_refl) as [_ R].
  apply R.
  - reflexivity.
  - reflexivity.
  - discriminate.
  - reflexivity.
  - discriminate.
  - discriminate.
Defined.

(** ** Renaming and restoring the categories *)

Module EmbeddingFacts.

Import Embedding.

Lemma dict_get_absent (d : dict) (k : string) :
  ~ In k (map fst d) -> dict_get d k = None.
Proof.
  induction d as [|[k' v'] d IH]; simpl; auto.
  intro H. rewrite IH by tauto.
  destruct (String.eqb_spec k k'); [subst; tauto | reflexivity].
Qed.

Lemma dict_get_unique (d : dict) (k v : string) :
  NoDup (map fst d) -> In (k, v) d -> dict_get d k = Some v.
Proof.
  induction d as [|[k' v'] d IH]; simpl; [tauto|].
  intros ND [E | I].
  - injection E as -> ->. inversion ND; subst.
    rewrite dict_get_absent by assumption.
    rewrite String.eqb_refl. reflexivity.
  - inversion ND; subst. rewrite (IH H2 I). reflexivity.
Qed.

Lemma rename_by_dict (d : dict) :
  NoDup (map fst d) -> rename_categories d (map fst d) = map snd d.
Proof.
  intro ND. unfold rename_categories. rewrite map_map.
  apply map_ext_in. intros [k v] I. simpl.
  rewrite (dict_get_unique d k v ND I). reflexivity.
Qed.

(** Decimal numerals have no colon, so the index can be read back from
    a display label. *)
Lemma numeral_no_colon (d : Decimal.uint) : no_colon (NilEmpty.string_of_uint d).
Proof. induction d; simpl; auto; split; auto; discriminate. Qed.

Lemma colon_split (s1 s2 r1 r2 : string) :
  no_colon s1 -> no_colon s2 ->
  (s1 ++ String ":" r1 = s2 ++ String ":" r2)%string -> s1 = s2.
Proof.
  revert s2. induction s1 as [|c s1 IH]; intros [|c' s2]; simpl;
    intros N1 N2 E; auto.
  - injection E as E _. subst. tauto.
  - injection E as E _. subst. tauto.
  - injection E as -> E. f_equal. apply IH; tauto.
Qed.

Lemma str_nat_inj (i j : nat) : str_nat i = str_nat j -> i = j.
Proof.
  unfold str_nat. intro E.
  apply (f_equal NilEmpty.uint_of_string) in E.
  rewrite !NilEmpty.usu in E. injection E as E.
  apply DecimalNat.Unsigned.to_uint_inj. exact E.
Qed.

Lemma display_label_inj (ad : adata) (i j : nat) (c c' : string) :
  display_label ad i c = display_label ad j c' -> i = j.
Proof.
  unfold display_label. simpl. intro E.
  apply str_nat_inj. eapply colon_split; [| | exact E];
    apply numeral_no_colon.
Qed.

Lemma NoDup_map_by {A B K} (f : A -> B) (g : A -> K) (l : list A) :
  (forall x y, f x = f y -> g x = g y) ->
  NoDup (map g l) -> NoDup (map f l).
Proof.
  intros H. induction l as [|a l IH]; simpl; intro ND; [constructor|].
  inversion ND; subst. constructor; [|auto].
  intro I. apply in_map_iff in I. destruct I as [y [E Iy]].
  apply H2. rewrite <- (H _ _ E). apply in_map. exact Iy.
Qed.

Lemma enumerate_fst {A} (l : list A) :
  map fst (enumerate l) = seq 0 (List.length l).
Proof.
  unfold enumerate. generalize 0%nat.
  induction l; intro n; simpl; auto. f_equal. apply IHl.
Qed.

Lemma enumerate_snd {A} (l : list A) : map snd (enumerate l) = l.
Proof.
  unfold enumerate. generalize 0%nat.
  induction l; intro n; simpl; auto. f_equal. apply IHl.
Qed.

Lemma rename_dict_keys (ad : adata) : map fst (rename_dict ad) = cat_labels ad.
Proof.
  unfold rename_dict. rewrite map_map.
  rewrite <- (enumerate_snd (cat_labels ad)) at 2.
  apply map_ext. intros [i c]. reflexivity.
Qed.

Lemma rename_restore_values (ad : adata) :
  map snd (rename_dict ad) = map fst (restore_dict ad).
Proof.
  unfold rename_dict, restore_dict. rewrite !map_map.
  apply map_ext. intros [i c]. reflexivity.
Qed.

Lemma restore_dict_values (ad : adata) : map snd (restore_dict ad) = cat_labels ad.
Proof.
  unfold restore_dict. rewrite map_map.
  rewrite <- (enumerate_snd (cat_labels ad)) at 2.
  apply map_ext. intros [i c]. reflexivity.
Qed.

Lemma restore_dict_keys_NoDup (ad : adata) : NoDup (map fst (restore_dict ad)).
Proof.
  unfold restore_dict. rewrite map_map.
  apply NoDup_map_by with (g := fst).
  - intros [i c] [j c'] E. simpl in *. eapply display_label_inj. exact E.
  - rewrite enumerate_fst. apply seq_NoDup.
Qed.

(** Renaming by [rename_dict] and then by [restore_dict] gives the
    categories back. *)
Lemma restore_after_rename (ad : adata) :
  NoDup (cat_labels ad) ->
  rename_categories (restore_dict ad)
    (rename_categories (rename_dict ad) (cat_labels ad))
  = cat_labels ad.
Proof.
  intro ND.
  rewrite <- (rename_dict_keys ad) at 1.
  rewrite rename_by_dict by (rewrite rename_dict_keys; exact ND).
  rewrite rename_restore_values.
  rewrite rename_by_dict by apply restore_dict_keys_NoDup.
  apply restore_dict_values.
Qed.

(** Once the [try] block is entered, the categories are the original
    ones when the call ends, however it ends; and so they are when the
    call ends before renaming. *)
Lemma labels_restored_through_try (env : externals) (a : args) (ad : adata) :
  NoDup (cat_labels ad) ->
  subplots_raises env = false ->
  highlight a && view_rename_raises env = false ->
  cat_labels (fst (plot_embedding env a ad)) = cat_labels ad.
Proof.
  intros ND Hs Hv. unfold plot_embedding.
  destruct (figsize_valid a), (has_basis ad), (has_groupby ad), (is_category ad),
    (components a); simpl; try reflexivity.
  rewrite Hs. rewrite <- andb_assoc, Hv, andb_false_r.
  destruct (annot_on (annot a)) eqn:An; simpl.
  - rewrite (restore_after_rename ad ND).
    destruct (try_body env a); [|reflexivity].
    destruct (match annot a with AnnotFull => _ | _ => _ end); [reflexivity|].
    destruct (save a && savefig_raises env); reflexivity.
  - destruct (try_body env a); [|reflexivity].
    destruct (match annot a with AnnotFull => _ | _ => _ end); [reflexivity|].
    destruct (save a && savefig_raises env); reflexivity.
Qed.

End EmbeddingFacts.

(** C8 fails on the code.  With [annot = 'full'] the categories are
    renamed on line 555, before the [try] block is entered on line 564;
    when the figure cannot be created on line 563 in between, the call
    ends with an exception and the categories stay renamed.  (When the
    scatter rendering inside the [try] block raises, they are
    restored.) *)
Theorem labels_stay_renamed_when_subplots_fails :
  Embedding.renames embedding_args embedding_adata = true /\
  (exists ad,
     Embedding.plot_embedding subplots_fails embedding_args embedding_adata
     = (ad, Raise LibraryError) /\
     Embedding.cat_labels ad = ["0: A (n=2)"; "1: B (n=1)"]%string /\
     Embedding.cat_labels ad <> Embedding.cat_labels embedding_adata) /\
  (exists ad,
     Embedding.plot_embedding scatter_fails embedding_args embedding_adata
     = (ad, Raise LibraryError) /\
     Embedding.cat_labels ad = Embedding.cat_labels embedding_adata).
Proof.
  split; [reflexivity|]. split.
  - eexists. split; [vm_compute; reflexivity|].
    split; [reflexivity | discriminate].
  - eexists. split; [vm_compute; reflexivity | reflexivity].
Qed.

(** * Further properties of the code *)

(** * Further properties of [dotplot2] *)

(** ** The statistics *)

Lemma combine_map_same {A B C} (f : A -> B) (h : A -> C) (l : list A) :
  combine (map f l) (map h l) = map (fun x => (f x, h x)) l.
Proof. induction l; simpl; congruence. Qed.

Lemma zero_absent_cells {A} (m : Z) (cnt : A -> list nat) (v : A -> list fnum)
  (l : list A) :
  zero_absent m (map cnt l) (map v l)
  = map (fun x => map (fun '(c, f) => zero_if m c f) (combine (cnt x) (v x))) l.
Proof.
  unfold zero_absent. rewrite combine_map_same, map_map. reflexivity.
Qed.

Lemma count_pos_le (l : list Q) : (count_pos l <= List.length l)%nat.
Proof. unfold count_pos. apply filter_length_le. Qed.

Lemma of_nat_ratio (c n : nat) :
  (c <= n)%nat -> n <> 0%nat -> in_unit (fdiv (of_nat c) (of_nat n)).
Proof.
  intros Hc Hn. destruct (of_nat_div c n Hn) as [q [E Q]].
  exists q. split; [exact E|].
  assert (0 <= Qnat c) by (unfold Qnat; change 0 with (inject_Z 0);
                           rewrite <- Zle_Qle; lia).
  assert (Qnat c <= Qnat n) by (unfold Qnat; rewrite <- Zle_Qle; lia).
  assert (0 < Qnat n) by (unfold Qnat; change 0 with (inject_Z 0);
                          rewrite <- Zlt_Qlt; lia).
  rewrite Q. split.
  - apply Qle_shift_div_l; lra.
  - apply Qle_shift_div_r; lra.
Qed.

Lemma of_nat_ratio_empty (c : nat) : fdiv (of_nat c) (of_nat 0) = inf_of (Qsign (Qnat c)).
Proof. reflexivity. Qed.

Lemma frac_cell_unit (g : frame) (j : nat) : g <> [] -> in_unit (frac_cell g j).
Proof.
  intro H. unfold frac_cell. apply of_nat_ratio.
  - unfold column. rewrite <- (length_map (fun r => nth j (vals r) 0) g).
    apply count_pos_le.
  - destruct g; [congruence | discriminate].
Qed.

Lemma frac_joint_unit (g : frame) : g <> [] -> in_unit (frac_joint g).
Proof.
  intro H. unfold frac_joint. apply of_nat_ratio.
  - unfold joint_rows. apply filter_length_le.
  - destruct g; [congruence | discriminate].
Qed.

Lemma frac_cell_nil (j : nat) : frac_cell [] j = NaN.
Proof. reflexivity. Qed.

Lemma frac_joint_nil : frac_joint [] = NaN.
Proof. reflexivity. Qed.

Lemma zero_if_unit (m : Z) (c : nat) (f : fnum) : in_unit f -> in_unit (zero_if m c f).
Proof.
  intro H. unfold zero_if. destruct (_ <? _)%Z; [|exact H].
  exists 0. split; [reflexivity | lra].
Qed.

(** The statistics that a call returns, cell by cell. *)
Lemma dotplot2_stats (a : args) (p : plot) :
  dotplot2 a = Ok p ->
  p_stats p
  = {| exp_cnt := exp_cnt (aggregated a);
       frac := zero_absent (min_presence a) (exp_cnt (aggregated a)) (frac (aggregated a));
       avg := zero_absent (min_presence a) (exp_cnt (aggregated a)) (avg (aggregated a));
       group_label := group_label (aggregated a);
       n_key := n_key (aggregated a) |} /\
  p_n_group p = List.length (categories a).
Proof.
  intro H. invert_dotplot2 H; subst p; split; reflexivity.
Qed.

Lemma aggregated_frac (a : args) :
  zero_absent (min_presence a) (exp_cnt (aggregated a)) (frac (aggregated a))
  = map (fun c =>
           if second_key_dependent_fraction a
           then [zero_if (min_presence a) (exp_cnt_joint (kept_rows a c))
                   (frac_joint (kept_rows a c))]
           else map (fun j => zero_if (min_presence a)
                                (exp_cnt_cell (kept_rows a c) j)
                                (frac_cell (kept_rows a c) j))
                    (seq 0 (List.length (keys a))))
        (categories a).
Proof.
  unfold aggregated, aggregate, kept_rows.
  destruct (second_key_dependent_fraction a); simpl;
    rewrite !map_map, zero_absent_cells; apply map_ext; intro c.
  - reflexivity.
  - rewrite combine_map_same, map_map. reflexivity.
Qed.

(** X1.  In the statistics that [dotplot2] returns every fraction is
    [nan] or a number between 0 and 1, and the fractions of a category
    that has rows left after the [min_group_size] selection are all
    numbers between 0 and 1. *)
Theorem fractions_in_unit_interval (a : args) (p : plot) :
  dotplot2 a = Ok p ->
  Forall (Forall unit_or_nan) (frac (p_stats p)) /\
  Forall2 (fun c cells => kept_rows a c <> [] -> Forall in_unit cells)
          (categories a) (frac (p_stats p)).
Proof.
  intro H. destruct (dotplot2_stats a p H) as [-> _]. simpl.
  rewrite aggregated_frac.
  assert (U : forall c,
            kept_rows a c <> [] ->
            Forall in_unit
              (if second_key_dependent_fraction a
               then [zero_if (min_presence a) (exp_cnt_joint (kept_rows a c))
                       (frac_joint (kept_rows a c))]
               else map (fun j => zero_if (min_presence a)
                                    (exp_cnt_cell (kept_rows a c) j)
                                    (frac_cell (kept_rows a c) j))
                        (seq 0 (List.length (keys a))))).
  { intros c Hc. destruct (second_key_dependent_fraction a).
    - constructor; [|constructor]. apply zero_if_unit, frac_joint_unit, Hc.
    - apply Forall_map, Forall_forall. intros j _.
      apply zero_if_unit, frac_cell_unit, Hc. }
  split.
  - apply Forall_map, Forall_forall. intros c _.
    destruct (kept_rows a c) eqn:E.
    + destruct (second_key_dependent_fraction a).
      * constructor; [|constructor]. unfold zero_if.
        destruct (_ <? _)%Z; [right; exists 0; split; [reflexivity|lra] | left; reflexivity].
      * apply Forall_map, Forall_forall. intros j _. unfold zero_if.
        destruct (_ <? _)%Z; [right; exists 0; split; [reflexivity|lra] | left; reflexivity].
    + rewrite <- E. eapply Forall_impl; [|apply U; rewrite E; discriminate].
      intros x Hx. right. exact Hx.
  - rewrite <- (map_id (categories a)) at 1. apply Forall2_map_same.
    intros c Hc. apply U, Hc.
Qed.

Lemma fractions_in_unit_interval_witness :
  exists p,
    dotplot2 (swap_example false) = Ok p /\
    Forall (Forall unit_or_nan) (frac (p_stats p)).
Proof.
  assert (E : exists p, dotplot2 (swap_example false) = Ok p)
    by (eexists; vm_compute; reflexivity).
  destruct E as [p E]. exists p. split; [exact E|].
  exact (proj1 (fractions_in_unit_interval (swap_example false) p E)).
Defined.

(** ** Cells below [min_presence] *)

Lemma aggregated_avg (a : args) :
  zero_absent (min_presence a) (exp_cnt (aggregated a)) (avg (aggregated a))
  = map (fun c =>
           let mean := if mean_only_expressed a then avg1_cell else avg0_cell in
           if second_key_dependent_fraction a
           then [zero_if (min_presence a) (exp_cnt_joint (kept_rows a c))
                   (mean (kept_rows a c) 0%nat)]
           else map (fun j => zero_if (min_presence a)
                                (exp_cnt_cell (kept_rows a c) j)
                                (mean (kept_rows a c) j))
                    (seq 0 (List.length (keys a))))
        (categories a).
Proof.
  unfold aggregated, aggregate, kept_rows.
  destruct (second_key_dependent_fraction a); simpl;
    rewrite !map_map, zero_absent_cells; apply map_ext; intro c.
  - reflexivity.
  - rewrite combine_map_same, map_map. reflexivity.
Qed.

Lemma aggregated_cnt (a : args) :
  exp_cnt (aggregated a)
  = map (fun c =>
           if second_key_dependent_fraction a
           then [exp_cnt_joint (kept_rows a c)]
           else map (exp_cnt_cell (kept_rows a c)) (seq 0 (List.length (keys a))))
        (categories a).
Proof.
  unfold aggregated, aggregate, kept_rows.
  destruct (second_key_dependent_fraction a); simpl; rewrite !map_map; reflexivity.
Qed.

Lemma aggregated_frac_plain (a : args) :
  frac (aggregated a)
  = map (fun c =>
           if second_key_dependent_fraction a
           then [frac_joint (kept_rows a c)]
           else map (frac_cell (kept_rows a c)) (seq 0 (List.length (keys a))))
        (categories a).
Proof.
  unfold aggregated, aggregate, kept_rows.
  destruct (second_key_dependent_fraction a); simpl; rewrite !map_map; reflexivity.
Qed.

Lemma aggregated_avg_plain (a : args) :
  avg (aggregated a)
  = map (fun c =>
           let mean := if mean_only_expressed a then avg1_cell else avg0_cell in
           if second_key_dependent_fraction a
           then [mean (kept_rows a c) 0%nat]
           else map (mean (kept_rows a c)) (seq 0 (List.length (keys a))))
        (categories a).
Proof.
  unfold aggregated, aggregate, kept_rows.
  destruct (second_key_dependent_fraction a); simpl; rewrite !map_map; reflexivity.
Qed.

Lemma nth_map_in {A B} (f : A -> B) (l : list A) (i : nat) (da : A) (db : B) :
  (i < List.length l)%nat -> nth i (map f l) db = f (nth i l da).
Proof.
  intro H. rewrite (nth_indep _ db (f da)) by (rewrite length_map; exact H).
  apply map_nth.
Qed.

(** X2.  A cell of the statistics whose count of expressing
    observations is below [min_presence] has fraction 0 and mean 0
    (lines 226-227); every other cell keeps the fraction and the mean of
    the aggregation. *)
Theorem min_presence_zeroes_cells (a : args) (p : plot) (i j : nat) :
  dotplot2 a = Ok p ->
  (i < List.length (categories a))%nat ->
  (j < n_key (p_stats p))%nat ->
  let cnt := nth j (nth i (exp_cnt (p_stats p)) []) 0%nat in
  let cell (m : list (list fnum)) := nth j (nth i m []) NaN in
  ((Z.of_nat cnt < min_presence a)%Z ->
     cell (frac (p_stats p)) = Fin 0 /\ cell (avg (p_stats p)) = Fin 0) /\
  ((min_presence a <= Z.of_nat cnt)%Z ->
     cell (frac (p_stats p)) = cell (frac (aggregated a)) /\
     cell (avg (p_stats p)) = cell (avg (aggregated a))).
Proof.
  intros H Hi Hj. destruct (dotplot2_stats a p H) as [E _].
  rewrite E in *. simpl in *. clear E.
  rewrite aggregated_frac, aggregated_avg, aggregated_cnt,
    aggregated_frac_plain, aggregated_avg_plain.
  rewrite !(nth_map_in _ _ i EmptyString) by exact Hi.
  assert (K : n_key (aggregated a)
              = if second_key_dependent_fraction a then 1%nat
                else List.length (keys a)).
  { unfold aggregated, aggregate.
    destruct (second_key_dependent_fraction a); reflexivity. }
  rewrite K in Hj. cbv zeta.
  destruct (second_key_dependent_fraction a).
  - destruct j as [|j]; [|lia]. simpl. unfold zero_if.
    destruct (Z.ltb_spec (Z.of_nat (exp_cnt_joint (kept_rows a (nth i (categories a) EmptyString))))
                (min_presence a)); split; intros; try lia; split; reflexivity.
  - rewrite !(nth_map_in _ _ j 0%nat) by (rewrite length_seq; exact Hj).
    unfold zero_if.
    destruct (Z.ltb_spec
                (Z.of_nat (exp_cnt_cell (kept_rows a (nth i (categories a) EmptyString))
                             (nth j (seq 0 (List.length (keys a))) 0%nat)))
                (min_presence a)); split; intros; try lia; split; reflexivity.
Qed.

Lemma min_presence_zeroes_cells_witness :
  exists p,
    dotplot2 presence_example = Ok p /\
    nth 0 (nth 0 (frac (p_stats p)) []) NaN = Fin 0.
Proof.
  assert (E : exists p, dotplot2 presence_example = Ok p)
    by (eexists; vm_compute; reflexivity).
  destruct E as [p E]. exists p. split; [exact E|].
  assert (S := proj1 (dotplot2_stats presence_example p E)).
  assert (J : (0 < n_key (p_stats p))%nat) by (rewrite S; vm_compute; lia).
  assert (I : (0 < List.length (categories presence_example))%nat) by (simpl; lia).
  destruct (min_presence_zeroes_cells presence_example p 0 0 E I J) as [Z _].
  apply Z. rewrite S. vm_compute. reflexivity.
Defined.

(** ** The derived [dot_max] *)

Lemma maximum_Fin (x y : Q) :
  exists m, maximum (Fin x) (Fin y) = Fin m /\ x <= m /\ y <= m /\ (m == x \/ m == y).
Proof.
  unfold maximum, fle. destruct (Qle_bool x y) eqn:E; qbool.
  - exists y. split; [reflexivity|]. split; [lra|]. split; [lra|].
    right; reflexivity.
  - exists x. split; [reflexivity|]. split; [lra|]. split; [lra|].
    left; reflexivity.
Qed.

Lemma fold_maximum_Fin (l : list fnum) (x : Q) :
  Forall (fun f => exists q, f = Fin q) l ->
  exists m,
    fold_left maximum l (Fin x) = Fin m /\ x <= m /\
    Forall (fun f => exists q, f = Fin q /\ q <= m) l /\
    (m == x \/ Exists (fun f => exists q, f = Fin q /\ m == q) l).
Proof.
  intro H. revert x. induction H as [|f l [q ->] _ IH]; intro x.
  - exists x. split; [reflexivity|]. split; [lra|]. split; [constructor|].
    left; reflexivity.
  - cbn [fold_left]. destruct (maximum_Fin x q) as (m0 & -> & A & B & C).
    destruct (IH m0) as (m & E & D & F & G).
    exists m. split; [exact E|]. split; [lra|]. split.
    + constructor; [exists q; split; [reflexivity | lra] | exact F].
    + destruct G as [G | G].
      * destruct C as [C | C].
        -- left. lra.
        -- right. constructor. exists q. split; [reflexivity | lra].
      * right. apply Exists_cons_tl. exact G.
Qed.

Lemma max_Fin (l : list fnum) :
  l <> [] ->
  Forall (fun f => exists q, f = Fin q) l ->
  exists m,
    Np.max l = Some (Fin m) /\
    Forall (fun f => exists q, f = Fin q /\ q <= m) l /\
    Exists (fun f => exists q, f = Fin q /\ m == q) l.
Proof.
  destruct l as [|f l]; [congruence|]. intros _ H.
  inversion H as [|? ? [x ->] Hl]; subst. simpl.
  destruct (fold_maximum_Fin l x Hl) as (m & E & A & B & C).
  exists m. split; [rewrite E; reflexivity|]. split.
  - constructor; [exists x; split; [reflexivity | exact A] | exact B].
  - destruct C as [C | C].
    + constructor. exists x. split; [reflexivity | exact C].
    + apply Exists_cons_tl. exact C.
Qed.

Lemma ceil_tenth (m : Q) :
  let d := inject_Z (Qceiling (m * 10)) / 10 in
  m <= d /\ d < m + 0.1.
Proof.
  cbv zeta.
  pose proof (Qle_ceiling (m * 10)) as A.
  pose proof (Qceiling_lt (m * 10)) as B.
  assert (S1 : inject_Z (Qceiling (m * 10) - 1) == inject_Z (Qceiling (m * 10)) - 1).
  { unfold Z.sub. rewrite inject_Z_plus, inject_Z_opp. reflexivity. }
  rewrite S1 in B.
  split.
  - apply Qle_shift_div_l; lra.
  - apply Qlt_shift_div_r; lra.
Qed.

Lemma in_unit_finite (f : fnum) : in_unit f -> exists q, f = Fin q.
Proof. intros [q [E _]]. eauto. Qed.

Lemma clip_inside (f lo hi : Q) :
  lo <= f -> f <= hi -> feq (clip (Fin f) (Fin lo) (Fin hi)) (Fin f).
Proof.
  intros A B. destruct (clip_Fin f lo hi) as (c & -> & E). simpl.
  rewrite E, Q.max_l, Q.min_l by lra. reflexivity.
Qed.

(** X3.  When [dot_max] is not given and every fraction is a number
    of the unit interval (there is at least one), line 230 gives a
    [dot_max] between 0 and 1 that is a multiple of 0.1; no fraction lies
    above it, so that clipping at it changes none, and some fraction lies
    less than 0.1 below it. *)
Theorem derived_dot_max_covers_fractions (frac : list (list fnum)) :
  List.concat frac <> [] ->
  Forall (Forall in_unit) frac ->
  exists d,
    resolve_dot_max None frac = Ok (Fin d) /\
    0 <= d <= 1 /\
    (exists k : Z, d == inject_Z k / 10) /\
    Forall (Forall (fun f =>
                      exists q, f = Fin q /\ q <= d /\
                                feq (clip f (Fin 0) (Fin d)) f)) frac /\
    Exists (Exists (fun f => exists q, f = Fin q /\ d < q + 0.1)) frac.
Proof.
  intros Hne H.
  assert (U : Forall in_unit (List.concat frac)) by (apply Forall_concat; exact H).
  assert (F : Forall (fun f => exists q, f = Fin q) (List.concat frac)).
  { eapply Forall_impl; [|exact U]. intros f Hf. apply in_unit_finite, Hf. }
  destruct (max_Fin _ Hne F) as (m & E & A & B).
  assert (M : 0 <= m <= 1).
  { apply Exists_exists in B. destruct B as (f & If & q & -> & Q).
    rewrite Forall_forall in U. destruct (U _ If) as (q' & Eq & R).
    injection Eq as <-. lra. }
  pose proof (ceil_tenth m) as [C1 C2]. cbv zeta in C1, C2.
  exists (inject_Z (Qceiling (m * 10)) / 10).
  split; [unfold resolve_dot_max; rewrite E; reflexivity|].
  split.
  { split; [lra|].
    assert (Z10 : (Qceiling (m * 10) <= 10)%Z).
    { assert (T : m * 10 <= inject_Z 10)
        by (change (inject_Z 10) with 10; lra).
      apply Qceiling_resp_le in T. rewrite Qceiling_Z in T. exact T. }
    rewrite Zle_Qle in Z10. change (inject_Z 10) with 10 in Z10.
    apply Qle_shift_div_r; lra. }
  split; [eexists; reflexivity|].
  split.
  - apply Forall_forall. intros r Ir. apply Forall_forall. intros f If.
    assert (I : In f (List.concat frac)) by (apply in_concat; eauto).
    rewrite Forall_forall in A, U.
    destruct (A _ I) as (q & -> & Q). destruct (U _ I) as (q' & Eq & R).
    injection Eq as <-.
    exists q. split; [reflexivity|]. split; [lra|].
    apply clip_inside; lra.
  - apply Exists_exists in B. destruct B as (f & If & q & -> & Q).
    apply in_concat in If. destruct If as (r & Ir & If).
    apply Exists_exists. exists r. split; [exact Ir|].
    apply Exists_exists. exists (Fin q). split; [exact If|].
    exists q. split; [reflexivity | lra].
Qed.

Lemma derived_dot_max_covers_fractions_witness :
  exists d,
    resolve_dot_max None [[Fin 0.25; Fin 0.5]] = Ok (Fin d) /\ 0 <= d <= 1.
Proof.
  destruct (derived_dot_max_covers_fractions [[Fin 0.25; Fin 0.5]]) as (d & E & R & _).
  - discriminate.
  - repeat constructor; eexists; (split; [reflexivity | split; discriminate]).
  - exists d. split; assumption.
Defined.

Lemma fold_maximum_nan (l : list fnum) : fold_left maximum l NaN = NaN.
Proof. induction l; simpl; auto. Qed.

Lemma fold_maximum_with_nan (l : list fnum) (a : fnum) :
  In NaN l -> fold_left maximum l a = NaN.
Proof.
  revert a. induction l as [|f l IH]; intros a H; [contradiction|].
  simpl. destruct H as [-> | H].
  - replace (maximum a NaN) with NaN by (destruct a; reflexivity).
    apply fold_maximum_nan.
  - apply IH, H.
Qed.

Lemma max_with_nan (l : list fnum) : In NaN l -> Np.max l = Some NaN.
Proof.
  destruct l as [|a l]; [contradiction|]. intros [-> | H]; simpl.
  - rewrite fold_maximum_nan. reflexivity.
  - rewrite fold_maximum_with_nan by exact H. reflexivity.
Qed.

Lemma scale_frac_nan_bound (lo f : fnum) : scale_frac lo NaN f = NaN.
Proof.
  unfold scale_frac, rescaling.
  replace (fneb NaN (Fin 1)) with true by reflexivity.
  rewrite orb_true_r. unfold clip.
  replace (minimum (maximum f lo) NaN) with NaN
    by (destruct (maximum f lo); reflexivity).
  reflexivity.
Qed.

Lemma nan_fraction_spoils_bounds (frac : list (list fnum)) :
  In NaN (List.concat frac) ->
  resolve_dot_max None frac = Ok NaN /\
  (forall lo f, dot_size (scale_frac lo NaN f) = NaN) /\
  (forall lo, build_legend lo NaN = Raise ValueError).
Proof.
  intro H. split; [|split].
  - unfold resolve_dot_max. rewrite (max_with_nan _ H). reflexivity.
  - intros lo f. rewrite scale_frac_nan_bound. reflexivity.
  - intros [lo| | |]; reflexivity.
Qed.

(** ** The ticks of the legend *)



Lemma evenly_spaced_app (step a b : Q) (l : list Q) :
  evenly_spaced step (l ++ [a]) -> b == a + step ->
  evenly_spaced step ((l ++ [a]) ++ [b]).
Proof.
  induction l as [|x l IH]; simpl; intros H E.
  - split; [exact E | exact I].
  - destruct (l ++ [a]) as [|y l'] eqn:L.
    + destruct l; discriminate L.
    + simpl. destruct H as [H1 H2]. split; [exact H1|]. apply IH; assumption.
Qed.













(** ** Legend sizes and dot sizes *)





Lemma scale_frac_value (lo hi f : Q) :
  lo < hi ->
  exists r,
    scale_frac (Fin lo) (Fin hi) (Fin f) = Fin r /\
    (rescaling (Fin lo) (Fin hi) = true ->
       r == (Qmin (Qmax f lo) hi - lo) / (hi - lo)) /\
    (rescaling (Fin lo) (Fin hi) = false -> r = f).
Proof.
  intro H. unfold scale_frac, old_range.
  destruct (rescaling (Fin lo) (Fin hi)).
  - destruct (clip_Fin f lo hi) as (c & -> & Ec). rewrite !fsub_Fin. unfold fdiv.
    destruct (Qeq_bool (hi + - lo) 0) eqn:E; qbool; [lra|].
    eexists. split; [reflexivity|]. split; [|discriminate].
    intros _. rewrite <- Ec. field. lra.
  - exists f. split; [reflexivity|]. split; [discriminate | reflexivity].
Qed.

(** X6.  For dot_min < dot_max the size of a dot is a number that does
    not decrease when the fraction grows: fractions 0 <= f1 <= f2 get
    sizes 0 <= s1 <= s2. *)
Theorem dot_size_monotone (dot_min dot_max f1 f2 : Q) :
  dot_min < dot_max -> 0 <= f1 -> f1 <= f2 ->
  exists s1 s2,
    dot_size (scale_frac (Fin dot_min) (Fin dot_max) (Fin f1)) = Fin s1 /\
    dot_size (scale_frac (Fin dot_min) (Fin dot_max) (Fin f2)) = Fin s2 /\
    0 <= s1 /\ s1 <= s2.
Proof.
  intros Hlt H0 H12.
  destruct (scale_frac_value dot_min dot_max f1 Hlt) as (r1 & -> & A1 & B1).
  destruct (scale_frac_value dot_min dot_max f2 Hlt) as (r2 & -> & A2 & B2).
  rewrite !dot_size_Fin. eexists. eexists.
  split; [reflexivity|]. split; [reflexivity|].
  assert (R : 0 <= r1 /\ r1 <= r2).
  { destruct (rescaling (Fin dot_min) (Fin dot_max)).
    - specialize (A1 eq_refl). specialize (A2 eq_refl).
      pose proof (clipped_in_range f1 dot_min dot_max (Qlt_le_weak _ _ Hlt)) as [L1 _].
      assert (M : Qmin (Qmax f1 dot_min) dot_max <= Qmin (Qmax f2 dot_min) dot_max).
      { apply Q.min_le_compat_r. apply Q.max_le_compat_r. exact H12. }
      rewrite A1, A2. split.
      + apply Qle_shift_div_l; lra.
      + apply Qle_shift_div_r; [lra|].
        assert (Q1 : (Qmin (Qmax f2 dot_min) dot_max - dot_min) / (dot_max - dot_min)
                     * (dot_max - dot_min)
                     == Qmin (Qmax f2 dot_min) dot_max - dot_min) by (field; lra).
        rewrite Q1. lra.
    - rewrite (B1 eq_refl), (B2 eq_refl). split; assumption. }
  destruct R as [R1 R2]. split; nra.
Qed.

Lemma dot_size_monotone_witness :
  exists s1 s2,
    dot_size (scale_frac (Fin 0.2) (Fin 0.7) (Fin 0.3)) = Fin s1 /\
    dot_size (scale_frac (Fin 0.2) (Fin 0.7) (Fin 0.9)) = Fin s2 /\
    0 <= s1 /\ s1 <= s2.
Proof.
  apply (dot_size_monotone 0.2 0.7 0.3 0.9); [reflexivity | discriminate | discriminate].
Defined.

(** ** Rejected arguments *)

Lemma resolve_dot_max_error (d : option Q) (frac : list (list fnum)) (e : exn) :
  resolve_dot_max d frac = Raise e -> e = ValueError.
Proof.
  unfold resolve_dot_max.
  destruct d; [destruct (_ || _) | destruct (Np.max _)]; congruence.
Qed.

Lemma out_of_range (d : Q) : d < 0 \/ 1 < d -> Qltb d 0 || Qltb 1 d = true.
Proof.
  intros [H | H]; apply Qltb_true in H; rewrite H; auto using orb_true_r.
Qed.

(** X7.  [dotplot2] raises ValueError when
    [second_key_dependent_fraction] is set and the number of keys is not
    2, when a given [dot_max] is outside the unit interval, and when a
    given [dot_min] is outside the unit interval, whatever the other
    arguments are. *)
Theorem invalid_arguments_rejected (a : args) :
  (second_key_dependent_fraction a = true /\ List.length (keys a) <> 2%nat) \/
  (exists d, dot_max a = Some d /\ (d < 0 \/ 1 < d)) \/
  (exists d, dot_min a = Some d /\ (d < 0 \/ 1 < d)) ->
  dotplot2 a = Raise ValueError.
Proof.
  intro H. unfold dotplot2, bind.
  destruct (second_key_dependent_fraction a) eqn:J; simpl.
  - destruct (Nat.eqb_spec (List.length (keys a)) 2) as [K | K]; simpl; [|reflexivity].
    destruct H as [[_ H] | H]; [contradiction|].
    destruct (resolve_dot_max (dot_max a) _) as [hi | e] eqn:R;
      [| rewrite (resolve_dot_max_error _ _ _ R); reflexivity].
    destruct H as [(d & E & O) | (d & E & O)].
    + rewrite E in R. simpl in R. rewrite (out_of_range d O) in R. discriminate R.
    + rewrite E. simpl. rewrite (out_of_range d O). reflexivity.
  - destruct H as [[H _] | H]; [discriminate|].
    destruct (resolve_dot_max (dot_max a) _) as [hi | e] eqn:R;
      [| rewrite (resolve_dot_max_error _ _ _ R); reflexivity].
    destruct H as [(d & E & O) | (d & E & O)].
    + rewrite E in R. simpl in R. rewrite (out_of_range d O) in R. discriminate R.
    + rewrite E. simpl. rewrite (out_of_range d O). reflexivity.
Qed.

Lemma invalid_arguments_rejected_witness :
  dotplot2 bad_bounds_example = Raise ValueError.
Proof.
  apply (invalid_arguments_rejected bad_bounds_example).
  right. left. exists 1.5. split; [reflexivity|]. right. reflexivity.
Defined.

(** ** Every cell is drawn once *)

Lemma dotplot2_grid (a : args) (p : plot) :
  dotplot2 a = Ok p ->
  p_grid p
  = draw_grid (swap_axis a) (n_key (p_stats p)) (p_n_group p) (keys a)
      (group_label (p_stats p))
      (flatten_T NaN (n_key (p_stats p)) (avg (p_stats p)))
      (map dot_size
         (flatten_T NaN (n_key (p_stats p))
            (map (map (scale_frac (p_dot_min p) (p_dot_max p)))
                 (frac (p_stats p))))).
Proof.
  intro H. invert_dotplot2 H; subst p; reflexivity.
Qed.

Lemma flatten_T_map {A B} (f : A -> B) (d : A) (k : nat) (m : list (list A)) :
  map f (flatten_T d k m) = flatten_T (f d) k (map (map f) m).
Proof.
  unfold flatten_T. rewrite flat_map_concat_map, concat_map, map_map.
  rewrite flat_map_concat_map. f_equal. apply map_ext. intro j.
  rewrite !map_map. apply map_ext. intro r. symmetry. apply map_nth.
Qed.

Lemma scale_frac_nan (lo hi : fnum) : scale_frac lo hi NaN = NaN.
Proof.
  unfold scale_frac. destruct (rescaling lo hi); [|reflexivity].
  unfold clip. simpl. reflexivity.
Qed.

Lemma nth_nth_map {A B} (f : A -> B) (d : A) (d' : B) (m : list (list A))
  (i j : nat) :
  f d = d' ->
  nth j (nth i (map (map f) m) []) d' = f (nth j (nth i m []) d).
Proof.
  intros <-. change (@nil B) with (map f []). rewrite map_nth. apply map_nth.
Qed.

Lemma stats_rows (a : args) (p : plot) :
  dotplot2 a = Ok p ->
  List.length (frac (p_stats p)) = p_n_group p /\
  List.length (avg (p_stats p)) = p_n_group p.
Proof.
  intro H. destruct (dotplot2_stats a p H) as [-> ->]. simpl.
  rewrite aggregated_frac, aggregated_avg, !length_map. split; reflexivity.
Qed.

(** X8.  The scatter of the main axis has exactly one dot for every
    (group, key) cell of the statistics, n_key * n_group dots in all: the
    dots are a permutation of the cells, each at its position (mirrored
    on the group axis under [swap_axis]) with the mean and the size of
    its cell. *)
Theorem every_cell_drawn_once (a : args) (p : plot) :
  dotplot2 a = Ok p ->
  Permutation
    (dots (g_scatter (p_grid p)))
    (flat_map (fun j => map (fun i => drawn_cell (swap_axis a) p i j)
                            (seq 0 (p_n_group p)))
              (seq 0 (n_key (p_stats p)))) /\
  List.length (dots (g_scatter (p_grid p))) = (n_key (p_stats p) * p_n_group p)%nat.
Proof.
  intro H. destruct (stats_rows a p H) as [Lf La].
  rewrite (dotplot2_grid a p H).
  set (k := n_key (p_stats p)). set (g := p_n_group p).
  set (lo := p_dot_min p). set (hi := p_dot_max p).
  rewrite flatten_T_map.
  replace (dot_size NaN) with NaN by reflexivity.
  set (sizes := map (map dot_size) (map (map (scale_frac lo hi)) (frac (p_stats p)))).
  assert (Ls : List.length sizes = g).
  { unfold sizes. rewrite !length_map. exact Lf. }
  assert (Sz : sizes
               = map (map (fun f => dot_size (scale_frac lo hi f))) (frac (p_stats p))).
  { unfold sizes. rewrite map_map. apply map_ext. intro r. apply map_map. }
  assert (P : dots (g_scatter (draw_grid false k g (keys a) (group_label (p_stats p))
                                 (flatten_T NaN k (avg (p_stats p)))
                                 (flatten_T NaN k sizes)))
              = flat_map (fun j => map (fun i => drawn_cell false p i j) (seq 0 g))
                         (seq 0 k)).
  { rewrite (plain_grid_dots NaN NaN k g _ _ _ _ La Ls).
    apply flat_map_ext. intro j. apply map_ext. intro i.
    unfold cell_dot, drawn_cell. f_equal. rewrite Sz.
    apply (nth_nth_map (fun f => dot_size (scale_frac lo hi f))).
    rewrite scale_frac_nan. reflexivity. }
  assert (Lc : List.length (flatten_T NaN k (avg (p_stats p))) = (k * g)%nat)
    by (rewrite flatten_T_length, La; reflexivity).
  assert (Lz : List.length (flatten_T NaN k sizes) = (k * g)%nat)
    by (rewrite flatten_T_length, Ls; reflexivity).
  assert (N : List.length
                (flat_map (fun j => map (fun i => drawn_cell false p i j) (seq 0 g))
                          (seq 0 k)) = (k * g)%nat).
  { rewrite <- P. unfold dots, draw_grid. simpl.
    rewrite zip_dots_length; rewrite ?tile_length, ?repeat_length, ?length_seq; lia. }
  destruct (swap_axis a).
  - rewrite (swap_axis_dots k g _ _ _ _ Lc Lz), P. split.
    + rewrite <- Permutation_rev.
      rewrite flat_map_concat_map, concat_map, map_map, <- flat_map_concat_map.
      apply Permutation_refl'. apply flat_map_ext. intro j.
      rewrite map_map. reflexivity.
    + rewrite length_rev, length_map. exact N.
  - rewrite P. split; [apply Permutation_refl | exact N].
Qed.

Lemma every_cell_drawn_once_witness :
  exists p,
    dotplot2 (swap_example true) = Ok p /\
    List.length (dots (g_scatter (p_grid p))) = (n_key (p_stats p) * p_n_group p)%nat.
Proof.
  assert (E : exists p, dotplot2 (swap_example true) = Ok p)
    by (eexists; vm_compute; reflexivity).
  destruct E as [p E]. exists p. split; [exact E|].
  exact (proj2 (every_cell_drawn_once (swap_example true) p E)).
Defined.

(** ** Calls that return *)

Lemma aggregated_n_key (a : args) :
  n_key (aggregated a)
  = if second_key_dependent_fraction a then 1%nat else List.length (keys a).
Proof.
  unfold aggregated, aggregate. destruct (second_key_dependent_fraction a); reflexivity.
Qed.

Lemma quarter_over_pos (n : nat) : n <> 0%nat -> quarter_over n = Ok (0.25 / Qnat n).
Proof. destruct n; [congruence | reflexivity]. Qed.

Lemma make_panels_standalone (k g : nat) (swap : bool) (loc : legend_loc) :
  k <> 0%nat -> g <> 0%nat ->
  exists pn, make_panels k g swap loc None = Ok pn /\ creates_figure pn = true.
Proof.
  intros Hk Hg. unfold make_panels, bind.
  destruct loc, swap; rewrite ?(quarter_over_pos k Hk), ?(quarter_over_pos g Hg);
    eexists; split; reflexivity.
Qed.




(** ** Means and counts *)

Lemma Qsum_nonneg (l : list Q) : Forall (fun v => 0 <= v) l -> 0 <= Qsum l.
Proof.
  induction 1 as [|v l Hv _ IH]; simpl; [lra|]. lra.
Qed.

Lemma Qsum_none_positive (l : list Q) :
  Forall (fun v => 0 <= v) l -> count_pos l = 0%nat -> Qsum l == 0.
Proof.
  unfold count_pos. induction 1 as [|v l Hv _ IH]; simpl; [reflexivity|].
  unfold pos at 1. destruct (Qltb 0 v) eqn:E; simpl; [discriminate|].
  intro C. apply Qltb_false in E. rewrite (IH C). lra.
Qed.

Lemma column_nonneg (g : frame) (j : nat) :
  Forall (fun r => 0 <= nth j (vals r) 0) g -> Forall (fun v => 0 <= v) (column j g).
Proof. intro H. unfold column. apply Forall_map. exact H. Qed.

Lemma Qnat_pos (n : nat) : n <> 0%nat -> 0 < Qnat n.
Proof.
  intro H. unfold Qnat. change 0 with (inject_Z 0). rewrite <- Zlt_Qlt. lia.
Qed.

Lemma Qnat_le (n m : nat) : (n <= m)%nat -> Qnat n <= Qnat m.
Proof. intro H. unfold Qnat. rewrite <- Zle_Qle. lia. Qed.

Lemma fdiv_by_count (s : Q) (n : nat) :
  n <> 0%nat -> fdiv (Fin s) (of_nat n) = Fin (s / inject_Z (Z.of_nat n)).
Proof.
  intro H. unfold fdiv, of_nat.
  destruct (Qeq_bool (inject_Z (Z.of_nat n)) 0) eqn:E; [|reflexivity].
  apply Qeq_bool_iff in E. unfold Qeq in E. simpl in E. lia.
Qed.

(** X10.  For a group with at least one row and no negative value,
    both means of a key are numbers, the mean over all observations is
    not negative and at most the mean over the expressing observations
    ([mean_only_expressed]); when no observation expresses the key both
    are 0 (the 0/0 of line 223 is filled with 0). *)
Theorem mean_expressed_at_least_mean_all (g : frame) (j : nat) :
  g <> [] ->
  Forall (fun r => 0 <= nth j (vals r) 0) g ->
  exists m_all m_exp,
    avg0_cell g j = Fin m_all /\
    avg1_cell g j = Fin m_exp /\
    0 <= m_all /\ m_all <= m_exp /\
    (exp_cnt_cell g j = 0%nat -> m_all == 0 /\ m_exp == 0).
Proof.
  intros Hne Hpos.
  pose proof (column_nonneg g j Hpos) as Hc.
  pose proof (Qsum_nonneg _ Hc) as Hs.
  assert (Hn : List.length g <> 0%nat) by (destruct g; [congruence | discriminate]).
  assert (Hle : (count_pos (column j g) <= List.length g)%nat).
  { rewrite <- (length_map (fun r => nth j (vals r) 0) g). apply count_pos_le. }
  pose proof (Qnat_pos _ Hn) as Pn. unfold Qnat in Pn.
  unfold avg0_cell, avg1_cell, exp_cnt_cell.
  rewrite (fdiv_by_count _ _ Hn).
  destruct (count_pos (column j g)) as [|c] eqn:C.
  - pose proof (Qsum_none_positive _ Hc C) as Z0.
    unfold fdiv, of_nat. simpl (Qeq_bool _ _).
    unfold Qsign. rewrite (proj1 (Qeq_alt _ _) Z0). simpl.
    eexists. exists 0. split; [reflexivity|]. split; [reflexivity|].
    assert (D : Qsum (column j g) / inject_Z (Z.of_nat (List.length g)) == 0)
      by (rewrite Z0; field; lra).
    rewrite D. repeat split; lra.
  - assert (Hc1 : S c <> 0%nat) by discriminate.
    rewrite (fdiv_by_count _ _ Hc1). cbn [fillna0].
    pose proof (Qnat_pos _ Hc1) as Pc. unfold Qnat in Pc.
    pose proof (Qnat_le _ _ Hle) as Lc. unfold Qnat in Lc.
    eexists. eexists. split; [reflexivity|]. split; [reflexivity|].
    set (s := Qsum (column j g)) in *.
    set (n := inject_Z (Z.of_nat (List.length g))) in *.
    set (k := inject_Z (Z.of_nat (S c))) in *.
    clearbody s n k.
    split; [apply Qle_shift_div_l; lra|].
    split; [|discriminate].
    apply Qle_shift_div_r; [exact Pn|].
    assert (Q1 : s / k * n == s * (n / k)) by (field; lra).
    assert (Q2 : 1 <= n / k) by (apply Qle_shift_div_l; lra).
    nra.
Qed.

Lemma mean_expressed_at_least_mean_all_witness :
  exists m_all m_exp,
    avg0_cell [ {| group := "A"; vals := [3] |}; {| group := "A"; vals := [0] |} ] 0
    = Fin m_all /\
    avg1_cell [ {| group := "A"; vals := [3] |}; {| group := "A"; vals := [0] |} ] 0
    = Fin m_exp /\
    0 <= m_all /\ m_all <= m_exp.
Proof.
  destruct (mean_expressed_at_least_mean_all
              [ {| group := "A"; vals := [3] |}; {| group := "A"; vals := [0] |} ]
              0%nat) as (x & y & A & B & C & D & _).
  - discriminate.
  - repeat constructor; discriminate.
  - exists x, y. repeat split; assumption.
Defined.

Lemma filter_andb_le {A} (f h : A -> bool) (l : list A) :
  (List.length (filter (fun x => f x && h x) l) <= List.length (filter f l))%nat.
Proof.
  induction l as [|x l IH]; simpl; [lia|].
  destruct (f x), (h x); simpl; lia.
Qed.

Lemma count_pos_column (g : frame) (j : nat) :
  count_pos (column j g)
  = List.length (filter (fun r => pos (nth j (vals r) 0)) g).
Proof.
  unfold count_pos, column. induction g as [|r g IH]; simpl; auto.
  destruct (pos (nth j (vals r) 0)); simpl; rewrite <- IH; reflexivity.
Qed.

Lemma joint_rows_count (g : frame) :
  Forall (fun r => List.length (vals r) = 2%nat) g ->
  exp_cnt_joint g
  = List.length
      (filter (fun r => pos (nth 0 (vals r) 0) && pos (nth 1 (vals r) 0)) g).
Proof.
  intro H. unfold exp_cnt_joint, joint_rows. f_equal.
  apply filter_ext_in. intros r Hr.
  rewrite Forall_forall in H. specialize (H r Hr).
  unfold row_npos, count_pos.
  destruct (vals r) as [|v0 [|v1 [|]]]; try discriminate H. simpl.
  destruct (pos v0), (pos v1); reflexivity.
Qed.

(** X11.  With two keys, the number of observations that express
    both ([second_key_dependent_fraction]) is at most the number that
    express each of them, and in a group with at least one row the joint
    fraction is at most each single fraction. *)
Theorem joint_count_at_most_each_count (g : frame) :
  Forall (fun r => List.length (vals r) = 2%nat) g ->
  (exp_cnt_joint g <= exp_cnt_cell g 0)%nat /\
  (exp_cnt_joint g <= exp_cnt_cell g 1)%nat /\
  (g <> [] ->
   exists fj f0 f1,
     frac_joint g = Fin fj /\ frac_cell g 0 = Fin f0 /\ frac_cell g 1 = Fin f1 /\
     fj <= f0 /\ fj <= f1).
Proof.
  intro H.
  assert (A0 : (exp_cnt_joint g <= exp_cnt_cell g 0)%nat).
  { rewrite (joint_rows_count g H). unfold exp_cnt_cell.
    rewrite count_pos_column. apply filter_andb_le. }
  assert (A1 : (exp_cnt_joint g <= exp_cnt_cell g 1)%nat).
  { rewrite (joint_rows_count g H). unfold exp_cnt_cell.
    rewrite count_pos_column.
    erewrite filter_ext; [apply (filter_andb_le (fun r => pos (nth 1 (vals r) 0))
                                   (fun r => pos (nth 0 (vals r) 0)))|].
    intro r. apply andb_comm. }
  split; [exact A0|]. split; [exact A1|].
  intro Hne.
  assert (Hn : List.length g <> 0%nat) by (destruct g; [congruence | discriminate]).
  unfold frac_joint, frac_cell. fold (exp_cnt_joint g).
  fold (exp_cnt_cell g 0) (exp_cnt_cell g 1).
  destruct (of_nat_div (exp_cnt_joint g) _ Hn) as (fj & -> & Ej).
  destruct (of_nat_div (exp_cnt_cell g 0) _ Hn) as (f0 & -> & E0).
  destruct (of_nat_div (exp_cnt_cell g 1) _ Hn) as (f1 & -> & E1).
  exists fj, f0, f1. repeat (split; [reflexivity|]).
  pose proof (Qnat_pos _ Hn) as Pn.
  pose proof (Qnat_le _ _ A0) as L0. pose proof (Qnat_le _ _ A1) as L1.
  rewrite Ej, E0, E1. unfold Qdiv.
  assert (0 <= / Qnat (List.length g)) by (apply Qinv_le_0_compat; lra).
  split; apply Qmult_le_compat_r; assumption.
Qed.

Lemma joint_count_at_most_each_count_witness :
  (exp_cnt_joint (df joint_example) <= exp_cnt_cell (df joint_example) 0)%nat.
Proof.
  apply (proj1 (joint_count_at_most_each_count (df joint_example)
                  ltac:(vm_compute; repeat constructor))).
Defined.

(** ** A category without rows and an unset [dot_max] *)

Lemma empty_category_has_nan (a : args) (c : string) :
  (min_presence a <= 0)%Z ->
  In c (categories a) ->
  kept_rows a c = [] ->
  second_key_dependent_fraction a = true \/ keys a <> [] ->
  In NaN (List.concat
            (zero_absent (min_presence a) (exp_cnt (aggregated a))
               (frac (aggregated a)))).
Proof.
  intros Hm Hc He Hk. rewrite aggregated_frac. apply in_concat.
  eexists. split; [apply in_map; exact Hc|]. cbv beta. rewrite He.
  assert (Z0 : forall n, zero_if (min_presence a) 0 n = n).
  { intro n. unfold zero_if. destruct (Z.ltb_spec (Z.of_nat 0) (min_presence a));
      [lia | reflexivity]. }
  destruct (second_key_dependent_fraction a).
  - left. apply Z0.
  - destruct Hk as [Hk | Hk]; [discriminate|].
    destruct (keys a) as [|k ks]; [congruence|]. left. apply Z0.
Qed.

(** X12.  When [dot_max] is not given and some category has no row
    (with [min_presence] not positive), the fractions of that category
    are [nan] and so is the derived [dot_max]: where the call returns,
    every dot size is [nan] and there is no legend; with a legend
    ('right' or 'bottom' and no [ax]) the call raises ValueError. *)
Theorem empty_category_blanks_default_plot (a : args) (c : string) :
  dot_max a = None ->
  (min_presence a <= 0)%Z ->
  In c (categories a) ->
  kept_rows a c = [] ->
  second_key_dependent_fraction a = true \/ keys a <> [] ->
  (forall p, dotplot2 a = Ok p ->
             p_dot_max p = NaN /\
             Forall (eq NaN) (sc_s (g_scatter (p_grid p))) /\
             p_legend p = None) /\
  (ax a = None -> legend_location a <> LegendNone ->
   dotplot2 a = Raise ValueError).
Proof.
  intros Emax Hm Hc He Hk.
  pose proof (empty_category_has_nan a c Hm Hc He Hk) as N.
  destruct (nan_fraction_spoils_bounds _ N) as (R & Sz & L).
  split.
  - intros p H.
    assert (D : p_dot_max p = NaN /\ p_legend p = None).
    { unfold dotplot2, bind in H. fold (aggregated a) in H.
      rewrite Emax, R in H.
      destruct (_ && _); [discriminate|].
      destruct (resolve_dot_min _) as [lo|]; [|discriminate].
      destruct (make_panels _ _ _ _ _); [|discriminate].
      destruct (effective_legend_loc _ _); rewrite ?L in H; try discriminate;
        destruct (_ && _); try discriminate; injection H as <-; split; reflexivity. }
    destruct D as [D1 D2]. split; [exact D1|]. split; [|exact D2].
    rewrite (dotplot2_grid a p H), D1.
    assert (A : Forall (eq NaN)
                  (map dot_size
                     (flatten_T NaN (n_key (p_stats p))
                        (map (map (scale_frac (p_dot_min p) NaN)) (frac (p_stats p)))))).
    { apply Forall_map.
      eapply Forall_impl;
        [| apply (flatten_T_Forall (eq NaN)); [reflexivity|] ].
      - intros ? <-. reflexivity.
      - apply Forall_map, Forall_forall. intros r _.
        apply Forall_map, Forall_forall. intros f _.
        symmetry. apply scale_frac_nan_bound. }
    unfold draw_grid. destruct (swap_axis a); simpl; [apply Forall_rev|]; exact A.
  - intros Hax Hloc. unfold dotplot2, bind. fold (aggregated a).
    rewrite Emax, R, Hax. cbn [effective_legend_loc].
    destruct (second_key_dependent_fraction a) eqn:J.
    + destruct (Nat.eqb (List.length (keys a)) 2); simpl; [|reflexivity].
      destruct (resolve_dot_min (dot_min a)) as [lo | e] eqn:Rm.
      2:{ unfold resolve_dot_min in Rm.
          destruct (dot_min a); [destruct (_ || _)|]; congruence. }
      assert (K : n_key (aggregated a) <> 0%nat)
        by (rewrite aggregated_n_key, J; discriminate).
      assert (G : n_group (categories a)
                    (filter_min_group_size (categories a) (df a) (min_group_size a))
                  <> 0%nat)
        by (unfold n_group; destruct (categories a); [contradiction | discriminate]).
      destruct (make_panels_standalone _ _ (swap_axis a) (legend_location a) K G)
        as (pn & -> & _).
      destruct (legend_location a); [| |congruence]; rewrite L; reflexivity.
    + simpl.
      destruct (resolve_dot_min (dot_min a)) as [lo | e] eqn:Rm.
      2:{ unfold resolve_dot_min in Rm.
          destruct (dot_min a); [destruct (_ || _)|]; congruence. }
      assert (K : n_key (aggregated a) <> 0%nat).
      { rewrite aggregated_n_key, J. destruct Hk as [Hk | Hk]; [discriminate|].
        destruct (keys a); [congruence | discriminate]. }
      assert (G : n_group (categories a)
                    (filter_min_group_size (categories a) (df a) (min_group_size a))
                  <> 0%nat)
        by (unfold n_group; destruct (categories a); [contradiction | discriminate]).
      destruct (make_panels_standalone _ _ (swap_axis a) (legend_location a) K G)
        as (pn & -> & _).
      destruct (legend_location a); [| |congruence]; rewrite L; reflexivity.
Qed.

Lemma empty_category_blanks_default_plot_witness :
  dotplot2 (empty_group_example LegendRight) = Raise ValueError.
Proof.
  assert (Hm : (min_presence (empty_group_example LegendRight) <= 0)%Z)
    by (simpl; lia).
  assert (Hc : In "B"%string (categories (empty_group_example LegendRight)))
    by (simpl; tauto).
  assert (He : kept_rows (empty_group_example LegendRight) "B" = [])
    by reflexivity.
  assert (Hk : second_key_dependent_fraction (empty_group_example LegendRight) = true
               \/ keys (empty_group_example LegendRight) <> [])
    by (right; discriminate).
  destruct (empty_category_blanks_default_plot (empty_group_example LegendRight)
              "B"%string eq_refl Hm Hc He Hk) as [_ R].
  apply R; [reflexivity | discriminate].
Defined.

(** * [make_palette] *)

Module PaletteFacts.

Import Palette.


End PaletteFacts.



(** * [clear_colors] *)

Module ColorsFacts.

Import Colors.

Lemma length_append (a b : string) :
  String.length (a ++ b) = (String.length a + String.length b)%nat.
Proof. induction a; simpl; congruence. Qed.

Lemma append_inj_l (a b s : string) : (a ++ s = b ++ s)%string -> a = b.
Proof.
  intro H.
  assert (L : String.length a = String.length b).
  { apply (f_equal String.length) in H. rewrite !length_append in H. lia. }
  revert b H L. induction a as [|c a IH]; intros [|c' b] H L; simpl in *;
    try discriminate; auto.
  injection H as -> H. f_equal. apply IH; [exact H | lia].
Qed.

Lemma colors_key_inj (s s' : string) : colors_key s = colors_key s' -> s = s'.
Proof. apply append_inj_l. Qed.

Lemma endswith_colors_key (s : string) : endswith (colors_key s) "_colors" = true.
Proof.
  induction s as [|c s IH]; [reflexivity|].
  change (colors_key (String c s)) with (String c (colors_key s)).
  cbn [endswith]. rewrite IH. apply orb_true_r.
Qed.

Lemma has_key_In {V} (uns : uns_t V) (k : string) :
  has_key uns k = true <-> In k (map fst uns).
Proof.
  unfold has_key. rewrite existsb_exists. split.
  - intros (kv & I & E). apply String.eqb_eq in E. subst. apply in_map. exact I.
  - intro I. apply in_map_iff in I. destruct I as (kv & <- & I).
    exists kv. split; [exact I | apply String.eqb_refl].
Qed.

Lemma del_key_keys {V} (uns : uns_t V) (k k' : string) :
  In k' (map fst (del_key uns k)) <-> In k' (map fst uns) /\ k' <> k.
Proof.
  unfold del_key. rewrite !in_map_iff. split.
  - intros (kv & <- & I). apply filter_In in I. destruct I as [I N].
    split; [exists kv; auto|].
    apply negb_true_iff in N. apply String.eqb_neq in N. exact N.
  - intros [(kv & <- & I) N]. exists kv. split; [reflexivity|].
    apply filter_In. split; [exact I|].
    apply negb_true_iff. apply String.eqb_neq. exact N.
Qed.

Lemma without_slots_cons {V} (uns : uns_t V) (s : string) (l : list string) :
  without_slots (del_key uns (colors_key s)) l = without_slots uns (s :: l).
Proof.
  unfold without_slots, del_key. induction uns as [|kv uns IH]; simpl; auto.
  destruct (String.eqb (fst kv) (colors_key s)) eqn:E; simpl.
  - exact IH.
  - destruct (isin (fst kv) (map colors_key l)); simpl; rewrite IH; reflexivity.
Qed.

Lemma without_slots_nil {V} (uns : uns_t V) : without_slots uns [] = uns.
Proof.
  unfold without_slots. induction uns as [|kv uns IH]; [reflexivity|].
  cbn. f_equal. exact IH.
Qed.

(** Deleting slots that are distinct and present never fails. *)
Lemma del_slots_present {V} (uns : uns_t V) (l : list string) :
  NoDup l ->
  Forall (fun s => In (colors_key s) (map fst uns)) l ->
  del_slots uns l = (without_slots uns l, Ok tt).
Proof.
  intros ND. revert uns. induction ND as [|s l N _ IH]; intros uns H.
  - simpl. rewrite without_slots_nil. reflexivity.
  - inversion H as [|? ? Hs Hl]; subst. simpl.
    rewrite (proj2 (has_key_In uns (colors_key s)) Hs).
    rewrite IH.
    + rewrite without_slots_cons. reflexivity.
    + apply Forall_forall. intros s' I.
      rewrite Forall_forall in Hl. apply del_key_keys. split; [auto|].
      intro E. apply colors_key_inj in E. subst. contradiction.
Qed.

Lemma color_slots_In {V} (uns : uns_t V) (k : string) :
  In k (color_slots uns) <-> In k (map fst uns) /\ endswith k "_colors" = true.
Proof.
  unfold color_slots. apply (filter_In (fun x => endswith x "_colors")).
Qed.

Lemma without_slots_ext {V} (uns : uns_t V) (l l' : list string) :
  (forall k, In k (map fst uns) ->
             (In k (map colors_key l) <-> In k (map colors_key l'))) ->
  without_slots uns l = without_slots uns l'.
Proof.
  intro H. unfold without_slots. apply filter_ext_in. intros kv I.
  assert (K : In (fst kv) (map fst uns)) by (apply in_map; exact I).
  specialize (H _ K). f_equal.
  destruct (isin (fst kv) (map colors_key l)) eqn:A,
           (isin (fst kv) (map colors_key l')) eqn:B; auto.
  - apply isin_In in A. apply H in A. apply isin_In in A. congruence.
  - apply isin_In in B. apply H in B. apply isin_In in B. congruence.
Qed.

Lemma NoDup_filter {A} (f : A -> bool) (l : list A) : NoDup l -> NoDup (filter f l).
Proof.
  induction 1 as [|x l N _ IH]; simpl; [constructor|].
  destruct (f x); [constructor; [|exact IH] | exact IH].
  intro I. apply filter_In in I. tauto.
Qed.

(** The slots that are given as a sequence. *)
Lemma clear_colors_seq {V} (uns : uns_t V) (l : list string) :
  NoDup l ->
  clear_colors uns (SlotsSeq l) = (without_slots uns l, Ok tt).
Proof.
  intro ND. unfold clear_colors, resolve_slots.
  rewrite del_slots_present.
  - f_equal. apply without_slots_ext. intros k K. rewrite !in_map_iff. split.
    + intros (s & <- & I). apply filter_In in I. exists s. tauto.
    + intros (s & <- & I). exists s. split; [reflexivity|].
      apply filter_In. split; [exact I|]. apply isin_In, color_slots_In.
      split; [exact K | apply endswith_colors_key].
  - apply NoDup_filter. exact ND.
  - apply Forall_forall. intros s I. apply filter_In in I. destruct I as [_ I].
    apply isin_In, color_slots_In in I. tauto.
Qed.

Lemma replace_stem (stem : string) :
  no_early stem = true ->
  replace "_colors" EmptyString (colors_key stem) = stem.
Proof.
  unfold replace. induction stem as [|c s IH]; [reflexivity|].
  intro H. cbn [no_early] in H. apply andb_true_iff in H. destruct H as [H1 H2].
  apply negb_true_iff in H1.
  change (colors_key (String c s)) with (String c (colors_key s)) in *.
  cbn [replace_from]. rewrite H1. f_equal. apply IH, H2.
Qed.

Lemma clear_colors_none {V} (uns : uns_t V) :
  NoDup (map fst uns) ->
  Forall (fun k => endswith k "_colors" = true -> colors_only_at_end k)
         (map fst uns) ->
  clear_colors uns SlotsNone
  = (filter (fun kv => negb (endswith (fst kv) "_colors")) uns, Ok tt).
Proof.
  intros ND H.
  assert (S : forall k, In k (color_slots uns) ->
                        colors_key (replace "_colors" EmptyString k) = k).
  { intros k I. apply color_slots_In in I. destruct I as [I E].
    rewrite Forall_forall in H. destruct (H k I E) as (stem & -> & N).
    rewrite (replace_stem stem N). reflexivity. }
  assert (M : map colors_key
                (map (replace "_colors" EmptyString) (color_slots uns))
              = color_slots uns).
  { rewrite map_map. rewrite <- (map_id (color_slots uns)) at 2.
    apply map_ext_in. exact S. }
  assert (NDc : NoDup (color_slots uns)).
  { unfold color_slots. apply NoDup_filter. exact ND. }
  assert (NDs : NoDup (map (replace "_colors" EmptyString)
                           (color_slots uns))).
  { apply (NoDup_map_inv colors_key). rewrite M. exact NDc. }
  assert (F : filter (fun s => isin (colors_key s) (color_slots uns))
                (map (replace "_colors" EmptyString) (color_slots uns))
              = map (replace "_colors" EmptyString) (color_slots uns)).
  { apply forallb_filter_id. apply forallb_forall. intros s I.
    apply in_map_iff in I. destruct I as (k & <- & I).
    rewrite (S k I). apply isin_In. exact I. }
  unfold clear_colors, resolve_slots. rewrite F.
  rewrite del_slots_present.
  - f_equal. unfold without_slots. rewrite M.
    apply filter_ext_in. intros kv I. f_equal.
    destruct (endswith (fst kv) "_colors") eqn:E.
    + apply isin_In, color_slots_In. split; [apply in_map; exact I | exact E].
    + apply not_true_iff_false. intro A.
      apply isin_In, color_slots_In in A. destruct A as [_ A]. congruence.
  - exact NDs.
  - apply Forall_forall. intros s I.
    apply in_map_iff in I. destruct I as (k & <- & I).
    rewrite (S k I). apply color_slots_In in I. tauto.
Qed.

Lemma del_key_absent {V} (uns : uns_t V) (k k' : string) :
  has_key uns k = false -> has_key (del_key uns k') k = false.
Proof.
  intro H. apply not_true_iff_false. intro A. apply has_key_In in A.
  apply del_key_keys in A. destruct A as [A _]. apply has_key_In in A. congruence.
Qed.

Lemma del_key_gone {V} (uns : uns_t V) (k : string) :
  has_key (del_key uns k) k = false.
Proof.
  apply not_true_iff_false. intro A. apply has_key_In in A.
  apply del_key_keys in A. destruct A as [_ A]. congruence.
Qed.

Lemma del_slots_missing {V} (l : list string) (s : string) : forall (uns : uns_t V),
  In s l -> has_key uns (colors_key s) = false ->
  snd (del_slots uns l) = Raise KeyError.
Proof.
  induction l as [|x l IH]; intros uns I H; [destruct I|].
  cbn [del_slots]. destruct (has_key uns (colors_key x)) eqn:E; [|reflexivity].
  destruct I as [-> | I]; [congruence|].
  apply IH; [exact I | apply del_key_absent; exact H].
Qed.

Lemma del_slots_twice {V} (l1 l2 l3 : list string) (s : string) (uns : uns_t V) :
  snd (del_slots uns (l1 ++ s :: l2 ++ s :: l3)) = Raise KeyError.
Proof.
  revert uns. induction l1 as [|x l1 IH]; intro uns.
  - cbn [app del_slots]. destruct (has_key uns (colors_key s)); [|reflexivity].
    apply (del_slots_missing _ s).
    + apply in_or_app. right. left. reflexivity.
    + apply del_key_gone.
  - cbn [app del_slots]. destruct (has_key uns (colors_key x)); [apply IH | reflexivity].
Qed.

Lemma filter_split {A} (f : A -> bool) (l1 l2 : list A) (x : A) :
  f x = true -> filter f (l1 ++ x :: l2) = filter f l1 ++ x :: filter f l2.
Proof.
  intro H. rewrite filter_app. cbn [filter]. rewrite H. reflexivity.
Qed.

End ColorsFacts.

(** X14.  For a list of distinct slot names, or for one name,
    [clear_colors] returns without raising and deletes exactly the
    entries '<slot>_colors' of the named slots: a named slot without
    colours is skipped and every other entry of [uns] stays. *)
Theorem clear_colors_given_slots {V} (uns : Colors.uns_t V) (l : list string)
  (s : string) :
  NoDup l ->
  Colors.clear_colors uns (Colors.SlotsSeq l) = (Colors.without_slots uns l, Ok tt) /\
  Colors.clear_colors uns (Colors.SlotsStr s) = (Colors.without_slots uns [s], Ok tt) /\
  (forall kv, In kv (Colors.without_slots uns l) <->
              In kv uns /\ ~ In (fst kv) (map Colors.colors_key l)).
Proof.
  intro ND. split; [apply ColorsFacts.clear_colors_seq; exact ND|]. split.
  - change (Colors.clear_colors uns (Colors.SlotsStr s))
      with (Colors.clear_colors uns (Colors.SlotsSeq [s])).
    apply ColorsFacts.clear_colors_seq. constructor; [tauto | constructor].
  - intro kv. unfold Colors.without_slots. rewrite filter_In, negb_true_iff.
    rewrite <- not_true_iff_false, isin_In. tauto.
Qed.

Lemma clear_colors_given_slots_witness :
  Colors.clear_colors [("a_colors"%string, 1%nat); ("b"%string, 2%nat)]
    (Colors.SlotsSeq ["a"%string; "z"%string])
  = (Colors.without_slots [("a_colors"%string, 1%nat); ("b"%string, 2%nat)]
       ["a"%string; "z"%string], Ok tt).
Proof.
  apply (proj1 (clear_colors_given_slots
                  [("a_colors"%string, 1%nat); ("b"%string, 2%nat)]
                  ["a"%string; "z"%string] "a"%string
                  ltac:(repeat constructor; simpl; intuition discriminate))).
Defined.

(** X15.  Without [slots], [clear_colors] deletes every entry whose
    key ends in '_colors' and no other, provided the keys are distinct
    and '_colors' occurs in such a key at its end only; no colour slot
    is left. *)
Theorem clear_colors_all {V} (uns : Colors.uns_t V) :
  NoDup (map fst uns) ->
  Forall (fun k => Colors.endswith k "_colors" = true -> Colors.colors_only_at_end k)
         (map fst uns) ->
  Colors.clear_colors uns Colors.SlotsNone
  = (filter (fun kv => negb (Colors.endswith (fst kv) "_colors")) uns, Ok tt) /\
  Colors.color_slots (fst (Colors.clear_colors uns Colors.SlotsNone)) = [].
Proof.
  intros ND H. rewrite (ColorsFacts.clear_colors_none uns ND H).
  split; [reflexivity|]. cbn [fst]. unfold Colors.color_slots.
  induction uns as [|[k v] uns IH]; [reflexivity|].
  inversion ND; subst. inversion H; subst.
  cbn [filter fst]. destruct (Colors.endswith k "_colors") eqn:E; cbn [negb].
  - apply IH; assumption.
  - cbn [map fst filter]. rewrite E. apply IH; assumption.
Qed.

Lemma clear_colors_all_witness :
  Colors.clear_colors [("leiden_colors"%string, 1%nat); ("pca"%string, 2%nat)]
    Colors.SlotsNone
  = ([("pca"%string, 2%nat)], Ok tt).
Proof.
  refine (proj1 (clear_colors_all
                   [("leiden_colors"%string, 1%nat); ("pca"%string, 2%nat)] _ _)).
  - repeat constructor; simpl; intuition discriminate.
  - repeat constructor.
    + intros _. exists "leiden"%string. split; reflexivity.
    + intro E. discriminate E.
Defined.

(** X16.  A slot that has colours and is listed twice makes
    [clear_colors] raise KeyError: the second deletion does not find the
    key. *)
Theorem clear_colors_repeated_slot {V} (uns : Colors.uns_t V)
  (l1 l2 l3 : list string) (s : string) :
  In (Colors.colors_key s) (map fst uns) ->
  snd (Colors.clear_colors uns (Colors.SlotsSeq (l1 ++ s :: l2 ++ s :: l3)))
  = Raise KeyError.
Proof.
  intro I. unfold Colors.clear_colors, Colors.resolve_slots.
  assert (P : isin (Colors.colors_key s) (Colors.color_slots uns) = true).
  { apply isin_In, ColorsFacts.color_slots_In.
    split; [exact I | apply ColorsFacts.endswith_colors_key]. }
  rewrite (ColorsFacts.filter_split
             (fun x => isin (Colors.colors_key x) (Colors.color_slots uns)) _ _ s P).
  rewrite (ColorsFacts.filter_split
             (fun x => isin (Colors.colors_key x) (Colors.color_slots uns)) _ _ s P).
  apply ColorsFacts.del_slots_twice.
Qed.

Lemma clear_colors_repeated_slot_witness :
  snd (Colors.clear_colors [("a_colors"%string, 1%nat); ("b"%string, 2%nat)]
         (Colors.SlotsSeq ([] ++ "a"%string :: [] ++ "a"%string :: [])))
  = Raise KeyError.
Proof.
  apply (clear_colors_repeated_slot
           [("a_colors"%string, 1%nat); ("b"%string, 2%nat)] [] [] [] "a"%string).
  simpl. left. reflexivity.
Defined.

(** X17.  Slots given as an iterable that is neither a list nor a
    tuple are not filtered (line 54): a slot without colours then raises
    KeyError, where the same slots in a list without repetition are
    skipped without an error. *)
Theorem clear_colors_unfiltered_iterable {V} (uns : Colors.uns_t V)
  (l : list string) (s : string) :
  In s l -> ~ In (Colors.colors_key s) (map fst uns) ->
  snd (Colors.clear_colors uns (Colors.SlotsOther l)) = Raise KeyError /\
  (NoDup l -> snd (Colors.clear_colors uns (Colors.SlotsSeq l)) = Ok tt).
Proof.
  intros I N. split.
  - unfold Colors.clear_colors, Colors.resolve_slots.
    apply (ColorsFacts.del_slots_missing _ s); [exact I|].
    apply not_true_iff_false. intro A. apply ColorsFacts.has_key_In in A. contradiction.
  - intro ND. rewrite (ColorsFacts.clear_colors_seq uns l ND). reflexivity.
Qed.

Lemma clear_colors_unfiltered_iterable_witness :
  snd (Colors.clear_colors [("a_colors"%string, 1%nat)]
         (Colors.SlotsOther ["a"%string; "z"%string])) = Raise KeyError.
Proof.
  refine (proj1 (clear_colors_unfiltered_iterable [("a_colors"%string, 1%nat)]
                   ["a"%string; "z"%string] "z"%string _ _)).
  - simpl. right. left. reflexivity.
  - simpl. intros [E | []]. discriminate E.
Defined.

(** * [highlight] *)

Module HighlightFacts.

Import Colors Highlight.

Lemma distinct_NoDup (l : list string) : distinct l = true <-> NoDup l.
Proof.
  induction l as [|x l IH]; simpl.
  - split; [constructor | reflexivity].
  - rewrite andb_true_iff, negb_true_iff, IH, <- not_true_iff_false, isin_In.
    split.
    + intros [A B]. constructor; assumption.
    + intro H. inversion H; subst. tauto.
Qed.

Lemma relabel_In (cells grp : list string) (g : string) :
  In g (relabel cells grp)
  <-> (In g cells /\ In g grp)
      \/ (g = "others"%string /\ exists c, In c cells /\ ~ In c grp).
Proof.
  unfold relabel. rewrite in_map_iff. split.
  - intros (v & E & I). destruct (isin v grp) eqn:B.
    + apply isin_In in B. subst. left. tauto.
    + right. split; [auto|]. exists v. split; [exact I|].
      intro A. apply isin_In in A. congruence.
  - intros [[A B] | [-> (c & A & B)]].
    + exists g. apply isin_In in B. rewrite B. tauto.
    + exists c. split; [|exact A].
      destruct (isin c grp) eqn:E; [apply isin_In in E; contradiction | reflexivity].
Qed.

Lemma prepare_all_ok (d : Palette.defaults) (hex_of : string -> nat -> string)
  (palette : option string) (cells : list string)
  (items : list (string * list string)) (u : uns_t (list string)) :
  Forall (fun item => reorder_ok cells (snd item) = true) items ->
  prepare d hex_of palette cells items u
  = (fold_left (store_palette d hex_of palette) items u, Ok tt).
Proof.
  intro H. revert u. induction H as [|[n g] items Hg _ IH]; intro u; simpl.
  - reflexivity.
  - simpl in Hg. rewrite Hg. apply IH.
Qed.

Lemma prepare_stops (d : Palette.defaults) (hex_of : string -> nat -> string)
  (palette : option string) (cells : list string)
  (before after : list (string * list string)) (item : string * list string)
  (u : uns_t (list string)) :
  Forall (fun it => reorder_ok cells (snd it) = true) before ->
  reorder_ok cells (snd item) = false ->
  prepare d hex_of palette cells (before ++ item :: after) u
  = (fold_left (store_palette d hex_of palette) before u, Raise ValueError).
Proof.
  intros H F. revert u. induction H as [|[n g] items Hg _ IH]; intro u; simpl.
  - destruct item as [n g]. simpl in F. rewrite F. reflexivity.
  - simpl in Hg. rewrite Hg. apply IH.
Qed.

Lemma set_key_keys {V} (u : uns_t V) (k : string) (v : V) (k' : string) :
  In k' (map fst (set_key u k v)) <-> k' = k \/ In k' (map fst u).
Proof.
  induction u as [|[k0 v0] u IH]; simpl.
  - intuition congruence.
  - destruct (String.eqb_spec k0 k); simpl.
    + subst. intuition congruence.
    + rewrite IH. intuition congruence.
Qed.

Lemma set_key_get {V} (u : uns_t V) (k : string) (v : V) :
  NoDup (map fst u) -> In (k, v) (set_key u k v) /\ NoDup (map fst (set_key u k v)).
Proof.
  induction u as [|[k0 v0] u IH]; simpl; intro ND.
  - split; [auto | constructor; [tauto | constructor]].
  - inversion ND; subst. destruct (String.eqb_spec k0 k); simpl.
    + subst. split; [auto | constructor; assumption].
    + destruct (IH H2) as [A B]. split; [auto|].
      constructor; [|exact B]. rewrite set_key_keys. intuition congruence.
Qed.

Lemma fold_store_keys (d : Palette.defaults) (hex_of : string -> nat -> string)
  (palette : option string) (items : list (string * list string))
  (u : uns_t (list string)) (k : string) :
  In k (map fst (fold_left (store_palette d hex_of palette) items u))
  <-> In k (map fst u) \/ In k (map (fun it => colors_key (fst it)) items).
Proof.
  revert u. induction items as [|it items IH]; intro u; simpl.
  - tauto.
  - rewrite IH. unfold store_palette. rewrite set_key_keys.
    intuition congruence.
Qed.

End HighlightFacts.

(** X18.  In [highlight] with a dict of groups, the categories
    [grp + ['others']] of a group list are accepted on line 607 exactly
    when the list has no repetition, does not contain 'others', every
    listed group occurs in the column, and some cell lies outside the
    list. *)
Theorem highlight_group_list_accepted (cells grp : list string) :
  Highlight.reorder_ok cells grp = true
  <-> NoDup grp /\ ~ In "others"%string grp /\
      (forall g, In g grp -> In g cells) /\
      (exists c, In c cells /\ ~ In c grp).
Proof.
  unfold Highlight.reorder_ok.
  rewrite andb_true_iff, HighlightFacts.distinct_NoDup, forallb_forall.
  split.
  - intros [ND F].
    apply NoDup_remove in ND. destruct ND as [ND NI].
    rewrite !app_nil_r in *.
    split; [exact ND|]. split; [exact NI|]. split.
    + intros g I.
      assert (A : In g (grp ++ ["others"%string])) by (apply in_or_app; tauto).
      specialize (F g A). apply isin_In, HighlightFacts.relabel_In in F.
      destruct F as [[F _] | [-> _]]; [exact F | contradiction].
    + assert (A : In "others"%string (grp ++ ["others"%string]))
        by (apply in_or_app; simpl; tauto).
      specialize (F _ A). apply isin_In, HighlightFacts.relabel_In in F.
      destruct F as [[_ F] | [_ F]]; [contradiction | exact F].
  - intros (ND & NI & A & B). split.
    + apply NoDup_app; [exact ND | constructor; [tauto | constructor] |].
      intros x Ix [<- | []]. contradiction.
    + intros g I. apply isin_In, HighlightFacts.relabel_In.
      apply in_app_or in I. destruct I as [I | [<- | []]].
      * left. split; [apply A; exact I | exact I].
      * right. split; [reflexivity | exact B].
Qed.

(** X19.  When a group list of the dict is refused, [highlight]
    raises ValueError before its [try] block is entered: [adata.obs] is
    the caller's, and the palettes stored for the earlier items of the
    dict stay in [adata.uns], as [clear_colors] is not reached. *)
Theorem highlight_failed_group_keeps_palettes (d : Palette.defaults)
  (hex_of : string -> nat -> string) (env : Highlight.externals)
  (palette : option string) (cells : list string)
  (before after : list (string * list string)) (item : string * list string)
  (st : Highlight.state) :
  Highlight.figsize_valid env = true ->
  Forall (fun it => Highlight.reorder_ok cells (snd it) = true) before ->
  Highlight.reorder_ok cells (snd item) = false ->
  let r := Highlight.highlight d hex_of env palette cells
             (Highlight.GroupsDict (before ++ item :: after)) st in
  snd r = Raise ValueError /\
  Highlight.obs (fst r) = Highlight.obs st /\
  Highlight.uns (fst r)
  = fold_left (Highlight.store_palette d hex_of palette) before (Highlight.uns st) /\
  forall it, In it before ->
             In (Colors.colors_key (fst it)) (map fst (Highlight.uns (fst r))).
Proof.
  intros FS B F r. subst r. unfold Highlight.highlight. rewrite FS. cbn [negb].
  rewrite (HighlightFacts.prepare_stops d hex_of palette cells before after item
             (Highlight.uns st) B F).
  cbn [fst snd Highlight.obs Highlight.uns].
  repeat split.
  intros it I. apply HighlightFacts.fold_store_keys. right.
  apply (in_map (fun it => Colors.colors_key (fst it))). exact I.
Qed.

Lemma highlight_failed_group_keeps_palettes_witness :
  snd (Highlight.highlight palette_defaults_example (fun _ _ => "#440154"%string)
         highlight_env_example None ["a"%string; "b"%string]
         (Highlight.GroupsDict
            ([("first"%string, ["a"%string])]
             ++ ("second"%string, ["a"%string; "b"%string]) :: []))
         highlight_state_example)
  = Raise ValueError.
Proof.
  refine (proj1 (highlight_failed_group_keeps_palettes palette_defaults_example
                   (fun _ _ => "#440154"%string) highlight_env_example None
                   ["a"%string; "b"%string] [("first"%string, ["a"%string])] []
                   ("second"%string, ["a"%string; "b"%string])
                   highlight_state_example eq_refl _ eq_refl)).
  repeat constructor.
Defined.

(** X20.  A call of [highlight] that reaches [plot_scatter] ends
    with [adata.obs] as the caller gave it and with every '_colors' entry
    removed from [adata.uns], those that were there before the call
    included, whether [plot_scatter] raises or not; the other entries
    stay. *)
Theorem highlight_clears_color_slots (d : Palette.defaults)
  (hex_of : string -> nat -> string) (env : Highlight.externals)
  (palette : option string) (cells : list string)
  (groups : Highlight.groups_t) (st : Highlight.state)
  (u : Colors.uns_t (list string)) :
  Highlight.figsize_valid env = true ->
  ((exists l, groups = Highlight.GroupsSeq l) /\
   Highlight.get_dummies_raises env = false /\ u = Highlight.uns st)
  \/ (exists items,
        groups = Highlight.GroupsDict items /\
        Forall (fun it => Highlight.reorder_ok cells (snd it) = true) items /\
        u = fold_left (Highlight.store_palette d hex_of palette) items
              (Highlight.uns st)) ->
  NoDup (map fst (Highlight.plot_scatter_uns env u)) ->
  Forall (fun k => Colors.endswith k "_colors" = true -> Colors.colors_only_at_end k)
         (map fst (Highlight.plot_scatter_uns env u)) ->
  Highlight.highlight d hex_of env palette cells groups st
  = ({| Highlight.obs := Highlight.obs st;
        Highlight.uns := Highlight.other_slots (Highlight.plot_scatter_uns env u) |},
     if Highlight.plot_scatter_raises env then Raise LibraryError else Ok tt).
Proof.
  intros FS G ND E.
  assert (P : Highlight.plot_and_restore env (Highlight.obs st) u
              = ({| Highlight.obs := Highlight.obs st;
                    Highlight.uns :=
                      Highlight.other_slots (Highlight.plot_scatter_uns env u) |},
                 if Highlight.plot_scatter_raises env
                 then Raise LibraryError else Ok tt)).
  { unfold Highlight.plot_and_restore. cbn [Highlight.obs Highlight.uns].
    rewrite (ColorsFacts.clear_colors_none _ ND E). reflexivity. }
  unfold Highlight.highlight. rewrite FS. cbn [negb].
  destruct G as [([l ->] & GD & ->) | (items & -> & F & ->)].
  - rewrite GD. exact P.
  - rewrite (HighlightFacts.prepare_all_ok d hex_of palette cells items _ F).
    exact P.
Qed.

Lemma highlight_clears_color_slots_witness :
  Highlight.highlight palette_defaults_example (fun _ _ => "#440154"%string)
    highlight_env_example None ["a"%string; "b"%string]
    (Highlight.GroupsSeq ["a"%string]) highlight_state_example
  = ({| Highlight.obs := Highlight.ObsOfCaller;
        Highlight.uns := [("neighbors"%string, [])] |}, Ok tt).
Proof.
  refine (highlight_clears_color_slots palette_defaults_example
            (fun _ _ => "#440154"%string) highlight_env_example None
            ["a"%string; "b"%string] (Highlight.GroupsSeq ["a"%string])
            highlight_state_example (Highlight.uns highlight_state_example)
            eq_refl _ _ _).
  - left. split; [exists ["a"%string]; reflexivity | split; reflexivity].
  - simpl. repeat constructor; simpl; intuition discriminate.
  - simpl. repeat constructor.
    + intros _. exists "leiden"%string. split; reflexivity.
    + intro E. discriminate E.
    + intros _. exists "a"%string. split; reflexivity.
Defined.

(** * [plot_metric_by_rank] *)

Module RankFacts.

Import Colors Rank.

Lemma index1_nat {A} (arr : list A) (i : nat) (d : A) :
  (i < List.length arr)%nat -> index1 arr (Z.of_nat i) = Ok (nth i arr d).
Proof.
  intro H. unfold index1.
  destruct (Z.ltb_spec (Z.of_nat i) 0) as [L|_]; [lia|].
  destruct (Z.leb_spec 0 (Z.of_nat i)) as [_|L]; [|lia].
  destruct (Z.ltb_spec (Z.of_nat i) (Z.of_nat (List.length arr))) as [_|L]; [|lia].
  cbn [andb]. rewrite Nat2Z.id.
  rewrite (nth_error_nth' arr d H). reflexivity.
Qed.

Lemma index_array_nat {A} (arr : list A) (k : list nat) (d : A) :
  Forall (fun i => (i < List.length arr)%nat) k ->
  index_array arr (map Z.of_nat k) = Ok (map (fun i => nth i arr d) k).
Proof.
  induction 1 as [|i k Hi _ IH]; [reflexivity|].
  cbn [map index_array]. rewrite (index1_nat arr i d Hi), IH. reflexivity.
Qed.

Lemma existsb_eqb_In (i : nat) (k : list nat) :
  existsb (Nat.eqb i) k = true <-> In i k.
Proof.
  rewrite existsb_exists. split.
  - intros (x & I & E). apply Nat.eqb_eq in E. subst. exact I.
  - intro I. exists i. split; [exact I | apply Nat.eqb_refl].
Qed.

Lemma is_argsort_spec (keys : list fnum) (k : list nat) :
  is_argsort keys k = true ->
  Permutation (seq 0 (List.length keys)) k /\
  ascending (map (fun i => nth i keys NaN) k) = true.
Proof.
  unfold is_argsort. rewrite !andb_true_iff. intros [[L F] S].
  split; [|exact S].
  apply Nat.eqb_eq in L. rewrite forallb_forall in F.
  apply NoDup_Permutation_bis.
  - apply seq_NoDup.
  - rewrite length_seq. lia.
  - intros i I. apply existsb_eqb_In, F, I.
Qed.

Lemma Permutation_in_range (n : nat) (k : list nat) :
  Permutation (seq 0 n) k -> Forall (fun i => (i < n)%nat) k.
Proof.
  intro P. apply Forall_forall. intros i I.
  apply (Permutation_in _ (Permutation_sym P)) in I.
  apply in_seq in I. lia.
Qed.

Lemma Permutation_take {A} (l : list A) (d : A) (k : list nat) :
  Permutation (seq 0 (List.length l)) k ->
  Permutation (map (fun i => nth i l d) k) l.
Proof.
  intro P. apply Permutation_sym.
  rewrite <- (map_id l) at 1.
  rewrite (map_nth_seq (fun x => x) d l).
  apply Permutation_map. exact P.
Qed.

Lemma keys_order (decr : bool) (a b : Q) :
  np_le (fmul (if decr then Fin (-1) else Fin 1) (Fin a))
        (fmul (if decr then Fin (-1) else Fin 1) (Fin b)) = true ->
  ordered decr a b.
Proof.
  destruct decr; cbn [fmul np_le fle ordered]; intro H;
    apply Qle_bool_iff in H; lra.
Qed.

Lemma ascending_sorted (decr : bool) (qs : list Q) (k : list nat) :
  Forall (fun i => (i < List.length qs)%nat) k ->
  ascending (map (fun i =>
               nth i (map (fmul (if decr then Fin (-1) else Fin 1)) (map Fin qs)) NaN) k)
  = true ->
  Sorted (ordered decr) (map (fun i => nth i qs 0) k).
Proof.
  intro F. induction F as [|i k Hi F IH]; intro H; [constructor|].
  cbn [map ascending] in H. cbn [map].
  destruct k as [|j k]; [repeat constructor|].
  cbn [map] in H. apply andb_true_iff in H. destruct H as [H1 H2].
  constructor; [apply IH; exact H2|].
  constructor. inversion F as [|? ? Hj _]; subst.
  apply keys_order.
  rewrite !map_map in H1.
  rewrite (nth_indep _ NaN (fmul (if decr then Fin (-1) else Fin 1) (Fin 0))) in H1
    by (rewrite length_map; exact Hi).
  rewrite (nth_indep (map _ qs) NaN (fmul (if decr then Fin (-1) else Fin 1) (Fin 0))) in H1
    by (rewrite length_map; exact Hj).
  rewrite !(map_nth (fun q => fmul (if decr then Fin (-1) else Fin 1) (Fin q))) in H1.
  exact H1.
Qed.

Lemma get_col_has_key (c : columns) (name : string) (v : list fnum) :
  get_col c name = Ok v -> has_key c name = true.
Proof.
  induction c as [|[k w] c IH]; cbn [get_col has_key existsb fst]; [discriminate|].
  destruct (String.eqb k name); [reflexivity|]. exact IH.
Qed.

Lemma add_metric_present (ar : args) (a : adata) (v : list fnum) :
  get_col (frame_of ar a) (metric ar) = Ok v -> add_metric ar a = a.
Proof.
  unfold frame_of, add_metric. intro H. apply get_col_has_key in H.
  destruct (is_cell ar); rewrite H; reflexivity.
Qed.

Lemma nth_Fin (qs : list Q) (k : list nat) :
  Forall (fun i => (i < List.length qs)%nat) k ->
  map (fun i => nth i (map Fin qs) NaN) k = map Fin (map (fun i => nth i qs 0) k).
Proof.
  intro F. rewrite map_map. apply map_ext_in. intros i I.
  rewrite Forall_forall in F.
  rewrite (nth_indep _ NaN (Fin 0)) by (rewrite length_map; apply F, I).
  apply (map_nth Fin).
Qed.

Lemma draw_rank_sorted (env : externals) (ar : args) (a : adata) (qs : list Q) :
  order ar = OrderTrue ->
  get_col (frame_of ar a) (metric ar) = Ok (map Fin qs) ->
  List.length qs = size_of ar a ->
  (forall cs, c ar = Some (ColorArr cs) -> List.length cs = List.length qs) ->
  let k := argsort env (map (fmul (order_modifier ar)) (map Fin qs)) in
  is_argsort (map (fmul (order_modifier ar)) (map Fin qs)) k = true ->
  exists x y,
    draw_rank env ar a = Ok (rank_artist ar (List.length qs) qs k, x, y) /\
    List.length x = List.length qs /\ List.length y = List.length qs.
Proof.
  intros O G L C k S.
  apply is_argsort_spec in S. destruct S as [P _].
  rewrite !length_map in P.
  assert (R := Permutation_in_range _ _ P).
  assert (Lk : List.length k = List.length qs).
  { rewrite <- (Permutation_length P). apply length_seq. }
  unfold draw_rank, rank_artist. rewrite G. cbn [bind].
  unfold resolve_order. rewrite O. fold k.
  rewrite (index_array_nat (map Fin qs) k NaN) by (rewrite length_map; exact R).
  cbn [bind]. rewrite (nth_Fin qs k R). rewrite <- L. cbv zeta.
  set (sorted := map Fin (map (fun i => nth i qs 0) k)).
  assert (Ls : List.length sorted = List.length qs).
  { unfold sorted. rewrite !length_map. exact Lk. }
  assert (Lr : List.length (ranks (List.length qs)) = List.length qs).
  { unfold ranks. rewrite length_map, length_seq. reflexivity. }
  set (x := if swap_axis ar then ranks (List.length qs) else sorted).
  set (y := if swap_axis ar then sorted else ranks (List.length qs)).
  assert (Lx : List.length x = List.length qs) by (unfold x; destruct (swap_axis ar); assumption).
  assert (Ly : List.length y = List.length qs) by (unfold y; destruct (swap_axis ar); assumption).
  assert (SL : same_length x y = true).
  { unfold same_length. rewrite Lx, Ly. apply Nat.eqb_refl. }
  exists x, y. split; [|split; assumption].
  unfold c_of in *. destruct (c ar) as [[| s | cs]|]; rewrite ?SL; try reflexivity.
  specialize (C cs eq_refl).
  rewrite (index_array_nat cs k EmptyString) by (rewrite C; exact R).
  cbn [bind andb].
  unfold same_length. rewrite length_map, Lk, Lx, Nat.eqb_refl. reflexivity.
Qed.

Lemma amin_ok (l : list fnum) : l <> [] -> exists m, amin l = Ok m.
Proof. destruct l; [congruence|]. intros _. eexists. reflexivity. Qed.

Lemma amax_ok (l : list fnum) : l <> [] -> exists m, amax l = Ok m.
Proof. destruct l; [congruence|]. intros _. eexists. reflexivity. Qed.

Lemma nonempty_length {A B} (l : list A) (l' : list B) :
  List.length l = List.length l' -> l' <> [] -> l <> [].
Proof. destruct l, l'; simpl; congruence. Qed.

Lemma finish_drawn (ar : args) (name : string) (art : artist) (x y : list fnum) :
  (hpos ar = None \/ x <> []) -> (vpos ar = None \/ y <> []) ->
  exists d, finish ar name (Some (art, x, y)) = Ok (Some d) /\ d_artist d = Some art.
Proof.
  intros H V. unfold finish.
  assert (HL : exists hl,
             match hpos ar with
             | None => Ok None
             | Some h => lo <- amin x ;; hi <- amax x ;; Ok (Some (h, lo, hi))
             end = Ok hl).
  { destruct (hpos ar) as [h|]; [|eexists; reflexivity].
    destruct H as [H|H]; [discriminate|].
    destruct (amin_ok x H) as [lo ->]. destruct (amax_ok x H) as [hi ->].
    eexists. reflexivity. }
  assert (VL : exists vl,
             match vpos ar with
             | None => Ok None
             | Some v => lo <- amin y ;; hi <- amax y ;; Ok (Some (v, lo, hi))
             end = Ok vl).
  { destruct (vpos ar) as [v|]; [|eexists; reflexivity].
    destruct V as [V|V]; [discriminate|].
    destruct (amin_ok y V) as [lo ->]. destruct (amax_ok y V) as [hi ->].
    eexists. reflexivity. }
  destruct HL as [hl ->]. destruct VL as [vl ->]. cbn [bind].
  eexists. split; reflexivity.
Qed.

Lemma rank_plot_result (env : externals) (ar : args) (a : adata) (qs : list Q) :
  kind ar = KindRank ->
  order ar = OrderTrue ->
  isin (subject ar) ["cell"; "gene"]%string = true ->
  metric_names (metric ar) <> None ->
  String.eqb (metric ar) "mt_prop" && negb (has_key (obs a) "mt_prop") = false ->
  get_col (frame_of ar a) (metric ar) = Ok (map Fin qs) ->
  List.length qs = size_of ar a ->
  (forall cs, c ar = Some (ColorArr cs) -> List.length cs = List.length qs) ->
  (hpos ar = None /\ vpos ar = None) \/ qs <> [] ->
  let k := argsort env (map (fmul (order_modifier ar)) (map Fin qs)) in
  is_argsort (map (fmul (order_modifier ar)) (map Fin qs)) k = true ->
  exists d,
    plot_metric_by_rank env ar a = (a, Ok (Some d)) /\
    d_artist d = Some (rank_artist ar (List.length qs) qs k).
Proof.
  intros K O S M MT G L C HV k A.
  destruct (draw_rank_sorted env ar a qs O G L C A) as (x & y & D & Lx & Ly).
  fold k in D.
  unfold plot_metric_by_rank. rewrite S. cbn [negb].
  destruct (metric_names (metric ar)) as [name|]; [|congruence].
  unfold add_mt_prop. rewrite MT, K.
  rewrite (add_metric_present ar a _ G). rewrite D. cbn [bind].
  destruct (finish_drawn ar name (rank_artist ar (List.length qs) qs k) x y)
    as (d & F & Art).
  - destruct HV as [[H _]|N]; [left; exact H | right].
    apply (nonempty_length _ qs Lx N).
  - destruct HV as [[_ V]|N]; [left; exact V | right].
    apply (nonempty_length _ qs Ly N).
  - exists d. rewrite F. split; [reflexivity | exact Art].
Qed.

Lemma get_col_absent (cl : columns) (name : string) :
  has_key cl name = false -> get_col cl name = Raise KeyError.
Proof.
  induction cl as [|[k v] cl IH]; cbn [get_col has_key existsb fst]; [reflexivity|].
  destruct (String.eqb k name); [discriminate|]. exact IH.
Qed.


End RankFacts.


(** X21.  With [order=True] the rank plot of a column of finite
    numbers shows its values sorted, descending under [decreasing] and
    ascending otherwise, as a permutation of the column, against the
    ranks 1, ..., n; [adata] is not changed. *)
Theorem rank_plot_sorted (env : Rank.externals) (ar : Rank.args) (a : Rank.adata)
  (qs : list Q) :
  Rank.kind ar = Rank.KindRank ->
  Rank.order ar = Rank.OrderTrue ->
  isin (Rank.subject ar) ["cell"; "gene"]%string = true ->
  Rank.metric_names (Rank.metric ar) <> None ->
  String.eqb (Rank.metric ar) "mt_prop"
  && negb (Colors.has_key (Rank.obs a) "mt_prop") = false ->
  Rank.get_col (Rank.frame_of ar a) (Rank.metric ar) = Ok (map Fin qs) ->
  List.length qs = Rank.size_of ar a ->
  (forall cs, Rank.c ar = Some (Rank.ColorArr cs) ->
              List.length cs = List.length qs) ->
  (Rank.hpos ar = None /\ Rank.vpos ar = None) \/ qs <> [] ->
  Rank.is_argsort (map (fmul (Rank.order_modifier ar)) (map Fin qs))
    (Rank.argsort env (map (fmul (Rank.order_modifier ar)) (map Fin qs))) = true ->
  exists d art sorted,
    Rank.plot_metric_by_rank env ar a = (a, Ok (Some d)) /\
    Rank.d_artist d = Some art /\
    Rank.metric_axis (Rank.swap_axis ar) art = map Fin sorted /\
    Rank.rank_axis (Rank.swap_axis ar) art = Rank.ranks (List.length qs) /\
    Permutation sorted qs /\
    Sorted (Rank.ordered (Rank.decreasing ar)) sorted.
Proof.
  intros K O S M MT G L C HV A.
  destruct (RankFacts.rank_plot_result env ar a qs K O S M MT G L C HV A) as (d & R & Art).
  apply RankFacts.is_argsort_spec in A. destruct A as [P Asc].
  rewrite !length_map in P.
  exists d, (Rank.rank_artist ar (List.length qs) qs
               (Rank.argsort env (map (fmul (Rank.order_modifier ar)) (map Fin qs)))),
    (map (fun i => nth i qs 0)
       (Rank.argsort env (map (fmul (Rank.order_modifier ar)) (map Fin qs)))).
  split; [exact R|]. split; [exact Art|].
  split; [|split; [|split]].
  - unfold Rank.rank_artist. cbv zeta.
    destruct (Rank.c_of ar), (Rank.swap_axis ar); reflexivity.
  - unfold Rank.rank_artist. cbv zeta.
    destruct (Rank.c_of ar), (Rank.swap_axis ar); reflexivity.
  - apply RankFacts.Permutation_take. exact P.
  - apply RankFacts.ascending_sorted.
    + apply (RankFacts.Permutation_in_range _ _ P).
    + exact Asc.
Qed.

(** X22.  With an array of colours in [c] and [order=True], the
    colours are reordered with the values: the (value, colour) pairs of
    the scatter are a permutation of the pairs of the column. *)
Theorem rank_plot_colors_follow (env : Rank.externals) (ar : Rank.args)
  (a : Rank.adata) (qs : list Q) (cs : list string) :
  Rank.kind ar = Rank.KindRank ->
  Rank.order ar = Rank.OrderTrue ->
  isin (Rank.subject ar) ["cell"; "gene"]%string = true ->
  Rank.metric_names (Rank.metric ar) <> None ->
  String.eqb (Rank.metric ar) "mt_prop"
  && negb (Colors.has_key (Rank.obs a) "mt_prop") = false ->
  Rank.get_col (Rank.frame_of ar a) (Rank.metric ar) = Ok (map Fin qs) ->
  List.length qs = Rank.size_of ar a ->
  Rank.c ar = Some (Rank.ColorArr cs) ->
  List.length cs = List.length qs ->
  (Rank.hpos ar = None /\ Rank.vpos ar = None) \/ qs <> [] ->
  Rank.is_argsort (map (fmul (Rank.order_modifier ar)) (map Fin qs))
    (Rank.argsort env (map (fmul (Rank.order_modifier ar)) (map Fin qs))) = true ->
  exists d art,
    Rank.plot_metric_by_rank env ar a = (a, Ok (Some d)) /\
    Rank.d_artist d = Some art /\
    Permutation (combine (Rank.metric_axis (Rank.swap_axis ar) art) (Rank.colors_of art))
                (combine (map Fin qs) cs).
Proof.
  intros K O S M MT G L Cc Lc HV A.
  assert (C : forall cs', Rank.c ar = Some (Rank.ColorArr cs') ->
                          List.length cs' = List.length qs).
  { intros cs' E. rewrite Cc in E. injection E as <-. exact Lc. }
  destruct (RankFacts.rank_plot_result env ar a qs K O S M MT G L C HV A) as (d & R & Art).
  apply RankFacts.is_argsort_spec in A. destruct A as [P _].
  rewrite !length_map in P.
  set (k := Rank.argsort env (map (fmul (Rank.order_modifier ar)) (map Fin qs))) in *.
  exists d, (Rank.rank_artist ar (List.length qs) qs k).
  split; [exact R|]. split; [exact Art|].
  assert (E : combine (Rank.metric_axis (Rank.swap_axis ar)
                         (Rank.rank_artist ar (List.length qs) qs k))
                      (Rank.colors_of (Rank.rank_artist ar (List.length qs) qs k))
              = map (fun i => nth i (combine (map Fin qs) cs) (Fin 0, EmptyString)) k).
  { unfold Rank.rank_artist, Rank.c_of. rewrite Cc. cbv zeta.
    cbn [Rank.metric_axis Rank.colors_of].
    replace (if Rank.swap_axis ar
             then if Rank.swap_axis ar
                  then map Fin (map (fun i => nth i qs 0) k)
                  else Rank.ranks (List.length qs)
             else if Rank.swap_axis ar
                  then Rank.ranks (List.length qs)
                  else map Fin (map (fun i => nth i qs 0) k))
      with (map Fin (map (fun i => nth i qs 0) k))
      by (destruct (Rank.swap_axis ar); reflexivity).
    rewrite map_map.
    generalize (RankFacts.Permutation_in_range _ _ P).
    revert Lc. clear. intro Lc. induction k as [|i k IH]; intro F; [reflexivity|].
    inversion F; subst. cbn [map combine]. f_equal; [|apply IH; assumption].
    rewrite combine_nth by (rewrite length_map; symmetry; assumption).
    f_equal. symmetry. apply (map_nth Fin). }
  rewrite E. apply RankFacts.Permutation_take.
  rewrite length_combine, length_map, Lc, Nat.min_id. exact P.
Qed.

(** X23.  [plot_metric_by_rank] raises NameError for an array of
    colours with [order=False], where the indices [k] of line 467 are not
    bound, and for a [kind] other than 'rank' and 'hist' with [hpos] or
    [vpos] given, where [x] and [y] are not bound. *)
Theorem rank_plot_unbound_name (env : Rank.externals) (ar : Rank.args)
  (a : Rank.adata) :
  isin (Rank.subject ar) ["cell"; "gene"]%string = true ->
  Rank.metric_names (Rank.metric ar) <> None ->
  String.eqb (Rank.metric ar) "mt_prop"
  && negb (Colors.has_key (Rank.obs a) "mt_prop") = false ->
  (Rank.kind ar = Rank.KindRank /\ Rank.order ar = Rank.OrderFalse /\
   (exists cs, Rank.c ar = Some (Rank.ColorArr cs)) /\
   exists v, Rank.get_col (Rank.frame_of ar a) (Rank.metric ar) = Ok v)
  \/ (Rank.kind ar = Rank.KindOther /\
      (Rank.hpos ar <> None \/ Rank.vpos ar <> None)) ->
  Rank.plot_metric_by_rank env ar a = (a, Raise NameError).
Proof.
  intros S M MT H.
  unfold Rank.plot_metric_by_rank. rewrite S. cbn [negb].
  destruct (Rank.metric_names (Rank.metric ar)) as [name|]; [|congruence].
  unfold Rank.add_mt_prop. rewrite MT.
  destruct H as [(K & O & (cs & C) & (v & G)) | (K & P)]; rewrite K.
  - rewrite (RankFacts.add_metric_present ar a _ G).
    unfold Rank.draw_rank, Rank.resolve_order, Rank.c_of.
    rewrite G, O, C. reflexivity.
  - unfold Rank.finish.
    destruct (Rank.hpos ar) as [h|]; [reflexivity|].
    destruct (Rank.vpos ar) as [v|]; [reflexivity|].
    destruct P as [P|P]; congruence.
Qed.

(** X24.  A missing column raises KeyError where the code does not
    compute it: in a histogram for every metric, in a rank plot for
    'n_cells', and for 'n_genes' of genes; [adata] is not changed. *)
Theorem rank_plot_missing_column (env : Rank.externals) (ar : Rank.args)
  (a : Rank.adata) :
  isin (Rank.subject ar) ["cell"; "gene"]%string = true ->
  Colors.has_key (Rank.frame_of ar a) (Rank.metric ar) = false ->
  (Rank.kind ar = Rank.KindHist /\
   isin (Rank.metric ar) ["n_counts"; "n_genes"; "n_cells"]%string = true)
  \/ (Rank.kind ar = Rank.KindRank /\ Rank.metric ar = "n_cells"%string)
  \/ (Rank.kind ar = Rank.KindRank /\ Rank.subject ar = "gene"%string /\
      Rank.metric ar = "n_genes"%string) ->
  Rank.plot_metric_by_rank env ar a = (a, Raise KeyError).
Proof.
  intros S H C.
  assert (G := RankFacts.get_col_absent _ _ H).
  assert (D : forall a', a' = a -> Rank.draw_rank env ar a' = Raise KeyError).
  { intros a' ->. unfold Rank.draw_rank. rewrite G. reflexivity. }
  unfold Rank.plot_metric_by_rank. rewrite S. cbn [negb].
  destruct C as [[K M] | [[K M] | (K & Sg & M)]]; rewrite K.
  - assert (N : exists name, Rank.metric_names (Rank.metric ar) = Some name
                /\ String.eqb (Rank.metric ar) "mt_prop" = false).
    { unfold isin in M. cbn [existsb] in M. unfold Rank.metric_names.
      destruct (String.eqb_spec (Rank.metric ar) "n_counts") as [E|_];
        [rewrite E; eexists; split; reflexivity|].
      destruct (String.eqb_spec (Rank.metric ar) "n_genes") as [E|_];
        [rewrite E; eexists; split; reflexivity|].
      destruct (String.eqb_spec (Rank.metric ar) "n_cells") as [E|_];
        [rewrite E; eexists; split; reflexivity|].
      discriminate M. }
    destruct N as (name & -> & MT). unfold Rank.add_mt_prop. rewrite MT. cbn [andb].
    unfold Rank.draw_hist. rewrite G. reflexivity.
  - assert (A : Rank.add_metric ar a = a).
    { unfold Rank.add_metric. unfold Rank.frame_of in H. rewrite M in *.
      destruct (Rank.is_cell ar); rewrite H; reflexivity. }
    unfold Rank.add_mt_prop. rewrite M.
    change (Rank.metric_names "n_cells") with (Some "nCell"%string).
    change (String.eqb "n_cells" "mt_prop") with false. cbn [andb].
    rewrite A, (D a eq_refl). reflexivity.
  - assert (A : Rank.add_metric ar a = a).
    { unfold Rank.add_metric. unfold Rank.frame_of, Rank.is_cell in *.
      rewrite M, Sg in *.
      change (String.eqb "gene" "cell") with false in *. cbv iota in *.
      rewrite H. reflexivity. }
    unfold Rank.add_mt_prop. rewrite M.
    change (Rank.metric_names "n_genes") with (Some "nGene"%string).
    change (String.eqb "n_genes" "mt_prop") with false. cbn [andb].
    rewrite A, (D a eq_refl). reflexivity.
Qed.



(** X26.  For the metric 'mt_prop' without such a column, without a
    [mito] column and without a gene whose name starts with 'MT-',
    nothing is computed and a rank plot or a histogram raises KeyError. *)
Theorem rank_plot_no_mito_genes (env : Rank.externals) (ar : Rank.args)
  (a : Rank.adata) :
  isin (Rank.subject ar) ["cell"; "gene"]%string = true ->
  Rank.metric ar = "mt_prop"%string ->
  Rank.kind ar <> Rank.KindOther ->
  Colors.has_key (Rank.obs a) "mt_prop" = false ->
  Colors.has_key (Rank.var a) "mt_prop" = false ->
  Colors.has_key (Rank.var a) "mito" = false ->
  Forall (fun name => prefix "MT-" name = false) (Rank.var_names a) ->
  Rank.plot_metric_by_rank env ar a = (a, Raise KeyError).
Proof.
  intros S M K Ho Hv Hm F.
  assert (E : existsb (fun b : bool => b) (map (prefix "MT-") (Rank.var_names a)) = false).
  { induction F as [|n l Hn _ IH]; [reflexivity|].
    cbn [map existsb]. rewrite Hn, IH. reflexivity. }
  assert (H : Colors.has_key (Rank.frame_of ar a) (Rank.metric ar) = false).
  { unfold Rank.frame_of. rewrite M. destruct (Rank.is_cell ar); assumption. }
  assert (G := RankFacts.get_col_absent _ _ H).
  assert (A : Rank.add_metric ar a = a).
  { unfold Rank.add_metric. unfold Rank.frame_of in H. rewrite M in *.
    destruct (Rank.is_cell ar); rewrite H; reflexivity. }
  unfold Rank.plot_metric_by_rank. rewrite S. cbn [negb].
  unfold Rank.add_mt_prop, Rank.k_mt. rewrite M.
  change (Rank.metric_names "mt_prop") with (Some "fracMT"%string).
  rewrite String.eqb_refl, Ho, Hm. cbn [andb negb bind]. rewrite E.
  destruct (Rank.kind ar); [| |congruence].
  - rewrite A. unfold Rank.draw_rank. rewrite G. reflexivity.
  - unfold Rank.draw_hist. rewrite G. reflexivity.
Qed.

Lemma rank_plot_sorted_witness :
  exists d art sorted,
    Rank.plot_metric_by_rank rank_env_example
      (rank_args_example "n_counts" Rank.KindRank Rank.OrderTrue None)
      (rank_adata_example [("n_counts"%string, map Fin [1; 5; 4])])
    = (rank_adata_example [("n_counts"%string, map Fin [1; 5; 4])], Ok (Some d)) /\
    Rank.d_artist d = Some art /\
    Rank.metric_axis false art = map Fin sorted /\
    Rank.rank_axis false art = Rank.ranks 3 /\
    Permutation sorted [1; 5; 4] /\
    Sorted (Rank.ordered true) sorted.
Proof.
  apply (rank_plot_sorted rank_env_example
           (rank_args_example "n_counts" Rank.KindRank Rank.OrderTrue None)
           (rank_adata_example [("n_counts"%string, map Fin [1; 5; 4])])
           [1; 5; 4]); try reflexivity.
  - discriminate.
  - intros cs E. discriminate E.
  - right. discriminate.
Defined.

Lemma rank_plot_colors_follow_witness :
  exists d art,
    Rank.plot_metric_by_rank rank_env_example
      (rank_args_example "n_counts" Rank.KindRank Rank.OrderTrue
         (Some (Rank.ColorArr ["red"; "green"; "blue"]%string)))
      (rank_adata_example [("n_counts"%string, map Fin [1; 5; 4])])
    = (rank_adata_example [("n_counts"%string, map Fin [1; 5; 4])], Ok (Some d)) /\
    Rank.d_artist d = Some art /\
    Permutation (combine (Rank.metric_axis false art) (Rank.colors_of art))
                (combine (map Fin [1; 5; 4]) ["red"; "green"; "blue"]%string).
Proof.
  apply (rank_plot_colors_follow rank_env_example
           (rank_args_example "n_counts" Rank.KindRank Rank.OrderTrue
              (Some (Rank.ColorArr ["red"; "green"; "blue"]%string)))
           (rank_adata_example [("n_counts"%string, map Fin [1; 5; 4])])
           [1; 5; 4] ["red"; "green"; "blue"]%string); try reflexivity.
  - discriminate.
  - right. discriminate.
Defined.

Lemma rank_plot_unbound_name_witness :
  Rank.plot_metric_by_rank rank_env_example
    (rank_args_example "n_counts" Rank.KindRank Rank.OrderFalse
       (Some (Rank.ColorArr ["red"; "green"; "blue"]%string)))
    (rank_adata_example [("n_counts"%string, map Fin [1; 5; 4])])
  = (rank_adata_example [("n_counts"%string, map Fin [1; 5; 4])], Raise NameError).
Proof.
  apply (rank_plot_unbound_name rank_env_example
           (rank_args_example "n_counts" Rank.KindRank Rank.OrderFalse
              (Some (Rank.ColorArr ["red"; "green"; "blue"]%string)))
           (rank_adata_example [("n_counts"%string, map Fin [1; 5; 4])]));
    try reflexivity.
  - discriminate.
  - left. split; [reflexivity|]. split; [reflexivity|]. split.
    + eexists. reflexivity.
    + eexists. reflexivity.
Defined.

Lemma rank_plot_missing_column_witness :
  Rank.plot_metric_by_rank rank_env_example
    (rank_args_example "n_counts" Rank.KindHist Rank.OrderTrue None)
    (rank_adata_example [])
  = (rank_adata_example [], Raise KeyError).
Proof.
  apply (rank_plot_missing_column rank_env_example
           (rank_args_example "n_counts" Rank.KindHist Rank.OrderTrue None)
           (rank_adata_example [])); try reflexivity.
  left. split; reflexivity.
Defined.

Lemma rank_plot_no_mito_genes_witness :
  Rank.plot_metric_by_rank rank_env_example
    (rank_args_example "mt_prop" Rank.KindRank Rank.OrderTrue None)
    (rank_adata_example [("n_counts"%string, map Fin [1; 5; 4])])
  = (rank_adata_example [("n_counts"%string, map Fin [1; 5; 4])], Raise KeyError).
Proof.
  apply (rank_plot_no_mito_genes rank_env_example
           (rank_args_example "mt_prop" Rank.KindRank Rank.OrderTrue None)
           (rank_adata_example [("n_counts"%string, map Fin [1; 5; 4])]));
    try reflexivity.
  - discriminate.
  - repeat constructor.
Defined.

(** * [plot_embedding]: when the labels come back *)

Module EmbeddingExits.

Import Embedding.

Lemma display_label_longer (ad : adata) (i : nat) (c : string) :
  display_label ad i c <> c.
Proof.
  intro E. apply (f_equal String.length) in E. unfold display_label in E.
  rewrite !ColorsFacts.length_append in E. cbn [String.length] in E. lia.
Qed.

Lemma renamed_differs (ad : adata) :
  NoDup (cat_labels ad) -> cat_labels ad <> [] ->
  rename_categories (rename_dict ad) (cat_labels ad) <> cat_labels ad.
Proof.
  intros ND NE E.
  rewrite <- (EmbeddingFacts.rename_dict_keys ad) in E at 1.
  rewrite EmbeddingFacts.rename_by_dict in E
    by (rewrite EmbeddingFacts.rename_dict_keys; exact ND).
  unfold rename_dict, enumerate in E.
  destruct (cat_labels ad) as [|c l]; [congruence|].
  cbn [List.length seq combine map snd] in E. injection E as E _.
  exact (display_label_longer ad 0 c E).
Qed.

Lemma rename_nil (d : dict) : rename_categories d [] = [].
Proof. reflexivity. Qed.

Lemma count_of_total (ad : adata) (n : nat) :
  Forall (fun c => (c < n)%nat) (codes ad) ->
  fold_right Nat.add 0%nat (map (count_of ad) (seq 0 n)) = List.length (codes ad).
Proof.
  unfold count_of. generalize (codes ad) as cs. clear ad.
  induction n as [|n IH]; intros cs F.
  - destruct cs as [|c cs]; [reflexivity|]. inversion F; subst. lia.
  - rewrite seq_S, map_app, fold_right_app. cbn [map fold_right Nat.add plus].
    rewrite Nat.add_0_r.
    assert (P : forall (l : list nat) (k : nat),
               fold_right Nat.add k l = (fold_right Nat.add 0 l + k)%nat).
    { induction l as [|x l IHl]; intro k; cbn [fold_right]; [lia|].
      rewrite IHl. lia. }
    rewrite P.
    assert (Q : forall cs' : list nat,
               fold_right Nat.add 0%nat
                 (map (fun i => List.length (filter (Nat.eqb i) cs')) (seq 0 n))
               = List.length (filter (fun c => Nat.ltb c n) cs')).
    { intro cs'. rewrite <- (IH (filter (fun c => Nat.ltb c n) cs')).
      - f_equal. apply map_ext_in. intros i I. apply in_seq in I.
        f_equal. induction cs' as [|c cs' IHc]; [reflexivity|].
        cbn [filter]. destruct (Nat.ltb_spec c n), (Nat.eqb_spec i c);
          cbn [filter]; try rewrite <- IHc; try reflexivity.
        + destruct (Nat.eqb_spec i c); [reflexivity | contradiction].
        + destruct (Nat.eqb_spec i c); [contradiction | reflexivity].
        + lia.
      - apply Forall_forall. intros c I. apply filter_In in I.
        destruct I as [_ I]. apply Nat.ltb_lt in I. exact I. }
    rewrite Q. clear IH P Q.
    induction F as [|c cs Hc F IHF]; [reflexivity|].
    cbn [filter List.length].
    destruct (Nat.ltb_spec c n), (Nat.eqb_spec n c); cbn [List.length]; lia.
Qed.

End EmbeddingExits.

(** X27.  When [plot_embedding] ends, the categories (which are
    distinct) are the original ones except in one case: they were renamed
    on line 555, there is at least one, and the renaming of the highlight
    view on line 557 or [plt.subplots] on line 563 raised. *)
Theorem plot_embedding_labels_restored_iff (env : Embedding.externals)
  (a : Embedding.args) (ad : Embedding.adata) :
  NoDup (Embedding.cat_labels ad) ->
  Embedding.cat_labels (fst (Embedding.plot_embedding env a ad))
  = Embedding.cat_labels ad
  <-> ~ (Embedding.renames a ad = true /\
         (Embedding.highlight a && Embedding.view_rename_raises env
          || Embedding.subplots_raises env) = true /\
         Embedding.cat_labels ad <> []).
Proof.
  intro ND. split.
  - intros E (R & B & NE).
    apply (EmbeddingExits.renamed_differs ad ND NE).
    unfold Embedding.renames in R. rewrite !andb_true_iff in R.
    destruct R as (((((R1 & R2) & R3) & R4) & R5) & R6).
    apply negb_true_iff in R5.
    unfold Embedding.plot_embedding in E.
    rewrite R1, R2, R3, R4, R5, R6 in E. cbn [negb andb] in E.
    destruct (Embedding.highlight a && Embedding.view_rename_raises env);
      [exact E|].
    cbn [orb] in B. rewrite B in E. exact E.
  - intro N.
    destruct (Embedding.highlight a && Embedding.view_rename_raises env
              || Embedding.subplots_raises env) eqn:B.
    + destruct (Embedding.renames a ad) eqn:R.
      * destruct (Embedding.cat_labels ad) as [|c l] eqn:Ec;
          [|exfalso; apply N; repeat split; discriminate].
        unfold Embedding.plot_embedding.
        destruct (Embedding.figsize_valid a), (Embedding.has_basis ad),
          (Embedding.has_groupby ad), (Embedding.is_category ad),
          (Embedding.components a); cbn [negb fst]; try exact Ec.
        rewrite Ec.
        destruct (Embedding.annot_on (Embedding.annot a)); cbn [andb];
          repeat match goal with
                 | |- context [if ?b then _ else _] => destruct b
                 | |- context [match ?r with Ok _ => _ | Raise _ => _ end] =>
                     destruct r
                 end; cbn [fst Embedding.cat_labels Embedding.set_labels];
          try rewrite Ec; reflexivity.
      * unfold Embedding.renames in R. unfold Embedding.plot_embedding.
        destruct (Embedding.figsize_valid a), (Embedding.has_basis ad),
          (Embedding.has_groupby ad), (Embedding.is_category ad),
          (Embedding.components a); cbn [negb fst andb] in *; try reflexivity.
        rewrite R. cbn [andb].
        repeat match goal with
               | |- context [if ?b then _ else _] => destruct b
               | |- context [match ?r with Ok _ => _ | Raise _ => _ end] =>
                   destruct r
               end; reflexivity.
    + apply orb_false_iff in B. destruct B as [B1 B2].
      apply (EmbeddingFacts.labels_restored_through_try env a ad ND B2 B1).
Qed.

Lemma plot_embedding_labels_restored_iff_witness :
  Embedding.cat_labels
    (fst (Embedding.plot_embedding scatter_fails embedding_args embedding_adata))
  = Embedding.cat_labels embedding_adata.
Proof.
  apply (proj2 (plot_embedding_labels_restored_iff scatter_fails embedding_args
                  embedding_adata
                  ltac:(repeat constructor; simpl; intuition discriminate))).
  intros (_ & B & _). discriminate B.
Defined.

(** X28.  The renamed categories are the labels
    'i: ct (n=count)' in the order of the categories, they are distinct,
    and the counts add up to the number of observations when every
    observation has one of the categories. *)
Theorem display_labels_count_every_cell (ad : Embedding.adata) :
  Forall (fun c => (c < List.length (Embedding.cat_labels ad))%nat)
         (Embedding.codes ad) ->
  NoDup (Embedding.cat_labels ad) ->
  Embedding.rename_categories (Embedding.rename_dict ad) (Embedding.cat_labels ad)
  = map (fun ic => Embedding.display_label ad (fst ic) (snd ic))
        (Embedding.enumerate (Embedding.cat_labels ad)) /\
  NoDup (Embedding.rename_categories (Embedding.rename_dict ad)
           (Embedding.cat_labels ad)) /\
  fold_right Nat.add 0%nat
    (map (Embedding.count_of ad) (seq 0 (List.length (Embedding.cat_labels ad))))
  = List.length (Embedding.codes ad).
Proof.
  intros F ND.
  assert (E : Embedding.rename_categories (Embedding.rename_dict ad)
                (Embedding.cat_labels ad)
              = map snd (Embedding.rename_dict ad)).
  { rewrite <- (EmbeddingFacts.rename_dict_keys ad) at 1.
    apply EmbeddingFacts.rename_by_dict.
    rewrite EmbeddingFacts.rename_dict_keys. exact ND. }
  split; [|split].
  - rewrite E. unfold Embedding.rename_dict. rewrite map_map.
    apply map_ext. intros [i c]. reflexivity.
  - rewrite E, EmbeddingFacts.rename_restore_values.
    apply EmbeddingFacts.restore_dict_keys_NoDup.
  - apply EmbeddingExits.count_of_total. exact F.
Qed.

Lemma display_labels_count_every_cell_witness :
  Embedding.rename_categories (Embedding.rename_dict embedding_adata)
    (Embedding.cat_labels embedding_adata)
  = map (fun ic => Embedding.display_label embedding_adata (fst ic) (snd ic))
        (Embedding.enumerate (Embedding.cat_labels embedding_adata)).
Proof.
  apply (proj1 (display_labels_count_every_cell embedding_adata
                  ltac:(repeat constructor)
                  ltac:(repeat constructor; simpl; intuition discriminate))).
Defined.
